(** * News search engine: ingestion pipeline

    A shallow embedding of the backend of the news search engine
    (cleaners.py, embeddings.py, models.py, news_loader.py, qdrant.py,
    flow.py) and the properties of its text normalisation, chunking,
    polling source and de-duplicating sink.

    Python values are modelled as follows.
    - [str] is a list of Unicode code points ([N]); [lit] turns a Rocq
      string literal into the [str] with the same (Latin-1) code points.
    - A call that may raise is a [result]: [Ok v] or [Raise e].
    - A [dict] with string keys is a [gmap (list N) _]; [d[k]] on a
      missing key raises [KeyError].
    - Third-party collaborators (the Unicode character database, the date
      parser, the tokenizer and the encoder, the text splitter, the vector
      store client) are type classes; the repository's own functions are
      written once over those interfaces. *)

From Stdlib Require Import NArith ZArith QArith String Ascii List Lia Bool.
From stdpp Require Import base option list gmap strings.

Local Open Scope N_scope.
Local Open Scope list_scope.

(** ** Python strings, values and exceptions *)

Abbreviation str := (list N).

Definition lit (s : string) : str :=
  map N_of_ascii (list_ascii_of_string s).

(** The exception classes the program meets; all derive from [Exception]. *)
Inductive exception : Type :=
| KeyError
| ValueError
| TypeError
| OverflowError
| IndexError
| ValidationError
| RuntimeError
| UnexpectedResponse
| ResponseHandlingException
| AttributeError.

Inductive result (A : Type) : Type :=
| Ok (a : A)
| Raise (e : exception).
Arguments Ok {A} a.
Arguments Raise {A} e.

Definition bind {A B : Type} (r : result A) (k : A -> result B) : result B :=
  match r with
  | Ok a => k a
  | Raise e => Raise e
  end.

Notation "'let!' x ':=' r 'in' k" := (bind r (fun x => k))
  (at level 10, x name, r at level 100, k at level 200).

(** A JSON-like payload value: [None] or a string. *)
Inductive pyval : Type :=
| PyNone
| PyStr (s : str).

#[global] Instance pyval_eq_dec : EqDecision pyval.
Proof. solve_decision. Defined.

#[global] Instance exception_eq_dec : EqDecision exception.
Proof. solve_decision. Defined.

(** Python truthiness of a string: [bool(s)]. *)
Definition truthy (s : str) : bool :=
  match s with
  | [] => false
  | _ :: _ => true
  end.

(** ** cleaners.py and the cleaning bricks it imports *)

Module Cleaners.

(** The part of the Unicode character database that is not ASCII:
    [str.lower] on a string that has a non-ASCII character, and
    membership of a non-ASCII code point in a punctuation category (Pc,
    Pd, Ps, Pe, Pi, Pf, Po). The ASCII part is written out below. *)
Class UnicodeData : Type := {
  unicode_lower : str -> str;
  unicode_category_P : N -> bool
}.

Definition is_ascii (c : N) : bool := c <? 128.

(** [str.isspace] on one character, which is what [str.strip()] and the
    regular expression class [\s] test. *)
Definition isspace (c : N) : bool :=
  ((9 <=? c) && (c <=? 13)) || ((28 <=? c) && (c <=? 32))
  || (c =? 133) || (c =? 160) || (c =? 5760)
  || ((8192 <=? c) && (c <=? 8202))
  || (c =? 8232) || (c =? 8233) || (c =? 8239) || (c =? 8287)
  || (c =? 12288).

Fixpoint lstrip (s : str) : str :=
  match s with
  | [] => []
  | c :: rest => if isspace c then lstrip rest else s
  end.

Definition rstrip (s : str) : str := rev (lstrip (rev s)).

(** [s.strip()] *)
Definition strip (s : str) : str := rstrip (lstrip s).

(** [s.lower()] *)
Definition ascii_lower (c : N) : N :=
  if (65 <=? c) && (c <=? 90) then c + 32 else c.

Definition lower `{UnicodeData} (s : str) : str :=
  if forallb is_ascii s then map ascii_lower s else unicode_lower s.

(** ASCII code points of a punctuation category: 33 to 35, 37 to 42,
    44 to 47, colon, semicolon, question mark, at sign, the square
    brackets and the backslash, underscore, and the two braces. The
    other ASCII signs (dollar, plus, less, equal, greater, caret,
    backquote, bar, tilde) are symbols, not punctuation. *)
Definition ascii_punctuation (c : N) : bool :=
  ((33 <=? c) && (c <=? 35)) || ((37 <=? c) && (c <=? 42))
  || ((44 <=? c) && (c <=? 47)) || (c =? 58) || (c =? 59)
  || (c =? 63) || (c =? 64) || ((91 <=? c) && (c <=? 93))
  || (c =? 95) || (c =? 123) || (c =? 125).

(** [unicodedata.category(chr(c)).startswith("P")] *)
Definition category_P `{UnicodeData} (c : N) : bool :=
  if is_ascii c then ascii_punctuation c else unicode_category_P c.

(** [prefix_of old s]: [s.startswith(old)] *)
Fixpoint startswith (s old : str) : bool :=
  match old, s with
  | [], _ => true
  | _ :: _, [] => false
  | a :: old', b :: s' => (a =? b) && startswith s' old'
  end.

(** [s.replace(old, new)] for a non-empty [old]: occurrences are
    replaced from left to right and do not overlap; [skip] counts the
    characters of an occurrence that are still to be dropped. *)
Fixpoint replace_from (old new : str) (skip : nat) (s : str) : str :=
  match s with
  | [] => []
  | c :: rest =>
      match skip with
      | S k => replace_from old new k rest
      | O =>
          if startswith s old
          then new ++ replace_from old new (Nat.pred (length old)) rest
          else c :: replace_from old new O rest
      end
  end.

Definition replace (old new s : str) : str :=
  match old with
  | [] => s
  | _ :: _ => replace_from old new O s
  end.

(** *** cleaners.py *)

(** [re.sub(r"<[^>]+>", EMPTY, text)]: every tag is deleted.
    [tag_end s] is what follows the
    first [>] of [s], when [s] has one. *)
Fixpoint tag_end (s : str) : option str :=
  match s with
  | [] => None
  | c :: rest => if c =? 62 then Some rest else tag_end rest
  end.

Fixpoint remove_html_from (skip : nat) (s : str) : str :=
  match s with
  | [] => []
  | c :: rest =>
      match skip with
      | S k => remove_html_from k rest
      | O =>
          match rest with
          | d :: rest' =>
              if (c =? 60) && negb (d =? 62) then
                match tag_end rest' with
                | Some after =>
                    remove_html_from (length rest - length after) rest
                | None => c :: remove_html_from O rest
                end
              else c :: remove_html_from O rest
          | [] => [c]
          end
      end
  end.

Definition remove_html_tags (text : str) : str := remove_html_from O text.

(** [re.sub(r"\s+", " ", text)] *)
Fixpoint squeeze_space (s : str) : str :=
  match s with
  | [] => []
  | c :: rest =>
      if isspace c then
        match rest with
        | d :: _ => if isspace d then squeeze_space rest
                    else 32 :: squeeze_space rest
        | [] => [32]
        end
      else c :: squeeze_space rest
  end.

Definition normalize_whitespace (text : str) : str :=
  strip (squeeze_space text).

(** *** unstructured.cleaners.core *)

(** [re.sub(r"[-–]", " ", text).strip()] *)
Definition clean_dashes (text : str) : str :=
  strip (map (fun c => if (c =? 45) || (c =? 8211) then 32 else c) text).

(** [re.sub(r"([ ]{2,})", " ", ...)]: a run of two or more spaces
    becomes one space. *)
Fixpoint collapse_spaces (s : str) : str :=
  match s with
  | [] => []
  | c :: rest =>
      if c =? 32 then
        match rest with
        | d :: _ => if d =? 32 then collapse_spaces rest
                    else c :: collapse_spaces rest
        | [] => [c]
        end
      else c :: collapse_spaces rest
  end.

Definition clean_extra_whitespace (text : str) : str :=
  strip (collapse_spaces
           (map (fun c => if (c =? 160) || (c =? 10) then 32 else c) text)).

(** The characters of [UNICODE_BULLETS]. *)
Definition UNICODE_BULLETS : list N :=
  [149; 8226; 8227; 8259; 12644; 8268; 8269; 8729; 9675; 9679; 9688;
   9702; 9753; 10085; 10087; 10686; 10687; 45; 61623; 42; 149; 183].

Definition is_bullet (c : N) : bool :=
  existsb (N.eqb c) UNICODE_BULLETS.

(** [UNICODE_BULLETS_RE] is one bullet not followed by a bullet; it is
    matched at the start of the text, the match is replaced by a space
    and the text stripped. *)
Definition clean_bullets (text : str) : str :=
  match text with
  | c :: rest =>
      if is_bullet c
         && negb (match rest with d :: _ => is_bullet d | [] => false end)
      then strip (32 :: rest)
      else text
  | [] => text
  end.

(** [clean(text, lowercase=True, extra_whitespace=True, dashes=True,
    bullets=True)]; [trailing_punctuation] keeps its default, False. *)
Definition clean `{UnicodeData} (text : str) : str :=
  let cleaned_text := lower text in
  let cleaned_text := clean_dashes cleaned_text in
  let cleaned_text := clean_extra_whitespace cleaned_text in
  let cleaned_text := clean_bullets cleaned_text in
  strip cleaned_text.

(** The (old, new) pairs of [replace_unicode_quotes], in source order. *)
Definition UNICODE_QUOTES : list (str * str) :=
  [ ([145], [8216]);
    ([146], [8217]);
    ([147], [8220]);
    ([148], [8221]);
    (lit "&apos;", lit "'");
    ([226; 128; 153], lit "'");
    ([226; 128; 8220], [8212]);
    ([226; 128; 8221], [8211]);
    ([226; 128; 732], [8216]);
    ([226; 128; 166], [8230]);
    ([226; 128; 8482], [8217]);
    ([226; 128; 339], [8220]);
    ([226; 128; 63], [8221]);
    ([226; 128; 357], [8221]);
    ([226; 128; 347], [8220]);
    ([226; 128; 168], [8212]);
    ([226; 128; 322], [8243]);
    ([226; 128; 381], []);
    ([226; 128; 8218], []);
    ([226; 128; 8240], []);
    ([226; 128; 8249], []);
    ([226; 128], []);
    ([226; 128; 115; 39], []) ].

Definition replace_unicode_quotes (text : str) : str :=
  fold_left (fun t '(old, new) => replace old new t) UNICODE_QUOTES text.

(** [text.encode("ascii", "ignore").decode()] *)
Definition clean_non_ascii_chars (text : str) : str :=
  filter (fun c => is_ascii c = true) text.

(** [s.translate(tbl)], [tbl] deleting every code point of a
    punctuation category. *)
Definition remove_punctuation `{UnicodeData} (s : str) : str :=
  filter (fun c => category_P c = false) s.

(** *** cleaners.py: clean_full *)
Definition clean_full `{UnicodeData} (text : str) : str :=
  let text := clean text in
  let text := replace_unicode_quotes text in
  let text := clean_non_ascii_chars text in
  let text := remove_punctuation text in
  text.

(** A character database that knows ASCII only; it agrees with the real
    one on every text made of ASCII characters. *)
Definition ascii_only : UnicodeData :=
  {| unicode_lower := fun s => s; unicode_category_P := fun _ => false |}.

End Cleaners.


(** ** embeddings.py *)

Module Embeddings.

(** A Python float; its value plays no part below. *)
Abbreviation float := Q.

(** The pretrained tokenizer: [encode text max_length] is the call
    [tokenizer(text, padding=True, truncation=True, max_length=...)],
    which may raise; [tokenize] and [model_max_length] are what the
    chunker reads. *)
Record AutoTokenizer : Type := {
  encode : str -> nat -> result (list N);
  tokenize : str -> list str;
  model_max_length : nat
}.

(** The pretrained encoder: [forward tokens] is the flattened
    first hidden state of the model's output, or what the call raises. *)
Record AutoModel : Type := {
  forward : list N -> result (list float)
}.

Record TextEmbedder : Type := {
  _model_id : str;
  _device : str;
  _max_input_length : nat;
  _token_limit : nat;
  _tokenizer : AutoTokenizer;
  _model : AutoModel
}.

Definition tokenizer (self : TextEmbedder) : AutoTokenizer :=
  _tokenizer self.

Definition max_input_length (self : TextEmbedder) : nat :=
  _max_input_length self.

(** [TextEmbedder.__call__(input_text, to_list=True)] *)
Definition call (self : TextEmbedder) (input_text : str) : list float :=
  if negb (truthy input_text) then []
  else
    match encode (_tokenizer self) input_text (_max_input_length self) with
    | Raise _ => []
    | Ok tokenized_text =>
        match forward (_model self) tokenized_text with
        | Raise _ => []
        | Ok embeddings => embeddings
        end
    end.

End Embeddings.

(** ** models.py *)

Module Models.
Import Cleaners Embeddings.

(** A naive [datetime.datetime]. *)
Record datetime : Type := {
  year : N; month : N; day : N; hour : N; minute : N; second : N
}.

(** The decimal digits of a number, most significant first, as code
    points. *)
Fixpoint uint_digits (d : Decimal.uint) : str :=
  match d with
  | Decimal.Nil => []
  | Decimal.D0 d => 48 :: uint_digits d
  | Decimal.D1 d => 49 :: uint_digits d
  | Decimal.D2 d => 50 :: uint_digits d
  | Decimal.D3 d => 51 :: uint_digits d
  | Decimal.D4 d => 52 :: uint_digits d
  | Decimal.D5 d => 53 :: uint_digits d
  | Decimal.D6 d => 54 :: uint_digits d
  | Decimal.D7 d => 55 :: uint_digits d
  | Decimal.D8 d => 56 :: uint_digits d
  | Decimal.D9 d => 57 :: uint_digits d
  end.

(** The number in decimal, without padding: what the year directive
    prints, so that the year 987 is printed on three digits. *)
Definition decimal (n : N) : str := uint_digits (N.to_uint n).

(** The number in decimal, zero-padded to two digits: what the month,
    day, hour, minute and second directives print. *)
Definition pad2 (n : N) : str :=
  if n <? 10 then 48 :: decimal n else decimal n.

(** [d.strftime] with the format year-month-day hour:minute:second. *)
Definition strftime (d : datetime) : str :=
  decimal (year d) ++ [45] ++ pad2 (month d) ++ [45] ++ pad2 (day d)
  ++ [32] ++ pad2 (hour d) ++ [58] ++ pad2 (minute d) ++ [58]
  ++ pad2 (second d).

(** [CURRENT_TIMESTAMP] is evaluated once, when the module is imported:
    [load_time] is what [datetime.utcnow()] returned then. *)
Definition CURRENT_TIMESTAMP (load_time : datetime) : str :=
  strftime load_time.

(** [dateutil.parser.parse(value)]: a date, or the exception raised. *)
Class DateParser : Type := {
  parser_parse : pyval -> result datetime
}.

(** [hashlib.md5(chunk.encode()).hexdigest()] *)
Class Hashlib : Type := {
  md5_hexdigest : str -> str
}.

(** [RecursiveCharacterTextSplitter()] with its defaults: sections of
    at most 4000 characters, each stripped of surrounding whitespace,
    empty sections dropped. A text shorter than one section comes back
    whole. *)
Class RecursiveCharacterTextSplitter : Type := {
  split_text : str -> list str;
  split_text_short :
    forall text : str,
      (length text < 4000)%nat ->
      split_text text =
        match strip text with
        | [] => []
        | c :: section => [c :: section]
        end
}.

Module DocumentSource.
Record t : Type := { id : option str; name : str }.
End DocumentSource.

Module CommonDocument.

Record t : Type := {
  article_id : str;
  title : str;
  url : str;
  published_at : str;
  source_name : str;
  image_url : option str;
  description : option str;
  content : option str
}.

(** [clean_full(value) if value else "N/A"] *)
Definition clean_text_fields `{UnicodeData} (value : option str) : str :=
  match value with
  | Some v => if truthy v then clean_full v else lit "N/A"
  | None => lit "N/A"
  end.

Definition clean_url_fields (value : option str) : str :=
  let value :=
    match value with
    | Some v =>
        if truthy v
        then Some (normalize_whitespace (remove_html_tags v))
        else value
    | None => None
    end in
  match value with
  | Some v => if truthy v then v else lit "N/A"
  | None => lit "N/A"
  end.

(** Only [ValueError] and [TypeError] are handled. *)
Definition clean_date_field `{DateParser}
    (load_time : datetime) (value : pyval) : result str :=
  match parser_parse value with
  | Ok parsed_date => Ok (strftime parsed_date)
  | Raise ValueError => Ok (CURRENT_TIMESTAMP load_time)
  | Raise TypeError => Ok (CURRENT_TIMESTAMP load_time)
  | Raise e => Raise e
  end.

(** A keyword argument of the constructor: left out, or given. The
    field validators run on given values only; a field left out takes
    its declared default as it is. *)
Inductive arg (A : Type) : Type :=
| Omitted
| Given (a : A).
Arguments Omitted {A}.
Arguments Given {A} a.

Record kwargs : Type := {
  kw_article_id : arg str;
  kw_title : arg (option str);
  kw_url : arg (option str);
  kw_published_at : arg pyval;
  kw_source_name : arg str;
  kw_image_url : arg (option str);
  kw_description : arg (option str);
  kw_content : arg (option str)
}.

(** The constructor, called with keyword arguments [data]; [uuid] is
    what [uuid4()] would give. *)
Definition init `{UnicodeData} `{DateParser}
    (load_time : datetime) (uuid : str) (data : kwargs) : result t :=
  let! published :=
    match kw_published_at data with
    | Omitted => Ok (CURRENT_TIMESTAMP load_time)
    | Given v => clean_date_field load_time v
    end in
  Ok {| article_id :=
          match kw_article_id data with
          | Omitted => uuid
          | Given v => v
          end;
        title :=
          match kw_title data with
          | Omitted => lit "N/A"
          | Given v => clean_text_fields v
          end;
        url :=
          match kw_url data with
          | Omitted => lit "N/A"
          | Given v => clean_url_fields v
          end;
        published_at := published;
        source_name :=
          match kw_source_name data with
          | Omitted => lit "Unknown"
          | Given v => v
          end;
        image_url :=
          match kw_image_url data with
          | Omitted => None
          | Given v => Some (clean_url_fields v)
          end;
        description :=
          match kw_description data with
          | Omitted => None
          | Given v => Some (clean_text_fields v)
          end;
        content :=
          match kw_content data with
          | Omitted => None
          | Given v => Some (clean_text_fields v)
          end |}.

Definition from_json `{UnicodeData} `{DateParser}
    (load_time : datetime) (uuid : str) (data : kwargs) : result t :=
  init load_time uuid data.

End CommonDocument.

Module NewsDataIOModel.
Record t : Type := {
  article_id : str;
  title : str;
  link : str;
  description : option str;
  pubDate : str;
  source_id : option str;
  source_url : option str;
  source_icon : option str;
  creator : option (list str);
  image_url : option str;
  content : option str
}.

Definition to_common `{UnicodeData} `{DateParser}
    (load_time : datetime) (uuid : str) (self : t)
    : result CommonDocument.t :=
  CommonDocument.init load_time uuid
    {| CommonDocument.kw_article_id := CommonDocument.Given (article_id self);
       CommonDocument.kw_title := CommonDocument.Given (Some (title self));
       CommonDocument.kw_description :=
         CommonDocument.Given (description self);
       CommonDocument.kw_url := CommonDocument.Given (Some (link self));
       CommonDocument.kw_published_at :=
         CommonDocument.Given (PyStr (pubDate self));
       CommonDocument.kw_source_name :=
         CommonDocument.Given
           match source_id self with
           | Some s => if truthy s then s else lit "Unknown"
           | None => lit "Unknown"
           end;
       CommonDocument.kw_image_url := CommonDocument.Given (image_url self);
       CommonDocument.kw_content := CommonDocument.Given (content self) |}.
End NewsDataIOModel.

Module NewsAPIModel.
Record t : Type := {
  source : DocumentSource.t;
  author : option str;
  title : str;
  description : option str;
  url : str;
  urlToImage : option str;
  publishedAt : str;
  content : option str
}.

Definition to_common `{UnicodeData} `{DateParser}
    (load_time : datetime) (uuid : str) (self : t)
    : result CommonDocument.t :=
  CommonDocument.init load_time uuid
    {| CommonDocument.kw_article_id := CommonDocument.Omitted;
       CommonDocument.kw_title := CommonDocument.Given (Some (title self));
       CommonDocument.kw_description :=
         CommonDocument.Given (description self);
       CommonDocument.kw_url := CommonDocument.Given (Some (url self));
       CommonDocument.kw_published_at :=
         CommonDocument.Given (PyStr (publishedAt self));
       CommonDocument.kw_source_name :=
         CommonDocument.Given (DocumentSource.name (source self));
       CommonDocument.kw_image_url :=
         CommonDocument.Given (urlToImage self);
       CommonDocument.kw_content := CommonDocument.Given (content self) |}.
End NewsAPIModel.

Module RefinedDocument.
Record t : Type := {
  doc_id : str;
  full_text : str;
  metadata : gmap (list N) pyval
}.

Definition opt_val (o : option str) : pyval :=
  match o with
  | Some s => PyStr s
  | None => PyNone
  end.

(** [".".join([common.title, common.description])] raises [TypeError]
    when the description is [None]. *)
Definition from_common (common : CommonDocument.t) : result t :=
  let! joined :=
    match CommonDocument.description common with
    | Some d => Ok (CommonDocument.title common ++ [46] ++ d)
    | None => Raise TypeError
    end in
  Ok {| doc_id := CommonDocument.article_id common;
        full_text := joined;
        metadata :=
          <[lit "title" := PyStr (CommonDocument.title common)]>
          (<[lit "url" := PyStr (CommonDocument.url common)]>
          (<[lit "published_at" :=
               PyStr (CommonDocument.published_at common)]>
          (<[lit "source_name" :=
               PyStr (CommonDocument.source_name common)]>
          (<[lit "image_url" :=
               opt_val (CommonDocument.image_url common)]> ∅)))) |}.
End RefinedDocument.

(** *** unstructured.staging.huggingface.chunk_by_attention_window *)

(** [text.split(" ")] *)
Fixpoint split_space (text : str) : list str :=
  match text with
  | [] => [[]]
  | c :: rest =>
      if c =? 32 then [] :: split_space rest
      else
        match split_space rest with
        | segment :: segments => (c :: segment) :: segments
        | [] => [[c]]
        end
  end.

Record window : Type := {
  chunks : list str;
  chunk_text : str;
  chunk_size : nat
}.

Definition chunk_separator : str := [32].

(** The body of the loop over the segments; [last] says that the
    segment is the final one. *)
Definition window_step (tokenizer : AutoTokenizer) (max_chunk_size : nat)
    (w : window) (segment : str) (last : bool) : result window :=
  let num_tokens := length (tokenize tokenizer segment) in
  if (max_chunk_size <? num_tokens)%nat then Raise ValueError
  else
    let w :=
      if (max_chunk_size <? chunk_size w + num_tokens)%nat
      then {| chunks := chunks w ++ [chunk_text w ++ strip chunk_separator];
              chunk_text := [];
              chunk_size := 0 |}
      else w in
    let text :=
      if (0 <? chunk_size w)%nat
      then chunk_text w ++ chunk_separator
      else chunk_text w in
    let text := text ++ segment in
    Ok {| chunks :=
            if last && truthy text then chunks w ++ [text] else chunks w;
          chunk_text := text;
          chunk_size := (chunk_size w + num_tokens)%nat |}.

Fixpoint window_loop (tokenizer : AutoTokenizer) (max_chunk_size : nat)
    (segments : list str) (w : window) : result window :=
  match segments with
  | [] => Ok w
  | segment :: rest =>
      let! w' := window_step tokenizer max_chunk_size w segment
                   match rest with [] => true | _ :: _ => false end in
      window_loop tokenizer max_chunk_size rest w'
  end.

(** [chunk_by_attention_window(text, tokenizer)], with the defaults
    [buffer=2], [max_input_size=tokenizer.model_max_length], splitting
    on single spaces and joining with a space. *)
Definition chunk_by_attention_window
    (text : str) (tokenizer : AutoTokenizer) : result (list str) :=
  let buffer := 2%nat in
  let max_input_size := model_max_length tokenizer in
  if (max_input_size <=? buffer)%nat then Raise ValueError
  else
    let max_chunk_size := (max_input_size - buffer)%nat in
    let! w := window_loop tokenizer max_chunk_size (split_space text)
                {| chunks := []; chunk_text := []; chunk_size := 0 |} in
    Ok (chunks w).

Module ChunkedDocument.
Record t : Type := {
  doc_id : str;
  chunk_id : str;
  full_raw_text : str;
  text : str;
  metadata : gmap (list N) pyval
}.

(** The loop over the sections, extending [chunks]. *)
Fixpoint extend_all (embedding_model : TextEmbedder)
    (text_sections : list str) (chunks : list str) : result (list str) :=
  match text_sections with
  | [] => Ok chunks
  | section :: rest =>
      let! more :=
        chunk_by_attention_window section (tokenizer embedding_model) in
      extend_all embedding_model rest (chunks ++ more)
  end.

Definition chunk_text `{RecursiveCharacterTextSplitter}
    (text : str) (embedding_model : TextEmbedder) : result (list str) :=
  let text_sections := split_text text in
  extend_all embedding_model text_sections [].

Definition from_refined `{RecursiveCharacterTextSplitter} `{Hashlib}
    (refined_doc : RefinedDocument.t) (embedding_model : TextEmbedder)
    : result (list t) :=
  let! chunks :=
    chunk_text (RefinedDocument.full_text refined_doc) embedding_model in
  Ok (map (fun chunk =>
             {| doc_id := RefinedDocument.doc_id refined_doc;
                chunk_id := md5_hexdigest chunk;
                full_raw_text := RefinedDocument.full_text refined_doc;
                text := chunk;
                metadata := RefinedDocument.metadata refined_doc |})
          chunks).
End ChunkedDocument.

Module EmbeddedDocument.
Record t : Type := {
  doc_id : str;
  chunk_id : str;
  full_raw_text : str;
  text : str;
  embeddings : list float;
  metadata : gmap (list N) pyval
}.

Definition from_chunked
    (chunked_doc : ChunkedDocument.t) (embedding_model : TextEmbedder)
    : t :=
  {| doc_id := ChunkedDocument.doc_id chunked_doc;
     chunk_id := ChunkedDocument.chunk_id chunked_doc;
     full_raw_text := ChunkedDocument.full_raw_text chunked_doc;
     text := ChunkedDocument.text chunked_doc;
     embeddings := call embedding_model (ChunkedDocument.text chunked_doc);
     metadata := ChunkedDocument.metadata chunked_doc |}.

(** The triple (identity, vector, payload) of the document. *)
Definition to_payload (self : t)
    : str * list float * gmap (list N) pyval :=
  (chunk_id self, embeddings self, metadata self).
End EmbeddedDocument.

End Models.

(** ** news_loader.py *)

Module NewsLoader.
Import Models.

(** [error_handler(fetch_func)]: whatever the wrapped call raises is
    logged and the empty list is returned. *)
Definition error_handler {A W : Type}
    (fetch_func : W -> result (list A)) (world : W) : list A :=
  match fetch_func world with
  | Ok articles => articles
  | Raise _ => []
  end.

(** The loop of [_remove_duplicates], from a given state of
    [seen_urls] and [unique_articles]. *)
Fixpoint remove_duplicates_from (seen_urls : gset (list N))
    (unique_articles : list CommonDocument.t)
    (articles : list CommonDocument.t) : list CommonDocument.t :=
  match articles with
  | [] => unique_articles
  | article :: rest =>
      if decide (CommonDocument.url article ∈ seen_urls)
      then remove_duplicates_from seen_urls unique_articles rest
      else remove_duplicates_from
             ({[CommonDocument.url article]} ∪ seen_urls)
             (unique_articles ++ [article]) rest
  end.

Definition _remove_duplicates (articles : list CommonDocument.t)
    : list CommonDocument.t :=
  remove_duplicates_from ∅ [] articles.

(** [fetch_all_sources]: [fetched] holds what each source returned, in
    the order of [sources]. *)
Definition fetch_all_sources (fetched : list (list CommonDocument.t))
    : list CommonDocument.t :=
  let all_articles :=
    fold_left (fun all_articles articles =>
                 if negb (Nat.eqb (length articles) 0)
                 then all_articles ++ articles
                 else all_articles)
              fetched [] in
  _remove_duplicates all_articles.

End NewsLoader.

(** ** qdrant.py *)

Module Qdrant.
Import Embeddings Models.

Record PointStruct : Type := {
  id : str;
  vector : list float;
  payload : gmap (list N) pyval
}.

(** The vector store client. [query_points client collection key value
    limit] builds the filter that asks payload field [key] to equal
    [value] and runs the query: it returns the matching points, at most
    [limit] of them, or what building the filter or running the query
    raised. [upsert client collection points] writes the points and
    returns the client with its store updated, or raises. *)
Class QdrantClient (C : Type) : Type := {
  query_points : C -> str -> str -> pyval -> nat -> result (list PointStruct);
  upsert : C -> str -> list PointStruct -> result C
}.

Section Sink.
Context {C : Type} `{QdrantClient C}.

Record QdrantVectorSink : Type := {
  _client : C;
  _collection_name : str
}.

Definition article_exists (self : QdrantVectorSink) (article_url : pyval)
    : bool :=
  match query_points (_client self) (_collection_name self)
          (lit "url") article_url 1 with
  | Ok points => (0 <? length points)%nat
  | Raise _ => false
  end.

(** The point built for a document. *)
Definition point_of (doc : EmbeddedDocument.t) : PointStruct :=
  {| id := EmbeddedDocument.doc_id doc;
     vector := EmbeddedDocument.embeddings doc;
     payload := EmbeddedDocument.metadata doc |}.

(** The loop of [write_batch] over the documents, from the points
    staged so far; [doc.metadata["url"]] raises [KeyError] when the
    key is missing. *)
Fixpoint stage (self : QdrantVectorSink)
    (documents : list EmbeddedDocument.t) (points : list PointStruct)
    : result (list PointStruct) :=
  match documents with
  | [] => Ok points
  | doc :: rest =>
      match EmbeddedDocument.metadata doc !! lit "url" with
      | None => Raise KeyError
      | Some article_url =>
          if negb (article_exists self article_url)
          then stage self rest (points ++ [point_of doc])
          else stage self rest points
      end
  end.

Definition write_batch (self : QdrantVectorSink)
    (documents : list EmbeddedDocument.t) : result QdrantVectorSink :=
  let! points := stage self documents [] in
  match points with
  | [] => Ok self
  | _ :: _ =>
      match upsert (_client self) (_collection_name self) points with
      | Ok client' =>
          Ok {| _client := client';
                _collection_name := _collection_name self |}
      | Raise _ => Ok self
      end
  end.

Definition write (self : QdrantVectorSink) (document : EmbeddedDocument.t)
    : result QdrantVectorSink :=
  write_batch self [document].

End Sink.
Arguments QdrantVectorSink C : clear implicits.

(** Modelled from the spec: the vector store collaborator, an opaque
    upsert and query service. The store holds one point per identity;
    upserting an identity that is already there overwrites it in place;
    the existence query matches a payload field exactly. A filter value
    that is not a string is refused. *)
Definition store_upsert (store : gmap (list N) PointStruct)
    (points : list PointStruct) : gmap (list N) PointStruct :=
  fold_left (fun s p => <[id p := p]> s) points store.

Definition store_match (store : gmap (list N) PointStruct)
    (key : str) (value : pyval) : list PointStruct :=
  filter (fun p => payload p !! key = Some value)
         (map snd (map_to_list store)).

#[global] Instance store_client : QdrantClient (gmap (list N) PointStruct) := {
  query_points store _ key value limit :=
    match value with
    | PyStr _ => Ok (take limit (store_match store key value))
    | PyNone => Raise ValidationError
    end;
  upsert store _ points := Ok (store_upsert store points)
}.

(** A client whose server cannot be reached: every call raises. *)
Inductive unreachable : Type := Unreachable.

#[global] Instance unreachable_client : QdrantClient unreachable := {
  query_points _ _ _ _ _ := Raise ResponseHandlingException;
  upsert _ _ _ := Raise ResponseHandlingException
}.

End Qdrant.

(** ** flow.py *)

Module Flow.
Import Embeddings Models Qdrant.

(** An aware UTC [datetime], as seconds since the epoch. *)
Abbreviation timestamp := Z.

Module NewsStreamSource.

(** [fetch_func] is one of the fetcher's wrapped methods; what it
    returns depends on the instant of the call. *)
Record t : Type := {
  fetch_func : timestamp -> list CommonDocument.t;
  last_fetched_timestamp : timestamp
}.

(** [__init__(fetch_func, resume_state)], run at the instant [now]. *)
Definition init (fetch_func : timestamp -> list CommonDocument.t)
    (resume_state : option timestamp) (now : timestamp) : t :=
  {| fetch_func := fetch_func;
     last_fetched_timestamp :=
       match resume_state with
       | Some state => state
       | None => now
       end |}.

(** [next_batch()], run at the instant [now]: the batch and the
    partition afterwards. *)
Definition next_batch (self : t) (now : timestamp)
    : list CommonDocument.t * t :=
  let articles := fetch_func self now in
  match articles with
  | [] => ([], self)
  | _ :: _ => (articles, self)
  end.

Definition next_awake (self : t) (now : timestamp) : timestamp :=
  (now + 5)%Z.

Definition snapshot (self : t) : timestamp :=
  last_fetched_timestamp self.

(** The partition after polling at each of the given instants. *)
Definition poll_all (self : t) (instants : list timestamp) : t :=
  fold_left (fun s now => snd (next_batch s now)) instants self.

End NewsStreamSource.

Module NewsStreamInput.
(** The fetcher's sources, by name. *)
Record t : Type := {
  sources : list (str * (timestamp -> list CommonDocument.t))
}.

Definition list_parts (self : t) : list str := map fst (sources self).

(** [build_part(step_id, for_part, resume_state)], run at the instant
    [now]. The part is looked up on the fetcher by its name. The names
    that the flow asks for are those of [list_parts]; a name that the
    fetcher does not have raises [AttributeError]. The attributes of the
    fetcher that are not sources are left out of [sources]. *)
Definition build_part (self : t) (for_part : str)
    (resume_state : option timestamp) (now : timestamp)
    : result NewsStreamSource.t :=
  match find (fun s => bool_decide (fst s = for_part)) (sources self) with
  | Some s => Ok (NewsStreamSource.init (snd s) resume_state now)
  | None => Raise AttributeError
  end.
End NewsStreamInput.

(** The steps of the dataflow that [build] wires, each on the items of
    one batch; an exception in a step stops the flow. *)
Fixpoint refine (inp : list CommonDocument.t)
    : result (list RefinedDocument.t) :=
  match inp with
  | [] => Ok []
  | common :: rest =>
      let! doc := RefinedDocument.from_common common in
      let! docs := refine rest in
      Ok (doc :: docs)
  end.

Fixpoint chunkenize `{RecursiveCharacterTextSplitter} `{Hashlib}
    (model : TextEmbedder) (stream : list RefinedDocument.t)
    : result (list ChunkedDocument.t) :=
  match stream with
  | [] => Ok []
  | refined_doc :: rest =>
      let! chunks := ChunkedDocument.from_refined refined_doc model in
      let! more := chunkenize model rest in
      Ok (chunks ++ more)
  end.

Definition embed (model : TextEmbedder) (stream : list ChunkedDocument.t)
    : list EmbeddedDocument.t :=
  map (fun chunked_doc => EmbeddedDocument.from_chunked chunked_doc model)
      stream.

Definition output {C : Type} `{QdrantClient C}
    (sink : QdrantVectorSink C) (stream : list EmbeddedDocument.t)
    : result (QdrantVectorSink C) :=
  write_batch sink stream.

(** One batch through the flow of [build]:
    input, refine, chunkenize, embed, output. *)
Definition run_batch `{RecursiveCharacterTextSplitter} `{Hashlib}
    {C : Type} `{QdrantClient C}
    (model : TextEmbedder) (sink : QdrantVectorSink C)
    (inp : list CommonDocument.t) : result (QdrantVectorSink C) :=
  let! stream := refine inp in
  let! stream := chunkenize model stream in
  let stream := embed model stream in
  output sink stream.

End Flow.

(** ** Sample data *)

Module Samples.
Import Cleaners Embeddings Models Qdrant Flow.

Definition news_url : str := lit "https://x/a".

Definition sample_metadata : gmap (list N) pyval :=
  <[lit "title" := PyStr (lit "breaking news")]>
  (<[lit "url" := PyStr news_url]> ∅).

(** Two chunks of one article. *)
Definition chunk_a : EmbeddedDocument.t :=
  {| EmbeddedDocument.doc_id := lit "article-1";
     EmbeddedDocument.chunk_id := lit "0cc175b9c0f1b6a831c399e269772661";
     EmbeddedDocument.full_raw_text := lit "breaking news.today";
     EmbeddedDocument.text := lit "breaking";
     EmbeddedDocument.embeddings := [1 # 2; 1 # 4];
     EmbeddedDocument.metadata := sample_metadata |}.

Definition chunk_b : EmbeddedDocument.t :=
  {| EmbeddedDocument.doc_id := lit "article-1";
     EmbeddedDocument.chunk_id := lit "92eb5ffee6ae2fec3ad71c777531578f";
     EmbeddedDocument.full_raw_text := lit "breaking news.today";
     EmbeddedDocument.text := lit "news.today";
     EmbeddedDocument.embeddings := [3 # 4; 1 # 8];
     EmbeddedDocument.metadata := sample_metadata |}.

(** A sink on an empty collection, and one on a store out of reach. *)
Definition empty_sink : QdrantVectorSink (gmap (list N) PointStruct) :=
  {| _client := ∅; _collection_name := lit "news" |}.

Definition unreachable_sink : QdrantVectorSink unreachable :=
  {| _client := Unreachable; _collection_name := lit "news" |}.

(** A tokenizer that makes one token of every non-empty segment, and
    an encoder whose inference raises. *)
Definition word_tokenizer : AutoTokenizer :=
  {| encode := fun text max_length => Ok (take max_length text);
     tokenize := fun segment => if truthy segment then [segment] else [];
     model_max_length := 512 |}.

Definition failing_model : AutoModel :=
  {| forward := fun _ => Raise RuntimeError |}.

Definition broken_embedder : TextEmbedder :=
  {| _model_id := lit "sentence-transformers/all-MiniLM-L6-v2";
     _device := lit "cpu";
     _max_input_length := 384;
     _token_limit := 256;
     _tokenizer := word_tokenizer;
     _model := failing_model |}.

(** An embedder whose encoder answers with a fixed vector. *)
Definition sample_embedder : TextEmbedder :=
  {| _model_id := lit "sentence-transformers/all-MiniLM-L6-v2";
     _device := lit "cpu";
     _max_input_length := 384;
     _token_limit := 256;
     _tokenizer := word_tokenizer;
     _model := {| forward := fun _ => Ok [1 # 2; 1 # 4] |} |}.

Definition sample_chunk : ChunkedDocument.t :=
  {| ChunkedDocument.doc_id := lit "article-1";
     ChunkedDocument.chunk_id := lit "0cc175b9c0f1b6a831c399e269772661";
     ChunkedDocument.full_raw_text := lit "breaking news.today";
     ChunkedDocument.text := lit "breaking news";
     ChunkedDocument.metadata := sample_metadata |}.

(** A date parser that knows one date and refuses the rest. *)
Definition march_3 : datetime :=
  {| year := 2024; month := 3; day := 3;
     hour := 0; minute := 0; second := 0 |}.

Definition sample_parser : DateParser :=
  {| parser_parse := fun value =>
       match value with
       | PyStr s =>
           if decide (s = lit "March 3, 2024") then Ok march_3
           else Raise ValueError
       | PyNone => Raise TypeError
       end |}.

(** A splitter for texts shorter than one section. *)
Definition whole_text_splitter : RecursiveCharacterTextSplitter :=
  {| split_text := fun text =>
       match strip text with
       | [] => []
       | c :: section => [c :: section]
       end;
     split_text_short := fun text _ => eq_refl |}.

Definition sample_article : CommonDocument.t :=
  {| CommonDocument.article_id := lit "article-1";
     CommonDocument.title := lit "breaking news";
     CommonDocument.url := news_url;
     CommonDocument.published_at := lit "2024-03-03 00:00:00";
     CommonDocument.source_name := lit "wire";
     CommonDocument.image_url := Some (lit "N/A");
     CommonDocument.description := Some (lit "today");
     CommonDocument.content := Some (lit "N/A") |}.

End Samples.

(** ** Vocabulary of the statements *)

Module Vocabulary.
Import Cleaners Embeddings Models.

(** A plain character: ASCII and not punctuation. *)
Definition plain (c : N) : bool :=
  is_ascii c && negb (ascii_punctuation c).

(** A character that cleaning leaves alone: plain, not an upper-case
    letter, not a line feed. *)
Definition settled (c : N) : bool :=
  plain c && negb ((65 <=? c) && (c <=? 90)) && negb (c =? 10).

(** No two spaces in a row. *)
Fixpoint single_spaced (s : str) : bool :=
  match s with
  | c :: rest =>
      match rest with
      | d :: _ => negb ((c =? 32) && (d =? 32)) && single_spaced rest
      | [] => true
      end
  | [] => true
  end.

(** The text does not start with whitespace. *)
Definition starts_clean (s : str) : Prop :=
  match s with
  | [] => True
  | c :: _ => isspace c = false
  end.

(** The number of tokens the tokenizer makes of the segments. *)
Definition token_count (tokenizer : AutoTokenizer) (segments : list str)
    : nat :=
  fold_right (fun segment n => (length (tokenize tokenizer segment) + n)%nat)
             O segments.

(** The text fits the token budget of the chunker: its words, taken
    together, make no more tokens than the window less the buffer. *)
Definition fits_budget (tokenizer : AutoTokenizer) (text : str) : Prop :=
  (2 < model_max_length tokenizer)%nat
  /\ (token_count tokenizer (split_space text)
      <= model_max_length tokenizer - 2)%nat.

(** The text without its spaces. *)
Definition unspaced (text : str) : str :=
  filter (fun c => c <> 32) text.

(** What the chunker's loop accumulates in [chunk_text] over the
    segments when it never flushes: the segments joined by the
    separator, which is left out as long as no token has been counted. *)
Fixpoint joined (tokenizer : AutoTokenizer) (size : nat) (text : str)
    (segments : list str) : str :=
  match segments with
  | [] => text
  | segment :: rest =>
      joined tokenizer (size + length (tokenize tokenizer segment))
        ((if (0 <? size)%nat then text ++ chunk_separator else text)
         ++ segment)
        rest
  end.

End Vocabulary.

(** ** settings.py *)

Module Settings.
Import Cleaners.

(** A value found in the configuration file or in the environment. A
    key that the file binds to null is not represented. *)
Inductive value : Type :=
| Str (s : str)
| Int (z : Z).

#[global] Instance value_eq_dec : EqDecision value.
Proof. solve_decision. Defined.

(** [bool(v)] *)
Definition value_truthy (v : value) : bool :=
  match v with
  | Str s => truthy s
  | Int z => negb (z =? 0)%Z
  end.

(** [str.upper] on a string that has a non-ASCII character. *)
Class UnicodeUpper : Type := {
  unicode_upper : str -> str
}.

Definition ascii_upper (c : N) : N :=
  if (97 <=? c) && (c <=? 122) then c - 32 else c.

(** [s.upper()] *)
Definition upper `{UnicodeUpper} (s : str) : str :=
  if forallb is_ascii s then map ascii_upper s else unicode_upper s.

(** [os.getenv(name, default)] over the environment [environ]. *)
Definition getenv (environ : gmap (list N) (list N)) (name : str)
    (default : option value) : option value :=
  match environ !! name with
  | Some v => Some (Str v)
  | None => default
  end.

Record AppConfig : Type := {
  config : gmap (list N) value
}.

(** [AppConfig(config_path)]: [path_exists] is [os.path.exists] and
    [load] is [OmegaConf.load], which may raise. *)
Definition init (path_exists : str -> bool)
    (load : str -> result (gmap (list N) value))
    (config_path : option str) : result AppConfig :=
  match config_path with
  | Some path =>
      if truthy path && path_exists path
      then let! loaded := load path in Ok {| config := loaded |}
      else Ok {| config := ∅ |}
  | None => Ok {| config := ∅ |}
  end.

(** [AppConfig.get(key, default)]; [None] is Python's None. *)
Definition get `{UnicodeUpper} (environ : gmap (list N) (list N))
    (self : AppConfig) (key : str) (default : option value) : option value :=
  match environ !! upper key with
  | Some v => Some (Str v)
  | None =>
      match config self !! key with
      | Some v => Some v
      | None => default
      end
  end.

(** An upper-casing that knows ASCII only. *)
Definition ascii_upper_only : UnicodeUpper :=
  {| unicode_upper := fun s => s |}.

End Settings.

(** ** embeddings.py: SingletonMeta *)

Module Singleton.

(** [SingletonMeta.__call__] as one caller at a time sees it: the
    registry [_instances], shared by all the classes, is looked up under
    the class; the class's own constructor runs only when nothing is
    registered, and what it raises leaves the registry as it was. The
    lock plays no part in a sequential run. *)
Definition call {I A : Type} (_instances : gmap (list N) I) (cls : str)
    (construct : A -> result I) (args : A)
    : result I * gmap (list N) I :=
  match _instances !! cls with
  | Some instance => (Ok instance, _instances)
  | None =>
      match construct args with
      | Ok instance => (Ok instance, <[cls := instance]> _instances)
      | Raise e => (Raise e, _instances)
      end
  end.

End Singleton.

(** ** qdrant.py: QdrantVectorOutput.build_qdrant_client *)

Module Output.
Import Settings.

(** The URL and the API key the client is built with, or [KeyError]. *)
Definition build_qdrant_client `{UnicodeUpper}
    (environ : gmap (list N) (list N)) (config : AppConfig)
    : result (value * value) :=
  let url :=
    getenv environ (lit "QDRANT_URL")
      (get environ config (lit "QDRANT_URL") None) in
  let api_key :=
    getenv environ (lit "QDRANT_API_KEY")
      (get environ config (lit "QDRANT_API_KEY") None) in
  match url, api_key with
  | Some u, Some k =>
      if negb (value_truthy u) || negb (value_truthy k)
      then Raise KeyError
      else Ok (u, k)
  | _, _ => Raise KeyError
  end.

(** *** QdrantVectorOutput.__init__ *)

Inductive Distance : Type := COSINE | EUCLID | DOT.

Record VectorParams : Type := {
  size : option value;
  distance : Distance
}.

(** The part of the client that manages collections: [connect url
    api_key] is the constructor of the client; the name and the size are
    passed as they were resolved, a value or None. *)
Class QdrantAdmin (C : Type) : Type := {
  connect : value -> value -> C;
  get_collection : C -> option value -> result VectorParams;
  create_collection : C -> option value -> VectorParams -> result C
}.

Record QdrantVectorOutput (C : Type) : Type := {
  _vector_size : option value;
  _collection_name : option value;
  client : C
}.
Arguments _vector_size {C} _.
Arguments _collection_name {C} _.
Arguments client {C} _.

(** [QdrantVectorOutput(config, vector_size, collection_name, client)] *)
Definition init `{UnicodeUpper} {C : Type} `{QdrantAdmin C}
    (environ : gmap (list N) (list N)) (config : AppConfig)
    (vector_size : option Z) (collection_name : option str)
    (given_client : option C) : result (QdrantVectorOutput C) :=
  let vector_size :=
    match vector_size with
    | Some n =>
        if (n =? 0)%Z
        then get environ config (lit "EMBEDDING_MODEL_MAX_INPUT_LENGTH")
               (Some (Int 384))
        else Some (Int n)
    | None =>
        get environ config (lit "EMBEDDING_MODEL_MAX_INPUT_LENGTH")
          (Some (Int 384))
    end in
  let collection_name :=
    match collection_name with
    | Some name =>
        if truthy name then Some (Str name)
        else get environ config (lit "VECTOR_DB_OUTPUT_COLLECTION_NAME") None
    | None => get environ config (lit "VECTOR_DB_OUTPUT_COLLECTION_NAME") None
    end in
  let! client :=
    match given_client with
    | Some c => Ok c
    | None =>
        let! credentials := build_qdrant_client environ config in
        Ok (connect (fst credentials) (snd credentials))
    end in
  let! client :=
    match get_collection client collection_name with
    | Ok _ => Ok client
    | Raise UnexpectedResponse
    | Raise ValueError =>
        create_collection client collection_name
          {| size := vector_size; distance := COSINE |}
    | Raise e => Raise e
    end in
  Ok {| _vector_size := vector_size;
        _collection_name := collection_name;
        client := client |}.

(** flow.py: [_build_output(model, config)] *)
Definition _build_output `{UnicodeUpper} {C : Type} `{QdrantAdmin C}
    (environ : gmap (list N) (list N)) (config : AppConfig)
    (model : Embeddings.TextEmbedder) : result (QdrantVectorOutput C) :=
  init environ config
    (Some (Z.of_nat (Embeddings.max_input_length model))) None None.

#[global] Instance value_countable : Countable value :=
  inj_countable'
    (fun v => match v with Str s => inl s | Int z => inr z end)
    (fun x => match x with inl s => Str s | inr z => Int z end)
    (fun v => match v with Str _ => eq_refl | Int _ => eq_refl end).

(** Modelled from the spec: the collections of the vector store
    collaborator, by name. Reading a collection that is not there
    raises; creating one records its parameters. *)
Record collections : Type := {
  by_name : gmap (option value) VectorParams
}.

#[global] Instance collections_admin : QdrantAdmin collections := {
  connect _ _ := {| by_name := ∅ |};
  get_collection store name :=
    match by_name store !! name with
    | Some params => Ok params
    | None => Raise ValueError
    end;
  create_collection store name params :=
    Ok {| by_name := <[name := params]> (by_name store) |}
}.

End Output.

(** ** news_loader.py: the two fetchers *)

Module Fetchers.
Import Cleaners Models.

(** A field of a JSON item: the key is left out, or given with null
    ([None]) or with a string. *)
Abbreviation field := (CommonDocument.arg (option str)).

(** A required [str] field. *)
Definition required (f : field) : result str :=
  match f with
  | CommonDocument.Given (Some s) => Ok s
  | _ => Raise ValidationError
  end.

(** An [Optional[str]] field that has no default: the key must be there. *)
Definition required_optional (f : field) : result (option str) :=
  match f with
  | CommonDocument.Given v => Ok v
  | CommonDocument.Omitted => Raise ValidationError
  end.

(** An [Optional[str]] field whose default is None. *)
Definition optional (f : field) : option str :=
  match f with
  | CommonDocument.Given v => v
  | CommonDocument.Omitted => None
  end.

Record source_item : Type := {
  si_id : field;
  si_name : field
}.

Record newsapi_item : Type := {
  na_source : CommonDocument.arg (option source_item);
  na_author : field;
  na_title : field;
  na_description : field;
  na_url : field;
  na_urlToImage : field;
  na_publishedAt : field;
  na_content : field
}.

(** The constructor of [NewsAPIModel] on the keys of the item: the
    validation of the item against the model. *)
Definition validate_newsapi (item : newsapi_item) : result NewsAPIModel.t :=
  let! source :=
    match na_source item with
    | CommonDocument.Given (Some s) =>
        let! name := required (si_name s) in
        Ok {| DocumentSource.id := optional (si_id s);
              DocumentSource.name := name |}
    | _ => Raise ValidationError
    end in
  let! title := required (na_title item) in
  let! url := required (na_url item) in
  let! publishedAt := required (na_publishedAt item) in
  Ok {| NewsAPIModel.source := source;
        NewsAPIModel.author := optional (na_author item);
        NewsAPIModel.title := title;
        NewsAPIModel.description := optional (na_description item);
        NewsAPIModel.url := url;
        NewsAPIModel.urlToImage := optional (na_urlToImage item);
        NewsAPIModel.publishedAt := publishedAt;
        NewsAPIModel.content := optional (na_content item) |}.

Record newsdata_item : Type := {
  nd_article_id : field;
  nd_title : field;
  nd_link : field;
  nd_description : field;
  nd_pubDate : field;
  nd_source_id : field;
  nd_source_url : field;
  nd_source_icon : field;
  nd_creator : CommonDocument.arg (option (list str));
  nd_image_url : field;
  nd_content : field
}.

Definition validate_newsdata (item : newsdata_item)
    : result NewsDataIOModel.t :=
  let! article_id := required (nd_article_id item) in
  let! title := required (nd_title item) in
  let! link := required (nd_link item) in
  let! description := required_optional (nd_description item) in
  let! pubDate := required (nd_pubDate item) in
  Ok {| NewsDataIOModel.article_id := article_id;
        NewsDataIOModel.title := title;
        NewsDataIOModel.link := link;
        NewsDataIOModel.description := description;
        NewsDataIOModel.pubDate := pubDate;
        NewsDataIOModel.source_id := optional (nd_source_id item);
        NewsDataIOModel.source_url := optional (nd_source_url item);
        NewsDataIOModel.source_icon := optional (nd_source_icon item);
        NewsDataIOModel.creator :=
          match nd_creator item with
          | CommonDocument.Given v => v
          | CommonDocument.Omitted => None
          end;
        NewsDataIOModel.image_url := optional (nd_image_url item);
        NewsDataIOModel.content := optional (nd_content item) |}.

(** The list comprehension over the items: item number [n] is
    converted with [convert n]; the first exception ends it. *)
Fixpoint convert_all {R : Type}
    (convert : nat -> R -> result CommonDocument.t)
    (n : nat) (items : list R) : result (list CommonDocument.t) :=
  match items with
  | [] => Ok []
  | item :: rest =>
      let! doc := convert n item in
      let! docs := convert_all convert (S n) rest in
      Ok (doc :: docs)
  end.

(** [fetch_from_newsapi]: [response] is what the call to the API gave,
    with the list under its key [articles] when the key is there;
    [uuid4 n] is the identifier drawn for document number [n]. *)
Definition fetch_from_newsapi `{UnicodeData} `{DateParser}
    (load_time : datetime) (uuid4 : nat -> str)
    (response : result (option (list newsapi_item)))
    : list CommonDocument.t :=
  match response with
  | Raise _ => []
  | Ok found =>
      let articles := match found with Some l => l | None => [] end in
      match convert_all
              (fun n item =>
                 let! model := validate_newsapi item in
                 NewsAPIModel.to_common load_time (uuid4 n) model)
              O articles with
      | Ok docs => docs
      | Raise _ => []
      end
  end.

(** [fetch_from_newsdataapi], on the list under the key [results]. *)
Definition fetch_from_newsdataapi `{UnicodeData} `{DateParser}
    (load_time : datetime) (uuid4 : nat -> str)
    (response : result (option (list newsdata_item)))
    : list CommonDocument.t :=
  match response with
  | Raise _ => []
  | Ok found =>
      let articles := match found with Some l => l | None => [] end in
      match convert_all
              (fun n item =>
                 let! model := validate_newsdata item in
                 NewsDataIOModel.to_common load_time (uuid4 n) model)
              O articles with
      | Ok docs => docs
      | Raise _ => []
      end
  end.

End Fetchers.

(** ** frontend: qdrant_search.py and ui.py *)

Module Frontend.
Import Embeddings.

(** A hit of the vector search. *)
Record ScoredPoint : Type := {
  score : float;
  payload : gmap (list N) pyval
}.

(** [client.search(collection_name, query_vector, limit,
    with_payload=True)]: the hits, best first, or what the call raises. *)
Class SearchClient (C : Type) : Type := {
  search : C -> str -> list float -> nat -> result (list ScoredPoint)
}.

(** One entry of the list that [query_index] returns, a dict with the
    keys score, title, image_url, date and url. *)
Record entry : Type := {
  e_score : float;
  e_title : pyval;
  e_image_url : pyval;
  e_date : pyval;
  e_url : pyval
}.

(** [payload.get(key)] *)
Definition payload_get (p : gmap (list N) pyval) (key : str) : pyval :=
  match p !! key with
  | Some v => v
  | None => PyNone
  end.

Definition entry_of (result : ScoredPoint) : entry :=
  {| e_score := score result;
     e_title := payload_get (payload result) (lit "title");
     e_image_url := payload_get (payload result) (lit "image_url");
     e_date := payload_get (payload result) (lit "published_at");
     e_url := payload_get (payload result) (lit "url") |}.

Record QdrantSearchClass (C : Type) : Type := {
  client : C;
  collection_name : str
}.
Arguments client {C} _.
Arguments collection_name {C} _.

Definition query_index {C : Type} `{SearchClient C}
    (self : QdrantSearchClass C) (query_text : str)
    (embedder : TextEmbedder) (top_k : nat) : result (list entry) :=
  let embeddings := call embedder query_text in
  let! search_result :=
    search (client self) (collection_name self) embeddings top_k in
  Ok (map entry_of search_result).

(** What [display_articles] gives: the cards in the order in which they
    are rendered, or the exception that stops it. *)
Inductive layout (A : Type) : Type :=
| Rendered (cards : list (nat * nat * A))
| ZeroDivisionError
| StreamlitAPIException.
Arguments Rendered {A} cards.
Arguments ZeroDivisionError {A}.
Arguments StreamlitAPIException {A}.

(** [range(n)]: empty when [n] is zero or negative. *)
Definition range (n : Z) : list nat := seq 0 (Z.to_nat n).

(** [st.columns(columns)] on an integer: that many containers when the
    number is positive; the library refuses any other number with its
    own exception. *)
Definition st_columns (columns : Z) : option nat :=
  if (0 <? columns)%Z then Some (Z.to_nat columns) else None.

(** The inner loop of [display_articles] over the columns of one row;
    it breaks at the first index past the last article. A card is the
    row, the column and the article rendered there. The loop runs past
    [st.columns], where the number of columns is positive: it is a
    natural number here, and so is every index. *)
Fixpoint display_row {A : Type} (articles : list A) (columns row : nat)
    (col_idxs : list nat) : list (nat * nat * A) :=
  match col_idxs with
  | [] => []
  | col_idx :: rest =>
      let idx := (row * columns + col_idx)%nat in
      match articles !! idx with
      | None => []
      | Some article =>
          (row, col_idx, article) :: display_row articles columns row rest
      end
  end.

(** The outer loop of [display_articles] over the rows: each row asks
    for its containers first. *)
Fixpoint display_rows {A : Type} (articles : list A) (columns : Z)
    (rows : list nat) : layout A :=
  match rows with
  | [] => Rendered []
  | row :: rest =>
      match st_columns columns with
      | None => StreamlitAPIException
      | Some cols =>
          match display_rows articles columns rest with
          | Rendered cards =>
              Rendered (display_row articles cols row (seq 0 cols) ++ cards)
          | raised => raised
          end
      end
  end.

(** [ArticleRenderer.display_articles(articles, columns)] for any
    integer [columns]; the division is Python's floor division, which
    [Z.div] is. *)
Definition display_articles {A : Type} (articles : list A) (columns : Z)
    : layout A :=
  if (columns =? 0)%Z then ZeroDivisionError
  else
    let n_rows :=
      ((Z.of_nat (length articles) + columns - 1) / columns)%Z in
    display_rows articles columns (range n_rows).

(** [NewsSearchApp._on_search]: [question] is what the session state
    holds under its key, [construct] what constructing the embedder
    gives. Nothing is done without a question; otherwise the cleaned
    question is embedded and searched, ten hits at most, and the
    articles are laid out on two columns. *)
Definition _on_search `{Cleaners.UnicodeData} {C : Type} `{SearchClient C}
    (qdrant_search : QdrantSearchClass C) (question : option str)
    (construct : result TextEmbedder) : option (result (layout entry)) :=
  match question with
  | Some q =>
      if truthy q then
        Some (let clean_question := Cleaners.clean_full q in
              let! embedder := construct in
              let! articles :=
                query_index qdrant_search clean_question embedder 10 in
              Ok (display_articles articles 2%Z))
      else None
  | None => None
  end.

End Frontend.

(** ** More sample data *)

Module MoreSamples.
Import Cleaners Embeddings Models Qdrant Flow Samples Settings Fetchers.

Definition sample_refined : RefinedDocument.t :=
  {| RefinedDocument.doc_id := lit "article-1";
     RefinedDocument.full_text := lit "breaking news.today";
     RefinedDocument.metadata := sample_metadata |}.

Definition other_refined : RefinedDocument.t :=
  {| RefinedDocument.doc_id := lit "article-2";
     RefinedDocument.full_text := lit "breaking news.today";
     RefinedDocument.metadata := sample_metadata |}.

(** A digest that folds the code points, standing for MD5. *)
Definition sample_hashlib : Hashlib :=
  {| md5_hexdigest := fun chunk =>
       [48 + fold_right (fun c h => (c + 3 * h) mod 10) 0 chunk] |}.

Definition sample_newsapi_item : newsapi_item :=
  {| na_source :=
       CommonDocument.Given
         (Some {| si_id := CommonDocument.Given None;
                  si_name := CommonDocument.Given (Some (lit "wire")) |});
     na_author := CommonDocument.Omitted;
     na_title := CommonDocument.Given (Some (lit "Breaking News"));
     na_description := CommonDocument.Given (Some (lit "Today!"));
     na_url := CommonDocument.Given (Some news_url);
     na_urlToImage := CommonDocument.Given None;
     na_publishedAt := CommonDocument.Given (Some (lit "March 3, 2024"));
     na_content := CommonDocument.Omitted |}.

(** The same item without its title. *)
Definition untitled_newsapi_item : newsapi_item :=
  {| na_source := na_source sample_newsapi_item;
     na_author := CommonDocument.Omitted;
     na_title := CommonDocument.Omitted;
     na_description := CommonDocument.Given (Some (lit "Today!"));
     na_url := CommonDocument.Given (Some news_url);
     na_urlToImage := CommonDocument.Given None;
     na_publishedAt := CommonDocument.Given (Some (lit "March 3, 2024"));
     na_content := CommonDocument.Omitted |}.

Definition sample_newsapi_model : NewsAPIModel.t :=
  {| NewsAPIModel.source :=
       {| DocumentSource.id := None; DocumentSource.name := lit "wire" |};
     NewsAPIModel.author := None;
     NewsAPIModel.title := lit "Breaking News";
     NewsAPIModel.description := Some (lit "Today!");
     NewsAPIModel.url := news_url;
     NewsAPIModel.urlToImage := None;
     NewsAPIModel.publishedAt := lit "March 3, 2024";
     NewsAPIModel.content := None |}.

Definition sample_uuid4 (n : nat) : str :=
  lit "7c9e6679-7425-40de-944b-e07fc1f90ae" ++ [48 + N.of_nat n mod 10].

(** A payload that leaves the description out. *)
Definition bare_kwargs : CommonDocument.kwargs :=
  {| CommonDocument.kw_article_id := CommonDocument.Omitted;
     CommonDocument.kw_title := CommonDocument.Given (Some (lit "Breaking"));
     CommonDocument.kw_url := CommonDocument.Given (Some news_url);
     CommonDocument.kw_published_at := CommonDocument.Omitted;
     CommonDocument.kw_source_name := CommonDocument.Omitted;
     CommonDocument.kw_image_url := CommonDocument.Omitted;
     CommonDocument.kw_description := CommonDocument.Omitted;
     CommonDocument.kw_content := CommonDocument.Omitted |}.

(** An environment with an empty URL variable, and a configuration file
    that has the URL and the key. *)
Definition blank_url_environ : gmap (list N) (list N) :=
  <[lit "QDRANT_URL" := []]> ∅.

Definition file_config : AppConfig :=
  {| config :=
       <[lit "QDRANT_URL" := Str (lit "https://db.example")]>
       (<[lit "QDRANT_API_KEY" := Str (lit "secret")]> ∅) |}.

(** A configuration file that also names the collection. *)
Definition named_config : AppConfig :=
  {| config :=
       <[lit "VECTOR_DB_OUTPUT_COLLECTION_NAME" := Str (lit "news")]>
       (config file_config) |}.

Definition second_article : CommonDocument.t :=
  {| CommonDocument.article_id := lit "article-2";
     CommonDocument.title := lit "other news";
     CommonDocument.url := news_url;
     CommonDocument.published_at := lit "2024-03-03 00:00:00";
     CommonDocument.source_name := lit "desk";
     CommonDocument.image_url := Some (lit "N/A");
     CommonDocument.description := Some (lit "later");
     CommonDocument.content := Some (lit "N/A") |}.

(** A document whose metadata has no URL. *)
Definition keyless_doc : EmbeddedDocument.t :=
  {| EmbeddedDocument.doc_id := lit "article-3";
     EmbeddedDocument.chunk_id := lit "4a8a08f09d37b73795649038408b5f33";
     EmbeddedDocument.full_raw_text := lit "c";
     EmbeddedDocument.text := lit "c";
     EmbeddedDocument.embeddings := [1 # 2];
     EmbeddedDocument.metadata := ∅ |}.

(** A client whose upsert is refused, on a store that finds nothing. *)
Inductive read_only : Type := ReadOnly.

#[global] Instance read_only_client : QdrantClient read_only := {
  query_points _ _ _ _ _ := Ok [];
  upsert _ _ _ := Raise UnexpectedResponse
}.

Definition read_only_sink : QdrantVectorSink read_only :=
  {| _client := ReadOnly; _collection_name := lit "news" |}.

(** The metadata of the sample article once refined, a hit that
    carries it, and a search client that answers with given hits. *)
Definition sample_article_metadata : gmap (list N) pyval :=
  <[lit "title" := PyStr (lit "breaking news")]>
  (<[lit "url" := PyStr news_url]>
  (<[lit "published_at" := PyStr (lit "2024-03-03 00:00:00")]>
  (<[lit "source_name" := PyStr (lit "wire")]>
  (<[lit "image_url" := PyStr (lit "N/A")]> ∅)))).

Definition sample_hit : Frontend.ScoredPoint :=
  {| Frontend.score := 9 # 10; Frontend.payload := sample_article_metadata |}.

Inductive canned : Type := Canned (hits : list Frontend.ScoredPoint).

#[global] Instance canned_client : Frontend.SearchClient canned := {
  Frontend.search c _ _ top_k :=
    match c with
    | Canned hits => Ok (take top_k hits)
    end
}.

Definition sample_search : Frontend.QdrantSearchClass canned :=
  {| Frontend.client := Canned [sample_hit];
     Frontend.collection_name := lit "news" |}.

End MoreSamples.

(** ** More vocabulary *)

Module MoreVocabulary.
Import Cleaners Embeddings Models Qdrant.

(** The document is to be staged: its URL is not found. *)
Definition unknown_url {C : Type} `{QdrantClient C}
    (self : QdrantVectorSink C) (doc : EmbeddedDocument.t) : bool :=
  match EmbeddedDocument.metadata doc !! lit "url" with
  | Some article_url => negb (article_exists self article_url)
  | None => false
  end.

(** Every whitespace character of the text is a space, and no two of
    them are next to each other. *)
Fixpoint squeezed (s : str) : bool :=
  match s with
  | c :: rest =>
      (negb (isspace c) || (c =? 32))
      && match rest with
         | d :: _ => negb (isspace c && isspace d)
         | [] => true
         end
      && squeezed rest
  | [] => true
  end.

End MoreVocabulary.

(** * Properties *)

Import Cleaners Embeddings Models NewsLoader Qdrant Flow Samples Vocabulary.

(** ** The sink *)

Section SinkFacts.
Context {C : Type} `{QdrantClient C}.

(** The points staged before a document is met are kept as they are:
    the loop only ever appends to them. *)
Lemma stage_app (self : QdrantVectorSink C)
    (documents : list EmbeddedDocument.t) (points : list PointStruct) :
  stage self documents points
  = let! staged := stage self documents [] in Ok (points ++ staged).
Proof.
  revert points.
  induction documents as [|doc rest IH]; intros points; simpl.
  - by rewrite app_nil_r.
  - destruct (EmbeddedDocument.metadata doc !! lit "url") as [u|]; [|done].
    destruct (article_exists self u); simpl.
    + apply IH.
    + rewrite (IH (points ++ [point_of doc])), (IH [point_of doc]).
      destruct (stage self rest []) as [staged|e]; simpl; [|done].
      by rewrite <- app_assoc.
Qed.

(** Every staged point is keyed by the [doc_id] of its document. *)
Lemma stage_point_ids (self : QdrantVectorSink C)
    (documents : list EmbeddedDocument.t) (staged : list PointStruct) :
  stage self documents [] = Ok staged ->
  Forall (fun p => exists doc, In doc documents /\ p = point_of doc
                               /\ id p = EmbeddedDocument.doc_id doc) staged.
Proof.
  revert staged.
  induction documents as [|doc rest IH]; intros staged; simpl.
  - intros [= <-]. constructor.
  - destruct (EmbeddedDocument.metadata doc !! lit "url") as [u|]; [|done].
    destruct (article_exists self u); simpl.
    + intros Hs. eapply Forall_impl; [apply (IH _ Hs)|].
      intros p (d & Hd & Hp & Hid). exists d. auto.
    + rewrite stage_app.
      destruct (stage self rest []) as [more|e] eqn:Hs; simpl; [|done].
      intros [= <-]. constructor.
      * exists doc. auto.
      * eapply Forall_impl; [apply (IH _ eq_refl)|].
        intros p (d & Hd & Hp & Hid). exists d. auto.
Qed.

(** [write_batch] raises only what the staging loop raises. *)
Lemma write_batch_ok (self : QdrantVectorSink C)
    (documents : list EmbeddedDocument.t) (staged : list PointStruct) :
  stage self documents [] = Ok staged ->
  exists self', write_batch self documents = Ok self'.
Proof.
  intros Hs. unfold write_batch. rewrite Hs. simpl.
  destruct staged as [|p ps]; [by eexists|].
  destruct (upsert _ _ _); by eexists.
Qed.

End SinkFacts.

(** C8. When the existence query raises, whatever the exception,
    [article_exists] answers False; the document is staged like one that
    was not found, and the sink returns normally: the exception stays
    inside [article_exists]. *)
Theorem article_exists_fails_open {C : Type} `{QdrantClient C}
    (self : QdrantVectorSink C) (article_url : pyval) (e : exception) :
  query_points (_client self) (_collection_name self) (lit "url")
    article_url 1 = Raise e ->
  article_exists self article_url = false
  /\ (forall (doc : EmbeddedDocument.t) (rest : list EmbeddedDocument.t)
             (points : list PointStruct),
        EmbeddedDocument.metadata doc !! lit "url" = Some article_url ->
        stage self (doc :: rest) points
        = stage self rest (points ++ [point_of doc]))
  /\ (forall doc : EmbeddedDocument.t,
        EmbeddedDocument.metadata doc !! lit "url" = Some article_url ->
        stage self [doc] [] = Ok [point_of doc]
        /\ exists self', write self doc = Ok self').
Proof.
  intros Hq.
  assert (Hex : article_exists self article_url = false).
  { unfold article_exists. by rewrite Hq. }
  split; [exact Hex|]. split.
  - intros doc rest points Hurl. simpl. by rewrite Hurl, Hex.
  - intros doc Hurl.
    assert (Hs : stage self [doc] [] = Ok [point_of doc]).
    { simpl. by rewrite Hurl, Hex. }
    split; [exact Hs|]. unfold write. eapply write_batch_ok, Hs.
Qed.

Lemma article_exists_fails_open_witness :
  article_exists unreachable_sink (PyStr news_url) = false
  /\ stage unreachable_sink [chunk_a] [] = Ok [point_of chunk_a]
  /\ exists self', write unreachable_sink chunk_a = Ok self'.
Proof.
  destruct (article_exists_fails_open unreachable_sink (PyStr news_url)
              ResponseHandlingException) as (Hex & _ & Hdoc);
    [reflexivity|].
  split; [exact Hex|].
  apply (Hdoc chunk_a). vm_compute. reflexivity.
Defined.

(** The existence query of the store finds nothing when no stored point
    carries the value. *)
Lemma store_match_none (store : gmap (list N) PointStruct)
    (key : str) (value : pyval) :
  (forall (k : str) (p : PointStruct),
     store !! k = Some p -> payload p !! key <> Some value) ->
  store_match store key value = [].
Proof.
  intros Hnone. unfold store_match.
  assert (Hall : Forall (fun p => payload p !! key <> Some value)
                        (map snd (map_to_list store))).
  { apply Forall_forall. intros p Hp.
    apply list_elem_of_In in Hp. apply in_map_iff in Hp.
    destruct Hp as ([k q] & <- & Hkq).
    apply list_elem_of_In, elem_of_map_to_list in Hkq.
    by apply (Hnone k). }
  induction Hall as [|p l Hp _ IH]; [done|].
  by rewrite filter_cons_False.
Qed.

Lemma store_article_missing (store : gmap (list N) PointStruct)
    (name url : str) :
  (forall (k : str) (p : PointStruct),
     store !! k = Some p -> payload p !! lit "url" <> Some (PyStr url)) ->
  article_exists {| _client := store; _collection_name := name |} (PyStr url)
  = false.
Proof.
  intros Hnone. unfold article_exists. simpl.
  by rewrite (store_match_none _ _ _ Hnone).
Qed.

(** C9. The duplicate check of [write_batch] looks at the store only:
    when no stored point has the URL, two documents of one batch that
    share it are both staged, whatever has been staged before them, and
    both go into the single bulk upsert. *)
Theorem in_batch_duplicates_are_both_upserted
    (store : gmap (list N) PointStruct) (name url : str)
    (doc1 doc2 : EmbeddedDocument.t) :
  EmbeddedDocument.metadata doc1 !! lit "url" = Some (PyStr url) ->
  EmbeddedDocument.metadata doc2 !! lit "url" = Some (PyStr url) ->
  (forall (k : str) (p : PointStruct),
     store !! k = Some p -> payload p !! lit "url" <> Some (PyStr url)) ->
  let sink := {| _client := store; _collection_name := name |} in
  (forall points : list PointStruct,
     stage sink [doc1; doc2] points
     = Ok (points ++ [point_of doc1; point_of doc2]))
  /\ write_batch sink [doc1; doc2]
     = Ok {| _client := store_upsert store [point_of doc1; point_of doc2];
             _collection_name := name |}.
Proof.
  intros H1 H2 Hnone sink.
  pose proof (store_article_missing store name url Hnone) as Hex.
  assert (Hstage : forall points,
             stage sink [doc1; doc2] points
             = Ok (points ++ [point_of doc1; point_of doc2])).
  { intros points. simpl. rewrite H1, H2. subst sink. rewrite Hex. simpl.
    by rewrite <- app_assoc. }
  split; [exact Hstage|].
  unfold write_batch. by rewrite (Hstage []).
Qed.

Lemma in_batch_duplicates_are_both_upserted_witness :
  stage empty_sink [chunk_a; chunk_b] []
  = Ok [point_of chunk_a; point_of chunk_b]
  /\ write_batch empty_sink [chunk_a; chunk_b]
     = Ok {| _client := store_upsert ∅ [point_of chunk_a; point_of chunk_b];
             _collection_name := lit "news" |}.
Proof.
  destruct (in_batch_duplicates_are_both_upserted
              ∅ (lit "news") news_url chunk_a chunk_b) as [Hs Hw].
  - vm_compute. reflexivity.
  - vm_compute. reflexivity.
  - intros k p Hk. rewrite lookup_empty in Hk. discriminate.
  - split; [exact (Hs [])|exact Hw].
Defined.

(** C1. Evaluation of [write_batch] on two chunks of one article, into
    an empty collection: the staged points carry the article's [doc_id]
    as identity, not the [chunk_id] that [to_payload] puts first, so the
    two points share one identity and the store keeps a single point. *)
Theorem write_batch_keys_points_by_doc_id :
  EmbeddedDocument.chunk_id chunk_a <> EmbeddedDocument.chunk_id chunk_b
  /\ stage empty_sink [chunk_a; chunk_b] []
     = Ok [point_of chunk_a; point_of chunk_b]
  /\ id (point_of chunk_a) = EmbeddedDocument.doc_id chunk_a
  /\ id (point_of chunk_a) <> fst (fst (EmbeddedDocument.to_payload chunk_a))
  /\ id (point_of chunk_a) = id (point_of chunk_b)
  /\ exists sink',
       write_batch empty_sink [chunk_a; chunk_b] = Ok sink'
       /\ map_to_list (_client sink')
          = [(lit "article-1", point_of chunk_b)].
Proof.
  repeat split; try (vm_compute; congruence).
  eexists. split; [reflexivity|]. vm_compute. reflexivity.
Qed.

(** ** The polling source *)

(** A poll leaves the partition as it was. *)
Lemma next_batch_keeps_partition (self : NewsStreamSource.t) (now : timestamp) :
  snd (NewsStreamSource.next_batch self now) = self.
Proof.
  unfold NewsStreamSource.next_batch.
  by destruct (NewsStreamSource.fetch_func self now).
Qed.

Lemma poll_all_keeps_partition (self : NewsStreamSource.t)
    (instants : list timestamp) :
  NewsStreamSource.poll_all self instants = self.
Proof.
  unfold NewsStreamSource.poll_all.
  induction instants as [|now rest IH]; simpl; [done|].
  by rewrite next_batch_keeps_partition.
Qed.

(** C4. Evaluation of the source: a partition built at instant 1000
    with no resume state, polled at 1005 with a fetch that returns one
    article, emits the batch and still snapshots 1000; and in general
    the snapshot after any polls is the one taken at construction. *)
Theorem snapshot_is_never_advanced :
  (let part := NewsStreamSource.init (fun _ => [sample_article]) None 1000 in
   NewsStreamSource.next_batch part 1005 = ([sample_article], part)
   /\ NewsStreamSource.snapshot (snd (NewsStreamSource.next_batch part 1005))
      = 1000%Z)
  /\ (forall (fetch_func : timestamp -> list CommonDocument.t)
             (resume_state : option timestamp) (now : timestamp)
             (instants : list timestamp),
        NewsStreamSource.snapshot
          (NewsStreamSource.poll_all
             (NewsStreamSource.init fetch_func resume_state now) instants)
        = match resume_state with
          | Some state => state
          | None => now
          end).
Proof.
  split.
  - split; reflexivity.
  - intros fetch_func resume_state now instants.
    by rewrite poll_all_keeps_partition.
Qed.

(** ** The embed step *)

(** C2, the claim at a concrete input: the encoder raises on the text of
    a chunk, the embedder returns the empty list, and the document with
    the empty vector is what the embed step hands to [write_batch], which
    stages it and upserts it. *)
Lemma empty_embedding_reaches_the_sink :
  call broken_embedder (ChunkedDocument.text sample_chunk) = []
  /\ (exists doc,
        embed broken_embedder [sample_chunk] = [doc]
        /\ EmbeddedDocument.embeddings doc = []
        /\ stage empty_sink (embed broken_embedder [sample_chunk]) []
           = Ok [point_of doc]
        /\ vector (point_of doc) = [])
  /\ ~ (forall (model : TextEmbedder) (stream : list ChunkedDocument.t)
               (doc : EmbeddedDocument.t),
          In doc (embed model stream) ->
          EmbeddedDocument.embeddings doc <> []).
Proof.
  split; [reflexivity|]. split.
  - eexists. repeat split; vm_compute; reflexivity.
  - intros Hnever.
    apply (Hnever broken_embedder [sample_chunk]
             (EmbeddedDocument.from_chunked sample_chunk broken_embedder)).
    + left. reflexivity.
    + reflexivity.
Qed.

(** C2, as the code has it: the embed step is one to one and nothing
    after it filters. For every chunked document of the stream, in the
    order of the stream, exactly one document is forwarded: it has the
    identifiers, the texts and the metadata of the chunk and, as its
    vector, whatever the embedder returned for the text of the chunk,
    empty or not. The documents that [write_batch] receives in a run of
    the flow are these, all of them. In particular, a chunk whose text
    embeds to the empty result is forwarded with an empty vector. *)
Theorem embed_forwards_every_chunk
    `{RecursiveCharacterTextSplitter} `{Hashlib}
    {C : Type} `{QdrantClient C}
    (model : TextEmbedder) (stream : list ChunkedDocument.t) :
  Forall2
    (fun chunked_doc doc =>
       doc = EmbeddedDocument.from_chunked chunked_doc model
       /\ EmbeddedDocument.doc_id doc = ChunkedDocument.doc_id chunked_doc
       /\ EmbeddedDocument.chunk_id doc = ChunkedDocument.chunk_id chunked_doc
       /\ EmbeddedDocument.full_raw_text doc
          = ChunkedDocument.full_raw_text chunked_doc
       /\ EmbeddedDocument.text doc = ChunkedDocument.text chunked_doc
       /\ EmbeddedDocument.metadata doc = ChunkedDocument.metadata chunked_doc
       /\ EmbeddedDocument.embeddings doc
          = call model (ChunkedDocument.text chunked_doc))
    stream (embed model stream)
  /\ length (embed model stream) = length stream
  /\ (forall (sink : QdrantVectorSink C) (inp : list CommonDocument.t)
             (refined : list RefinedDocument.t),
        refine inp = Ok refined ->
        chunkenize model refined = Ok stream ->
        run_batch model sink inp = write_batch sink (embed model stream))
  /\ (forall chunked_doc : ChunkedDocument.t,
        In chunked_doc stream ->
        call model (ChunkedDocument.text chunked_doc) = [] ->
        exists doc,
          In doc (embed model stream)
          /\ doc = EmbeddedDocument.from_chunked chunked_doc model
          /\ EmbeddedDocument.chunk_id doc
             = ChunkedDocument.chunk_id chunked_doc
          /\ EmbeddedDocument.embeddings doc = []).
Proof.
  split; [|split; [|split]].
  - unfold embed. induction stream as [|chunked_doc rest IH]; simpl.
    + constructor.
    + constructor; [|exact IH]. repeat split.
  - unfold embed. apply length_map.
  - intros sink inp refined Hrefine Hchunks.
    unfold run_batch. rewrite Hrefine. simpl. rewrite Hchunks. reflexivity.
  - intros chunked_doc Hin Hempty.
    exists (EmbeddedDocument.from_chunked chunked_doc model).
    repeat split.
    + unfold embed.
      apply (in_map (fun c => EmbeddedDocument.from_chunked c model)), Hin.
    + simpl. exact Hempty.
Qed.

Lemma embed_forwards_every_chunk_witness :
  let chunked_doc :=
    {| ChunkedDocument.doc_id := lit "article-1";
       ChunkedDocument.chunk_id :=
         @md5_hexdigest MoreSamples.sample_hashlib
           (lit "breaking news.today");
       ChunkedDocument.full_raw_text := lit "breaking news.today";
       ChunkedDocument.text := lit "breaking news.today";
       ChunkedDocument.metadata :=
         <[lit "title" := PyStr (lit "breaking news")]>
         (<[lit "url" := PyStr news_url]>
         (<[lit "published_at" := PyStr (lit "2024-03-03 00:00:00")]>
         (<[lit "source_name" := PyStr (lit "wire")]>
         (<[lit "image_url" := PyStr (lit "N/A")]> ∅)))) |} in
  @run_batch whole_text_splitter MoreSamples.sample_hashlib _ _
    broken_embedder empty_sink [sample_article]
  = write_batch empty_sink (embed broken_embedder [chunked_doc])
  /\ exists doc,
       In doc (embed broken_embedder [chunked_doc])
       /\ doc = EmbeddedDocument.from_chunked chunked_doc broken_embedder
       /\ EmbeddedDocument.chunk_id doc
          = ChunkedDocument.chunk_id chunked_doc
       /\ EmbeddedDocument.embeddings doc = [].
Proof.
  intros chunked_doc.
  destruct (@embed_forwards_every_chunk
              whole_text_splitter MoreSamples.sample_hashlib
              (gmap (list N) PointStruct) _
              broken_embedder [chunked_doc])
    as (_ & _ & Hrun & Hempty).
  split.
  - apply (Hrun empty_sink [sample_article]
             [{| RefinedDocument.doc_id := lit "article-1";
                 RefinedDocument.full_text := lit "breaking news.today";
                 RefinedDocument.metadata :=
                   ChunkedDocument.metadata chunked_doc |}]);
      reflexivity.
  - apply (Hempty chunked_doc); [left|]; reflexivity.
Defined.

(** The embedder returns the empty list on the empty text, whatever the
    tokenizer and the encoder do. *)
Lemma call_empty_text (model : TextEmbedder) : call model [] = [].
Proof. reflexivity. Qed.

(** ** Field validators *)

(** The URL validator substitutes the placeholder after cleaning, so its
    result is never empty. *)
Lemma clean_url_fields_nonempty (value : option str) :
  CommonDocument.clean_url_fields value <> [].
Proof.
  unfold CommonDocument.clean_url_fields.
  destruct value as [v|]; [|discriminate].
  destruct (truthy v) eqn:Hv.
  - destruct (normalize_whitespace (remove_html_tags v)); discriminate.
  - rewrite Hv. discriminate.
Qed.

(** The text validator substitutes the placeholder for a missing or
    empty value, and only then. *)
Lemma clean_text_fields_placeholder `{UnicodeData} (value : option str) :
  CommonDocument.clean_text_fields value
  = match value with
    | Some (c :: v) => clean_full (c :: v)
    | _ => lit "N/A"
    end.
Proof. by destruct value as [[|c v]|]. Qed.

(** C3. Evaluation of the text validator on a title made of punctuation
    only: the value is not empty, so it is cleaned and no placeholder is
    substituted, and the cleaned title is the empty string, whatever the
    character database; the document built from the record carries it.
    The URL validator on a value that cleans to nothing does substitute
    the placeholder. *)
Theorem clean_text_fields_may_return_empty :
  (forall U : UnicodeData,
     @clean_full U (lit "!!!") = []
     /\ @CommonDocument.clean_text_fields U (Some (lit "!!!")) = [])
  /\ (exists doc,
        @NewsAPIModel.to_common ascii_only sample_parser march_3
          (lit "7c9e6679-7425-40de-944b-e07fc1f90ae7")
          {| NewsAPIModel.source :=
               {| DocumentSource.id := None;
                  DocumentSource.name := lit "wire" |};
             NewsAPIModel.author := None;
             NewsAPIModel.title := lit "!!!";
             NewsAPIModel.description := Some (lit "Hello, World!");
             NewsAPIModel.url := news_url;
             NewsAPIModel.urlToImage := None;
             NewsAPIModel.publishedAt := lit "March 3, 2024";
             NewsAPIModel.content := None |} = Ok doc
        /\ CommonDocument.title doc = []
        /\ CommonDocument.description doc = Some (lit "hello world")
        /\ CommonDocument.content doc = Some (lit "N/A"))
  /\ CommonDocument.clean_url_fields (Some (lit "<b>")) = lit "N/A".
Proof.
  split; [|split].
  - intros U. split; vm_compute; reflexivity.
  - eexists. split; [vm_compute; reflexivity|].
    repeat split; vm_compute; reflexivity.
  - vm_compute. reflexivity.
Qed.

(** C5. The docstring and the log message of the validator promise the
    current timestamp when a date does not parse; the code returns
    [CURRENT_TIMESTAMP], a constant computed once, when the module is
    loaded. Evaluation: the module is loaded at 2024-03-03 00:00:00 and
    a date that does not parse is met five seconds later; the validator
    does not raise and returns the load time, not the time of the
    failure. The date that parses is formatted as the claim says. *)
Theorem clean_date_field_returns_load_time :
  let failure_time :=
    {| year := 2024; month := 3; day := 3;
       hour := 0; minute := 0; second := 5 |} in
  @parser_parse sample_parser (PyStr (lit "2024-13-40")) = Raise ValueError
  /\ @CommonDocument.clean_date_field sample_parser march_3
       (PyStr (lit "2024-13-40")) = Ok (lit "2024-03-03 00:00:00")
  /\ @CommonDocument.clean_date_field sample_parser march_3
       (PyStr (lit "2024-13-40")) = Ok (CURRENT_TIMESTAMP march_3)
  /\ @CommonDocument.clean_date_field sample_parser march_3
       (PyStr (lit "2024-13-40")) <> Ok (strftime failure_time)
  /\ strftime failure_time = lit "2024-03-03 00:00:05"
  /\ @CommonDocument.clean_date_field sample_parser march_3
       (PyStr (lit "March 3, 2024")) = Ok (lit "2024-03-03 00:00:00").
Proof.
  repeat split; vm_compute; congruence.
Qed.

(** What the validator does on each outcome of the parser that it
    handles: when the parser succeeds, or fails with [ValueError] or
    [TypeError], the validator returns a string and does not raise; on
    such a failure the string is [CURRENT_TIMESTAMP]; on success it is
    the parsed date in the format year-month-day hour:minute:second. *)
Lemma clean_date_field_total_on_parse_errors `{DateParser}
    (load_time : datetime) (value : pyval) :
  (forall e, parser_parse value = Raise e -> e = ValueError \/ e = TypeError) ->
  (exists s, CommonDocument.clean_date_field load_time value = Ok s)
  /\ (forall e, parser_parse value = Raise e ->
        CommonDocument.clean_date_field load_time value
        = Ok (CURRENT_TIMESTAMP load_time))
  /\ (forall d, parser_parse value = Ok d ->
        CommonDocument.clean_date_field load_time value = Ok (strftime d))
  /\ (parser_parse value = Ok march_3 ->
        CommonDocument.clean_date_field load_time value
        = Ok (lit "2024-03-03 00:00:00")).
Proof.
  intros Hexn. unfold CommonDocument.clean_date_field.
  destruct (parser_parse value) as [d|e] eqn:Hp.
  - split; [by eexists|]. split; [done|]. split.
    + by intros d' [= <-].
    + by intros [= ->].
  - destruct (Hexn e eq_refl) as [-> | ->];
      (split; [by eexists|]); (split; [done|]); split; done.
Qed.

Lemma clean_date_field_total_on_parse_errors_witness :
  @CommonDocument.clean_date_field sample_parser march_3
    (PyStr (lit "March 3, 2024")) = Ok (lit "2024-03-03 00:00:00")
  /\ @CommonDocument.clean_date_field sample_parser march_3 PyNone
     = Ok (CURRENT_TIMESTAMP march_3).
Proof.
  split.
  - apply (@clean_date_field_total_on_parse_errors sample_parser march_3
             (PyStr (lit "March 3, 2024"))).
    + intros e He. vm_compute in He. discriminate.
    + vm_compute. reflexivity.
  - apply (@clean_date_field_total_on_parse_errors sample_parser march_3
             PyNone) with (e := TypeError).
    + intros e He. vm_compute in He. right. congruence.
    + reflexivity.
Defined.

(** The year is printed as it is, the other fields on two digits. *)
Lemma strftime_short_year :
  strftime {| year := 987; month := 1; day := 2;
              hour := 3; minute := 4; second := 15 |}
  = lit "987-01-02 03:04:15".
Proof. vm_compute. reflexivity. Qed.

(** An exception of another class leaves the validator. *)
Lemma clean_date_field_overflow `{DateParser}
    (load_time : datetime) (value : pyval) :
  parser_parse value = Raise OverflowError ->
  CommonDocument.clean_date_field load_time value = Raise OverflowError.
Proof.
  intros Hp. unfold CommonDocument.clean_date_field. by rewrite Hp.
Qed.

(** ** De-duplication of fetched articles *)

Section RemoveDuplicates.
Implicit Types (seen : gset (list N)) (articles : list CommonDocument.t).

Lemma remove_duplicates_from_app seen unique articles :
  remove_duplicates_from seen unique articles
  = unique ++ remove_duplicates_from seen [] articles.
Proof.
  revert seen unique.
  induction articles as [|a rest IH]; intros seen unique; simpl.
  - by rewrite app_nil_r.
  - destruct (decide (CommonDocument.url a ∈ seen)); [apply IH|].
    rewrite (IH _ (unique ++ [a])), (IH _ [a]).
    by rewrite <- app_assoc.
Qed.

(** What the loop keeps, from a given set of seen URLs. *)
Lemma remove_duplicates_from_spec seen articles :
  let result := remove_duplicates_from seen [] articles in
  sublist result articles
  /\ NoDup (map CommonDocument.url result)
  /\ forall a,
       In a result <->
       exists i, articles !! i = Some a
                 /\ (CommonDocument.url a ∉ seen)
                 /\ forall j b, (j < i)%nat -> articles !! j = Some b ->
                                CommonDocument.url b <> CommonDocument.url a.
Proof.
  revert seen. induction articles as [|a0 rest IH]; intros seen; simpl.
  - split; [constructor|]. split; [constructor|].
    intros a. split; [intros []|]. intros (i & Hi & _). by destruct i.
  - destruct (decide (CommonDocument.url a0 ∈ seen)) as [Hseen|Hnew].
    + destruct (IH seen) as (Hsub & Hnd & Hin).
      split; [by apply sublist_cons|]. split; [exact Hnd|].
      intros a. rewrite Hin. split.
      * intros (i & Hi & Ha & Hearlier). exists (S i).
        split; [exact Hi|]. split; [exact Ha|].
        intros [|j] b Hj Hb; simpl in Hb.
        -- injection Hb as <-. intros Heq. apply Ha. by rewrite <- Heq.
        -- apply (Hearlier j b); [lia|exact Hb].
      * intros ([|i] & Hi & Ha & Hearlier); simpl in Hi.
        -- injection Hi as <-. done.
        -- exists i. split; [exact Hi|]. split; [exact Ha|].
           intros j b Hj Hb. apply (Hearlier (S j) b); [lia|exact Hb].
    + rewrite remove_duplicates_from_app. simpl.
      destruct (IH ({[CommonDocument.url a0]} ∪ seen)) as (Hsub & Hnd & Hin).
      split; [by apply sublist_skip|]. split.
      * apply NoDup_cons. split; [|exact Hnd].
        intros Hmem. apply list_elem_of_In, in_map_iff in Hmem.
        destruct Hmem as (b & Hurl & Hb).
        apply Hin in Hb. destruct Hb as (_ & _ & Hb & _).
        apply Hb. rewrite Hurl. apply elem_of_union. left.
        by apply elem_of_singleton.
      * intros a. split.
        -- intros [<- | Ha].
           ++ exists O. split; [done|]. split; [exact Hnew|]. intros; lia.
           ++ apply Hin in Ha. destruct Ha as (i & Hi & Ha & Hearlier).
              exists (S i). split; [exact Hi|]. split.
              { intros Hs. apply Ha, elem_of_union. by right. }
              intros [|j] b Hj Hb; simpl in Hb.
              ** injection Hb as <-. intros Heq. apply Ha, elem_of_union.
                 left. by apply elem_of_singleton.
              ** apply (Hearlier j b); [lia|exact Hb].
        -- intros ([|i] & Hi & Ha & Hearlier); simpl in Hi.
           ++ injection Hi as <-. by left.
           ++ right. apply Hin. exists i. split; [exact Hi|]. split.
              ** assert (CommonDocument.url a0 <> CommonDocument.url a)
                   by (apply (Hearlier O a0); [lia|done]).
                 intros Hs. apply elem_of_union in Hs.
                 destruct Hs as [Hs|Hs]; [|done].
                 by apply elem_of_singleton in Hs.
              ** intros j b Hj Hb. apply (Hearlier (S j) b); [lia|exact Hb].
Qed.

(** The article met last is kept exactly when its URL is new. *)
Lemma remove_duplicates_from_snoc seen articles (a : CommonDocument.t) :
  remove_duplicates_from seen [] (articles ++ [a])
  = remove_duplicates_from seen [] articles
    ++ (if decide (CommonDocument.url a ∈ seen
                   \/ CommonDocument.url a ∈ map CommonDocument.url articles)
        then [] else [a]).
Proof.
  revert seen. induction articles as [|a0 rest IH]; intros seen; simpl.
  - destruct (decide (CommonDocument.url a ∈ seen)) as [Hs|Hs];
      destruct (decide _) as [Hd|Hd]; try done.
    + exfalso. apply Hd. by left.
    + exfalso. destruct Hd as [Hd|Hd]; [done|]. by apply elem_of_nil in Hd.
  - destruct (decide (CommonDocument.url a0 ∈ seen)) as [Hs|Hs].
    + rewrite IH. f_equal.
      destruct (decide _) as [Hd|Hd]; destruct (decide _) as [Hd'|Hd'];
        try done; exfalso.
      * apply Hd'. destruct Hd as [Hd|Hd]; [by left|].
        right. by apply elem_of_cons; right.
      * apply Hd. destruct Hd' as [Hd'|Hd']; [by left|].
        apply elem_of_cons in Hd'. destruct Hd' as [Hd'|Hd']; [|by right].
        left. by rewrite Hd'.
    + rewrite (remove_duplicates_from_app _ [a0]).
      rewrite (remove_duplicates_from_app _ [a0] rest).
      rewrite IH. simpl. do 2 f_equal.
      destruct (decide _) as [Hd|Hd]; destruct (decide _) as [Hd'|Hd'];
        try done; exfalso.
      * apply Hd'. destruct Hd as [Hd|Hd];
          [|by right; apply elem_of_cons; right].
        apply elem_of_union in Hd. destruct Hd as [Hd|Hd]; [|by left].
        right. apply elem_of_cons. left. by apply elem_of_singleton in Hd.
      * apply Hd. destruct Hd' as [Hd'|Hd'].
        -- left. apply elem_of_union. by right.
        -- apply elem_of_cons in Hd'. destruct Hd' as [Hd'|Hd']; [|by right].
           left. apply elem_of_union. left. by apply elem_of_singleton.
Qed.

End RemoveDuplicates.

(** C10. [_remove_duplicates] keeps the first article of each URL, in
    the order of the input: the result is a subsequence of the input in
    which no two articles share a URL, and an article of the input is in
    the result exactly when no earlier article has its URL. *)
Theorem remove_duplicates_keeps_first_occurrences
    (articles : list CommonDocument.t) :
  let result := _remove_duplicates articles in
  NoDup (map CommonDocument.url result)
  /\ sublist result articles
  /\ (forall a, In a result -> In a articles)
  /\ (forall a,
        In a result <->
        exists i, articles !! i = Some a
                  /\ forall j b, (j < i)%nat -> articles !! j = Some b ->
                                 CommonDocument.url b <> CommonDocument.url a)
  /\ (forall (earlier : list CommonDocument.t) (a : CommonDocument.t),
        _remove_duplicates (earlier ++ [a])
        = _remove_duplicates earlier
          ++ (if decide (CommonDocument.url a
                         ∈ map CommonDocument.url earlier)
              then [] else [a])).
Proof.
  unfold _remove_duplicates.
  destruct (remove_duplicates_from_spec ∅ articles) as (Hsub & Hnd & Hin).
  split; [exact Hnd|]. split; [exact Hsub|]. split; [|split].
  - intros a Ha. apply list_elem_of_In.
    eapply elem_of_sublist; [|exact Hsub]. by apply list_elem_of_In.
  - intros a. rewrite Hin. split.
    + intros (i & Hi & _ & He). by exists i.
    + intros (i & Hi & He). exists i. split; [exact Hi|].
      split; [apply not_elem_of_empty|exact He].
  - intros earlier a. rewrite remove_duplicates_from_snoc. f_equal.
    destruct (decide _) as [Hd|Hd]; destruct (decide _) as [Hd'|Hd'];
      try done; exfalso.
    + destruct Hd as [Hd|Hd]; [|done]. by apply elem_of_empty in Hd.
    + apply Hd. by right.
Qed.

(** ** The text cleaner *)

Ltac unbool :=
  repeat rewrite ?Bool.andb_true_iff, ?Bool.orb_true_iff, ?Bool.negb_true_iff,
    ?Bool.andb_false_iff, ?Bool.orb_false_iff, ?Bool.negb_false_iff,
    ?N.leb_le, ?N.leb_gt, ?N.ltb_lt, ?N.ltb_ge, ?N.eqb_eq, ?N.eqb_neq in *.

Section Strip.

Lemma lstrip_suffix (s : str) : exists pre, s = pre ++ lstrip s.
Proof.
  induction s as [|c rest [pre IH]]; simpl.
  - by exists [].
  - destruct (isspace c).
    + exists (c :: pre). simpl. by f_equal.
    + by exists [].
Qed.

Lemma rstrip_prefix (s : str) : exists post, s = rstrip s ++ post.
Proof.
  unfold rstrip. destruct (lstrip_suffix (rev s)) as [pre Hpre].
  exists (rev pre).
  rewrite <- rev_app_distr, <- Hpre. by rewrite rev_involutive.
Qed.

Lemma lstrip_starts_clean (s : str) : starts_clean (lstrip s).
Proof.
  induction s as [|c rest IH]; simpl; [done|].
  by destruct (isspace c) eqn:Hc.
Qed.

Lemma lstrip_fixed (s : str) : starts_clean s -> lstrip s = s.
Proof. destruct s as [|c rest]; simpl; [done|]. by intros ->. Qed.

Lemma rstrip_fixed (s : str) : starts_clean (rev s) -> rstrip s = s.
Proof.
  intros Hs. unfold rstrip. rewrite (lstrip_fixed _ Hs).
  apply rev_involutive.
Qed.

Lemma starts_clean_prefix (s post : str) :
  starts_clean (s ++ post) -> starts_clean s.
Proof. by destruct s. Qed.

Lemma strip_starts_clean (s : str) :
  starts_clean (strip s) /\ starts_clean (rev (strip s)).
Proof.
  unfold strip. split.
  - destruct (rstrip_prefix (lstrip s)) as [post Hpost].
    apply (starts_clean_prefix _ post). rewrite <- Hpost.
    apply lstrip_starts_clean.
  - unfold rstrip. rewrite rev_involutive. apply lstrip_starts_clean.
Qed.

Lemma strip_fixed (s : str) :
  starts_clean s -> starts_clean (rev s) -> strip s = s.
Proof.
  intros Hl Hr. unfold strip. rewrite (lstrip_fixed _ Hl).
  by apply rstrip_fixed.
Qed.

Lemma strip_idempotent (s : str) : strip (strip s) = strip s.
Proof. destruct (strip_starts_clean s). by apply strip_fixed. Qed.

Lemma lstrip_Forall (P : N -> Prop) (s : str) :
  Forall P s -> Forall P (lstrip s).
Proof.
  induction 1 as [|c rest Hc Hrest IH]; simpl; [constructor|].
  destruct (isspace c); [exact IH|by constructor].
Qed.

Lemma strip_Forall (P : N -> Prop) (s : str) :
  Forall P s -> Forall P (strip s).
Proof.
  intros Hs. unfold strip, rstrip.
  apply Forall_rev, lstrip_Forall, Forall_rev, lstrip_Forall, Hs.
Qed.

End Strip.

Section CollapseSpaces.

Lemma collapse_spaces_cons (c d : N) (rest : str) :
  collapse_spaces (c :: d :: rest)
  = if (c =? 32) && (d =? 32) then collapse_spaces (d :: rest)
    else c :: collapse_spaces (d :: rest).
Proof. simpl. by destruct (c =? 32), (d =? 32). Qed.

Lemma single_spaced_cons (c d : N) (rest : str) :
  single_spaced (c :: d :: rest)
  = negb ((c =? 32) && (d =? 32)) && single_spaced (d :: rest).
Proof. reflexivity. Qed.

Lemma collapse_spaces_head (c : N) (rest : str) :
  exists rest', collapse_spaces (c :: rest) = c :: rest'.
Proof.
  revert c. induction rest as [|d rest IH]; intros c.
  - simpl. destruct (c =? 32); by eexists.
  - rewrite collapse_spaces_cons.
    destruct ((c =? 32) && (d =? 32)) eqn:Hcd; [|by eexists].
    apply andb_true_iff in Hcd. destruct Hcd as [Hc Hd].
    apply N.eqb_eq in Hc, Hd. subst. apply (IH 32).
Qed.

Lemma collapse_spaces_single_spaced (s : str) :
  single_spaced (collapse_spaces s) = true.
Proof.
  induction s as [|c rest IH]; [done|].
  destruct rest as [|d rest].
  - simpl. by destruct (c =? 32).
  - rewrite collapse_spaces_cons.
    destruct ((c =? 32) && (d =? 32)) eqn:Hcd; [exact IH|].
    destruct (collapse_spaces_head d rest) as [rest' Hrest'].
    rewrite Hrest' in *. rewrite single_spaced_cons, Hcd. exact IH.
Qed.

Lemma collapse_spaces_fixed (s : str) :
  single_spaced s = true -> collapse_spaces s = s.
Proof.
  induction s as [|c rest IH]; [done|].
  destruct rest as [|d rest].
  - simpl. by destruct (c =? 32).
  - rewrite single_spaced_cons, collapse_spaces_cons.
    intros Hs. apply andb_true_iff in Hs. destruct Hs as [Hcd Hs].
    apply negb_true_iff in Hcd. rewrite Hcd. by rewrite (IH Hs).
Qed.

Lemma collapse_spaces_Forall (P : N -> Prop) (s : str) :
  Forall P s -> Forall P (collapse_spaces s).
Proof.
  induction 1 as [|c rest Hc Hrest IH]; [constructor|].
  destruct rest as [|d rest].
  - simpl. destruct (c =? 32); by constructor.
  - rewrite collapse_spaces_cons.
    destruct ((c =? 32) && (d =? 32)); [exact IH|by constructor].
Qed.

Lemma single_spaced_suffix (pre s : str) :
  single_spaced (pre ++ s) = true -> single_spaced s = true.
Proof.
  induction pre as [|c pre IH]; [done|].
  change ((c :: pre) ++ s) with (c :: (pre ++ s)).
  intros Hs. apply IH. revert Hs.
  destruct (pre ++ s) as [|d t]; [done|].
  rewrite single_spaced_cons. intros Hs.
  apply andb_true_iff in Hs. apply Hs.
Qed.

Lemma single_spaced_prefix (s post : str) :
  single_spaced (s ++ post) = true -> single_spaced s = true.
Proof.
  induction s as [|c s IH]; [done|].
  destruct s as [|d s]; [done|].
  change ((c :: d :: s) ++ post) with (c :: d :: (s ++ post)).
  rewrite !single_spaced_cons.
  intros Hs. apply andb_true_iff in Hs. destruct Hs as [Hcd Hs].
  rewrite Hcd. by apply IH.
Qed.

Lemma strip_single_spaced (s : str) :
  single_spaced s = true -> single_spaced (strip s) = true.
Proof.
  intros Hs. unfold strip.
  destruct (lstrip_suffix s) as [pre Hpre].
  destruct (rstrip_prefix (lstrip s)) as [post Hpost].
  rewrite Hpre in Hs. apply single_spaced_suffix in Hs.
  rewrite Hpost in Hs. by apply single_spaced_prefix in Hs.
Qed.

End CollapseSpaces.

Section PlainText.

Lemma map_fixed (f : N -> N) (s : str) :
  Forall (fun c => f c = c) s -> map f s = s.
Proof. induction 1 as [|c rest Hc _ IH]; simpl; [done|]. by rewrite Hc, IH. Qed.

Lemma filter_fixed (P : N -> Prop) `{forall c, Decision (P c)} (s : str) :
  Forall P s -> filter P s = s.
Proof.
  induction 1 as [|c rest Hc _ IH]; [done|].
  by rewrite filter_cons_True, IH.
Qed.

Lemma plain_is_ascii (s : str) :
  Forall (fun c => plain c = true) s -> forallb is_ascii s = true.
Proof.
  induction 1 as [|c rest Hc _ IH]; simpl; [done|].
  unfold plain in Hc. apply andb_true_iff in Hc. destruct Hc as [-> _].
  exact IH.
Qed.

Lemma settled_plain (c : N) : settled c = true -> plain c = true.
Proof.
  unfold settled. intros Hc.
  apply andb_true_iff in Hc. destruct Hc as [Hc _].
  apply andb_true_iff in Hc. by destruct Hc.
Qed.

Lemma ascii_lower_plain (c : N) :
  plain c = true ->
  plain (ascii_lower c) = true
  /\ ((65 <=? ascii_lower c) && (ascii_lower c <=? 90)) = false.
Proof.
  unfold plain, is_ascii, ascii_punctuation, ascii_lower.
  destruct ((65 <=? c) && (c <=? 90)) eqn:Hup; unbool; lia.
Qed.

Lemma ascii_lower_settled (c : N) : settled c = true -> ascii_lower c = c.
Proof.
  unfold settled, ascii_lower.
  destruct ((65 <=? c) && (c <=? 90)) eqn:Hup; [|done].
  rewrite andb_false_r. discriminate.
Qed.

Lemma plain_not_dash (c : N) :
  plain c = true -> (if (c =? 45) || (c =? 8211) then 32 else c) = c.
Proof.
  unfold plain, is_ascii, ascii_punctuation.
  destruct ((c =? 45) || (c =? 8211)) eqn:Hd; [|done]. unbool. lia.
Qed.

Lemma plain_no_line_feed (c : N) :
  plain c = true ->
  ((65 <=? c) && (c <=? 90)) = false ->
  settled (if (c =? 160) || (c =? 10) then 32 else c) = true.
Proof.
  unfold settled, plain, is_ascii, ascii_punctuation.
  destruct ((c =? 160) || (c =? 10)) eqn:Hd; [done|]. unbool. lia.
Qed.

Lemma settled_no_line_feed (c : N) :
  settled c = true -> (if (c =? 160) || (c =? 10) then 32 else c) = c.
Proof.
  unfold settled, plain, is_ascii.
  destruct ((c =? 160) || (c =? 10)) eqn:Hd; [|done]. unbool. lia.
Qed.

Lemma plain_not_bullet (c : N) : plain c = true -> is_bullet c = false.
Proof.
  intros Hc. destruct (is_bullet c) eqn:Hb; [|done].
  unfold is_bullet in Hb. apply existsb_exists in Hb.
  destruct Hb as (b & Hin & Heq). apply N.eqb_eq in Heq. subst b.
  unfold UNICODE_BULLETS in Hin. simpl in Hin.
  repeat (destruct Hin as [<- | Hin]; [discriminate Hc|]). destruct Hin.
Qed.

Lemma clean_bullets_plain (text : str) :
  Forall (fun c => plain c = true) text -> clean_bullets text = text.
Proof.
  intros Ht. destruct Ht as [|c rest Hc _]; [done|]. simpl.
  by rewrite (plain_not_bullet c Hc).
Qed.

(** An occurrence of [old] is made of characters of the text. *)
Lemma startswith_Forall (P : N -> Prop) (s old : str) :
  startswith s old = true -> Forall P s -> Forall P old.
Proof.
  revert s. induction old as [|a old IH]; intros s; [constructor|].
  destruct s as [|b s]; simpl; [discriminate|].
  intros Hs Hall. apply andb_true_iff in Hs. destruct Hs as [Hab Hs].
  apply N.eqb_eq in Hab. subst b.
  apply Forall_cons in Hall. destruct Hall as [Ha Hall].
  constructor; [exact Ha|]. by apply (IH s).
Qed.

Lemma replace_absent (old new s : str) :
  forallb plain old = false ->
  Forall (fun c => plain c = true) s ->
  replace old new s = s.
Proof.
  intros Hold Hs. unfold replace. destruct old as [|a old]; [done|].
  induction Hs as [|c rest Hc Hrest IH]; [done|].
  cbn [replace_from].
  destruct (startswith (c :: rest) (a :: old)) eqn:Hstart.
  - exfalso.
    assert (Hall : Forall (fun c => plain c = true) (a :: old)).
    { apply (startswith_Forall _ (c :: rest)); [exact Hstart|].
      by constructor. }
    assert (forallb plain (a :: old) = true); [|congruence].
    clear -Hall. induction Hall as [|x l Hx _ IHl]; [done|].
    simpl. by rewrite Hx, IHl.
  - by rewrite IH.
Qed.

Lemma replace_unicode_quotes_plain (text : str) :
  Forall (fun c => plain c = true) text ->
  replace_unicode_quotes text = text.
Proof.
  intros Ht. unfold replace_unicode_quotes.
  assert (Hq : Forall (fun q => forallb plain (fst q) = false)
                      UNICODE_QUOTES).
  { unfold UNICODE_QUOTES. repeat constructor. }
  induction Hq as [|[old new] quotes Hold _ IH]; [done|].
  simpl. by rewrite (replace_absent old new text Hold Ht).
Qed.

End PlainText.

Section CleanFull.
Context `{UnicodeData}.

(** What is left of a plain text after lower-casing, stripping,
    turning line feeds into spaces, collapsing runs of spaces and
    stripping again. *)
Lemma cleaned_plain_text (x : str) :
  Forall (fun c => plain c = true) x ->
  let z := strip (collapse_spaces
                    (map (fun c => if (c =? 160) || (c =? 10) then 32 else c)
                         (strip (map ascii_lower x)))) in
  Forall (fun c => settled c = true) z
  /\ strip z = z
  /\ single_spaced z = true.
Proof.
  intros Hx z. split; [|split].
  - apply strip_Forall, collapse_spaces_Forall.
    apply List.Forall_map.
    apply (Forall_impl
             (fun c => plain c = true
                       /\ ((65 <=? c) && (c <=? 90)) = false)).
    + apply strip_Forall. apply List.Forall_map.
      eapply Forall_impl; [exact Hx|].
      intros c Hc. by apply ascii_lower_plain.
    + intros c [Hc Hup]. by apply plain_no_line_feed.
  - apply strip_idempotent.
  - apply strip_single_spaced, collapse_spaces_single_spaced.
Qed.

Lemma clean_plain (x : str) :
  Forall (fun c => plain c = true) x ->
  clean x
  = strip (collapse_spaces
             (map (fun c => if (c =? 160) || (c =? 10) then 32 else c)
                  (strip (map ascii_lower x)))).
Proof.
  intros Hx. destruct (cleaned_plain_text x Hx) as (Hz & Hstrip & _).
  unfold clean, lower. rewrite (plain_is_ascii x Hx).
  unfold clean_dashes. rewrite (map_fixed _ (map ascii_lower x)).
  - unfold clean_extra_whitespace. rewrite clean_bullets_plain.
    + apply strip_idempotent.
    + eapply Forall_impl; [exact Hz|]. apply settled_plain.
  - apply List.Forall_map. eapply Forall_impl; [exact Hx|].
    intros c Hc. apply plain_not_dash. by apply ascii_lower_plain.
Qed.

Lemma clean_full_plain (x : str) :
  Forall (fun c => plain c = true) x ->
  clean_full x
  = strip (collapse_spaces
             (map (fun c => if (c =? 160) || (c =? 10) then 32 else c)
                  (strip (map ascii_lower x)))).
Proof.
  intros Hx. destruct (cleaned_plain_text x Hx) as (Hz & _ & _).
  assert (Hplain : Forall (fun c => plain c = true)
            (strip (collapse_spaces
               (map (fun c => if (c =? 160) || (c =? 10) then 32 else c)
                    (strip (map ascii_lower x)))))).
  { eapply Forall_impl; [exact Hz|]. apply settled_plain. }
  unfold clean_full. rewrite (clean_plain x Hx).
  rewrite (replace_unicode_quotes_plain _ Hplain).
  unfold clean_non_ascii_chars, remove_punctuation.
  rewrite (filter_fixed (fun c => is_ascii c = true)).
  - rewrite (filter_fixed (fun c => category_P c = false)); [done|].
    eapply Forall_impl; [exact Hplain|].
    intros c Hc. unfold plain in Hc. apply andb_true_iff in Hc.
    destruct Hc as [Ha Hp]. unfold category_P. rewrite Ha.
    by apply negb_true_iff in Hp.
  - eapply Forall_impl; [exact Hplain|].
    intros c Hc. unfold plain in Hc. apply andb_true_iff in Hc.
    by destruct Hc.
Qed.

(** A settled, stripped, single-spaced text is left as it is. *)
Lemma clean_full_fixed (z : str) :
  Forall (fun c => settled c = true) z ->
  strip z = z ->
  single_spaced z = true ->
  clean_full z = z.
Proof.
  intros Hz Hstrip Hsingle.
  rewrite clean_full_plain.
  - rewrite (map_fixed ascii_lower z).
    + rewrite Hstrip, (map_fixed _ z).
      * by rewrite (collapse_spaces_fixed z Hsingle).
      * eapply Forall_impl; [exact Hz|]. apply settled_no_line_feed.
    + eapply Forall_impl; [exact Hz|]. apply ascii_lower_settled.
  - eapply Forall_impl; [exact Hz|]. apply settled_plain.
Qed.

End CleanFull.

(** C6, the claim at a concrete input. Cleaning the text a ! b removes
    the exclamation mark after the runs of spaces have been collapsed,
    and leaves two spaces in a row; cleaning the result again collapses
    them. *)
Lemma clean_full_is_not_idempotent :
  @clean_full ascii_only (lit "a ! b") = lit "a  b"
  /\ @clean_full ascii_only (lit "a  b") = lit "a b"
  /\ @clean_full ascii_only (@clean_full ascii_only (lit "a ! b"))
     <> @clean_full ascii_only (lit "a ! b").
Proof.
  split; [|split]; vm_compute; congruence.
Qed.

(** C6, as the code has it: on a text made of ASCII characters none of
    which is punctuation, cleaning twice gives what cleaning once
    gives. *)
Theorem clean_full_idempotent_on_plain_text `{UnicodeData} (x : str) :
  Forall (fun c => plain c = true) x ->
  clean_full (clean_full x) = clean_full x.
Proof.
  intros Hx. rewrite (clean_full_plain x Hx).
  destruct (cleaned_plain_text x Hx) as (Hz & Hstrip & Hsingle).
  by apply clean_full_fixed.
Qed.

Lemma clean_full_idempotent_on_plain_text_witness :
  Forall (fun c => plain c = true) (lit "  Breaking   News today ")
  /\ @clean_full ascii_only (lit "  Breaking   News today ")
     = lit "breaking news today"
  /\ @clean_full ascii_only
       (@clean_full ascii_only (lit "  Breaking   News today "))
     = @clean_full ascii_only (lit "  Breaking   News today ").
Proof.
  assert (Hplain : Forall (fun c => plain c = true)
                          (lit "  Breaking   News today ")).
  { repeat constructor. }
  split; [exact Hplain|]. split; [vm_compute; reflexivity|].
  exact (@clean_full_idempotent_on_plain_text ascii_only _ Hplain).
Defined.

(** ** The chunker *)

Section Window.
Variable tokenizer : AutoTokenizer.
Variable max_chunk_size : nat.

(** A step that neither raises nor flushes. *)
Lemma window_step_fits (w : window) (segment : str) (last : bool) :
  (chunk_size w + length (tokenize tokenizer segment) <= max_chunk_size)%nat ->
  window_step tokenizer max_chunk_size w segment last
  = let text := (if (0 <? chunk_size w)%nat
                 then chunk_text w ++ chunk_separator
                 else chunk_text w) ++ segment in
    Ok {| chunks := if last && truthy text then chunks w ++ [text]
                    else chunks w;
          chunk_text := text;
          chunk_size :=
            (chunk_size w + length (tokenize tokenizer segment))%nat |}.
Proof.
  intros Hfit. unfold window_step.
  destruct (Nat.ltb_spec max_chunk_size (length (tokenize tokenizer segment)));
    [lia|].
  destruct (Nat.ltb_spec max_chunk_size
              (chunk_size w + length (tokenize tokenizer segment)));
    [lia|done].
Qed.

(** The loop on segments that fit together: one chunk, the joined
    text, unless that text is empty. *)
Lemma window_loop_fits (segments : list str) (w : window) :
  segments <> [] ->
  chunks w = [] ->
  (chunk_size w + token_count tokenizer segments <= max_chunk_size)%nat ->
  exists size,
    window_loop tokenizer max_chunk_size segments w
    = let text := joined tokenizer (chunk_size w) (chunk_text w) segments in
      Ok {| chunks := if truthy text then [text] else [];
            chunk_text := text;
            chunk_size := size |}.
Proof.
  revert w. induction segments as [|segment rest IH]; intros w Hne Hw Hfit;
    [done|].
  simpl in Hfit. cbn [window_loop joined].
  rewrite window_step_fits by lia. cbn zeta.
  destruct rest as [|segment' rest'].
  - simpl. rewrite Hw. by eexists.
  - cbn [bind andb].
    destruct (IH {| chunks := chunks w;
                    chunk_text :=
                      (if (0 <? chunk_size w)%nat
                       then chunk_text w ++ chunk_separator
                       else chunk_text w) ++ segment;
                    chunk_size :=
                      (chunk_size w + length (tokenize tokenizer segment))%nat |})
      as [size Hloop]; [done|exact Hw|simpl in *; lia|].
    exists size. exact Hloop.
Qed.

Lemma filter_not_space_app (a b : str) :
  unspaced (a ++ b) = unspaced a ++ unspaced b.
Proof. apply filter_app. Qed.

Lemma joined_unspaced (segments : list str) (size : nat) (text : str) :
  unspaced (joined tokenizer size text segments)
  = unspaced (text ++ concat segments).
Proof.
  revert size text.
  induction segments as [|segment rest IH]; intros size text; simpl.
  - by rewrite app_nil_r.
  - rewrite IH. rewrite !filter_not_space_app.
    destruct (0 <? size)%nat; [|by rewrite app_assoc].
    rewrite filter_not_space_app. unfold chunk_separator.
    change (unspaced [32]) with (@nil N).
    by rewrite app_nil_r, app_assoc.
Qed.

Lemma joined_separated (segments : list str) (size : nat) (text : str) :
  (0 < size)%nat ->
  joined tokenizer size text segments
  = text ++ concat (map (cons 32) segments).
Proof.
  revert size text.
  induction segments as [|segment rest IH]; intros size text Hsize; simpl.
  - by rewrite app_nil_r.
  - rewrite IH by lia.
    destruct (Nat.ltb_spec 0 size); [|lia].
    unfold chunk_separator. by rewrite <- !app_assoc.
Qed.

Lemma joined_extends (segments : list str) (size : nat) (text : str) :
  exists tail, joined tokenizer size text segments = text ++ tail.
Proof.
  revert size text.
  induction segments as [|segment rest IH]; intros size text; simpl.
  - exists []. by rewrite app_nil_r.
  - destruct (IH (size + length (tokenize tokenizer segment))%nat
                ((if (0 <? size)%nat then text ++ chunk_separator else text)
                 ++ segment)) as [tail ->].
    destruct (0 <? size)%nat; eexists; by rewrite <- !app_assoc.
Qed.

End Window.

Section SplitSpace.

Lemma split_space_join (text : str) :
  exists word rest,
    split_space text = word :: rest
    /\ word ++ concat (map (cons 32) rest) = text
    /\ (forall c tail, text = c :: tail -> c <> 32 -> word <> [])
    /\ unspaced (concat (word :: rest)) = unspaced text.
Proof.
  induction text as [|c tail (word & rest & Hsplit & Hjoin & _ & Hun)].
  - exists [], []. split; [done|]. split; [done|]. split; [|done].
    intros c tail [=].
  - cbn [split_space]. rewrite Hsplit.
    destruct (N.eqb_spec c 32) as [->|Hc].
    + exists [], (word :: rest).
      split; [done|]. split; [simpl; by rewrite Hjoin|].
      split; [intros c' tail' [= <- _] Hc'; done|].
      change (concat ([] :: word :: rest)) with (concat (word :: rest)).
      rewrite Hun. unfold unspaced.
      rewrite filter_cons_False; [done|]. intros Hne. by apply Hne.
    + exists (c :: word), rest.
      split; [done|]. split; [simpl; by rewrite Hjoin|].
      split; [done|].
      change (concat ((c :: word) :: rest))
        with (c :: concat (word :: rest)).
      unfold unspaced in *. rewrite !filter_cons_True by done.
      by rewrite Hun.
Qed.

End SplitSpace.

(** The attention-window chunker on a text that starts with a word and
    fits the budget: one chunk. *)
Lemma chunk_by_attention_window_fits (tokenizer : AutoTokenizer)
    (c : N) (tail : str) :
  c <> 32 ->
  fits_budget tokenizer (c :: tail) ->
  exists chunk,
    chunk_by_attention_window (c :: tail) tokenizer = Ok [chunk]
    /\ unspaced chunk = unspaced (c :: tail)
    /\ ((forall segment, segment <> [] -> tokenize tokenizer segment <> []) ->
        chunk = c :: tail).
Proof.
  intros Hc [Hmax Hfit].
  destruct (split_space_join (c :: tail))
    as (word & rest & Hsplit & Hjoin & Hword & Hun).
  specialize (Hword c tail eq_refl Hc).
  unfold chunk_by_attention_window. cbn zeta.
  destruct (Nat.leb_spec (model_max_length tokenizer) 2) as [Hle|_];
    [exfalso; clear -Hmax Hle; lia|].
  destruct (window_loop_fits tokenizer (model_max_length tokenizer - 2)
              (split_space (c :: tail))
              {| chunks := []; chunk_text := []; chunk_size := 0 |})
    as [size Hloop]; [by rewrite Hsplit|done|exact Hfit|].
  rewrite Hloop. cbn zeta. cbn [bind chunks chunk_text chunk_size].
  rewrite Hsplit in *.
  assert (Htext : joined tokenizer 0 [] (word :: rest) <> []).
  { cbn [joined]. cbn.
    destruct (joined_extends tokenizer rest
                (length (tokenize tokenizer word)) word) as [more ->].
    destruct word; [done|discriminate]. }
  exists (joined tokenizer 0 [] (word :: rest)).
  split; [|split].
  - by destruct (joined tokenizer 0 [] (word :: rest)).
  - rewrite joined_unspaced. exact Hun.
  - intros Htokens. specialize (Htokens word Hword).
    cbn [joined]. cbn.
    rewrite joined_separated; [exact Hjoin|].
    destruct (tokenize tokenizer word); [done|simpl; lia].
Qed.

(** C7, the claim at a concrete input: a text made of one space is not
    empty and makes no token at all, and the chunker returns no chunk
    for it. *)
Lemma chunk_text_blank_text_has_no_chunk :
  lit " " <> []
  /\ fits_budget (tokenizer sample_embedder) (lit " ")
  /\ @ChunkedDocument.chunk_text whole_text_splitter (lit " ") sample_embedder
     = Ok []
  /\ ~ (forall (splitter : RecursiveCharacterTextSplitter)
               (model : TextEmbedder) (text : str),
          text <> [] ->
          fits_budget (tokenizer model) text ->
          exists chunk,
            @ChunkedDocument.chunk_text splitter text model = Ok [chunk]).
Proof.
  assert (Hfit : fits_budget (tokenizer sample_embedder) (lit " ")).
  { split; vm_compute; lia. }
  split; [discriminate|]. split; [exact Hfit|]. split; [reflexivity|].
  intros Hclaim.
  destruct (Hclaim whole_text_splitter sample_embedder (lit " "))
    as [chunk Hchunk]; [discriminate|exact Hfit|].
  vm_compute in Hchunk. discriminate.
Qed.

(** C7, as the code has it: the empty text gives no chunk; a text
    shorter than one section of the splitter, with something other than
    whitespace in it, whose words fit the token budget, gives exactly
    one chunk. That chunk is the stripped text up to spaces, and is the
    stripped text itself when the tokenizer makes at least one token of
    every non-empty word. *)
Theorem chunk_text_one_chunk_within_budget `{RecursiveCharacterTextSplitter}
    (model : TextEmbedder) (text : str) :
  ChunkedDocument.chunk_text [] model = Ok []
  /\ ((length text < 4000)%nat ->
      strip text <> [] ->
      fits_budget (tokenizer model) (strip text) ->
      exists chunk,
        ChunkedDocument.chunk_text text model = Ok [chunk]
        /\ unspaced chunk = unspaced (strip text)
        /\ ((forall segment,
               segment <> [] -> tokenize (tokenizer model) segment <> []) ->
            chunk = strip text)).
Proof.
  split.
  - unfold ChunkedDocument.chunk_text.
    rewrite split_text_short by (simpl; lia). reflexivity.
  - intros Hshort Hne Hfit.
    unfold ChunkedDocument.chunk_text.
    rewrite (split_text_short text Hshort).
    destruct (strip_starts_clean text) as [Hclean _].
    destruct (strip text) as [|c tail]; [done|].
    assert (Hc : c <> 32).
    { intros ->. simpl in Hclean. discriminate. }
    destruct (chunk_by_attention_window_fits (tokenizer model) c tail Hc Hfit)
      as (chunk & Hchunk & Hun & Heq).
    exists chunk. split; [|split; [exact Hun|exact Heq]].
    cbn [ChunkedDocument.extend_all]. rewrite Hchunk. reflexivity.
Qed.

Lemma chunk_text_one_chunk_within_budget_witness :
  @ChunkedDocument.chunk_text whole_text_splitter [] sample_embedder = Ok []
  /\ exists chunk,
       @ChunkedDocument.chunk_text whole_text_splitter
         (lit " breaking news.today  ") sample_embedder = Ok [chunk]
       /\ unspaced chunk = unspaced (strip (lit " breaking news.today  "))
       /\ chunk = lit "breaking news.today".
Proof.
  destruct (@chunk_text_one_chunk_within_budget whole_text_splitter
              sample_embedder (lit " breaking news.today  "))
    as [Hempty Hone].
  split; [exact Hempty|].
  destruct Hone as (chunk & Hchunk & Hun & Heq).
  - vm_compute. lia.
  - vm_compute. discriminate.
  - split; vm_compute; lia.
  - exists chunk. split; [exact Hchunk|]. split; [exact Hun|].
    rewrite Heq; [vm_compute; reflexivity|].
    intros segment Hsegment. simpl. by destruct segment.
Defined.

(** * Further properties *)

Import MoreSamples MoreVocabulary.

(** ** The sink on whole batches *)

Section SinkBatches.
Context {C : Type} `{QdrantClient C}.

Lemma stage_with_urls (self : QdrantVectorSink C)
    (documents : list EmbeddedDocument.t) (points : list PointStruct) :
  Forall (fun doc => is_Some (EmbeddedDocument.metadata doc !! lit "url"))
         documents ->
  stage self documents points
  = Ok (points ++ map point_of (List.filter (unknown_url self) documents)).
Proof.
  intros Hurls. revert points.
  induction Hurls as [|doc rest [u Hu] _ IH]; intros points; simpl.
  - by rewrite app_nil_r.
  - unfold unknown_url at 1. rewrite Hu.
    destruct (article_exists self u); simpl.
    + apply IH.
    + rewrite IH. by rewrite <- app_assoc.
Qed.

Lemma stage_missing_url (self : QdrantVectorSink C)
    (documents : list EmbeddedDocument.t) (points : list PointStruct) :
  Exists (fun doc => EmbeddedDocument.metadata doc !! lit "url" = None)
         documents ->
  stage self documents points = Raise KeyError.
Proof.
  intros Hmiss. revert points.
  induction Hmiss as [doc rest Hdoc|doc rest _ IH]; intros points; simpl.
  - by rewrite Hdoc.
  - destruct (EmbeddedDocument.metadata doc !! lit "url") as [u|]; [|done].
    destruct (article_exists self u); apply IH.
Qed.

Lemma urls_or_missing (documents : list EmbeddedDocument.t) :
  Forall (fun doc => is_Some (EmbeddedDocument.metadata doc !! lit "url"))
         documents
  \/ Exists (fun doc => EmbeddedDocument.metadata doc !! lit "url" = None)
            documents.
Proof.
  induction documents as [|doc rest [IH|IH]].
  - left. constructor.
  - destruct (EmbeddedDocument.metadata doc !! lit "url") as [u|] eqn:Hu.
    + left. constructor; [by eexists|exact IH].
    + right. by constructor.
  - right. by constructor.
Qed.

End SinkBatches.

(** X1. On a batch in which every document has a URL in its metadata,
    [write_batch] upserts, in one call and in batch order, the points of
    exactly the documents whose URL the existence check does not find;
    it returns the sink as it was when there is no such document or when
    the upsert raises. *)
Theorem write_batch_upserts_the_unknown_urls {C : Type} `{QdrantClient C}
    (self : QdrantVectorSink C) (documents : list EmbeddedDocument.t) :
  Forall (fun doc => is_Some (EmbeddedDocument.metadata doc !! lit "url"))
         documents ->
  let points := map point_of (List.filter (unknown_url self) documents) in
  stage self documents [] = Ok points
  /\ write_batch self documents
     = Ok match points with
          | [] => self
          | _ :: _ =>
              match upsert (_client self) (_collection_name self) points with
              | Ok client' =>
                  {| _client := client';
                     _collection_name := _collection_name self |}
              | Raise _ => self
              end
          end.
Proof.
  intros Hurls points.
  assert (Hstage : stage self documents [] = Ok points).
  { by rewrite (stage_with_urls self documents [] Hurls). }
  split; [exact Hstage|].
  unfold write_batch. rewrite Hstage. simpl.
  destruct points as [|p ps]; [done|].
  by destruct (upsert _ _ _).
Qed.

Lemma write_batch_upserts_the_unknown_urls_witness :
  write_batch read_only_sink [chunk_a; chunk_b] = Ok read_only_sink
  /\ stage read_only_sink [chunk_a; chunk_b] []
     = Ok [point_of chunk_a; point_of chunk_b].
Proof.
  destruct (write_batch_upserts_the_unknown_urls read_only_sink
              [chunk_a; chunk_b]) as [Hstage Hwrite].
  - repeat constructor; by eexists.
  - split; [exact Hwrite|exact Hstage].
Defined.

(** X2. [write_batch] raises exactly when some document of the batch
    has no URL key in its metadata; what it raises then is [KeyError],
    whatever the other documents are, and nothing has been upserted. An
    exception of the existence check or of the upsert never leaves it. *)
Theorem write_batch_raises_only_key_error {C : Type} `{QdrantClient C}
    (self : QdrantVectorSink C) (documents : list EmbeddedDocument.t) :
  (Exists (fun doc => EmbeddedDocument.metadata doc !! lit "url" = None)
          documents ->
   write_batch self documents = Raise KeyError)
  /\ (forall e, write_batch self documents = Raise e ->
        e = KeyError
        /\ Exists (fun doc => EmbeddedDocument.metadata doc !! lit "url" = None)
                  documents).
Proof.
  split.
  - intros Hmiss. unfold write_batch.
    by rewrite (stage_missing_url self documents [] Hmiss).
  - intros e He.
    destruct (urls_or_missing documents) as [Hurls|Hmiss].
    + destruct (write_batch_ok self documents _
                  (stage_with_urls self documents [] Hurls)) as [s Hs].
      congruence.
    + unfold write_batch in He.
      rewrite (stage_missing_url self documents [] Hmiss) in He.
      simpl in He. split; [congruence|exact Hmiss].
Qed.

Lemma write_batch_raises_only_key_error_witness :
  write_batch empty_sink [chunk_a; keyless_doc; chunk_b] = Raise KeyError.
Proof.
  apply (write_batch_raises_only_key_error empty_sink
           [chunk_a; keyless_doc; chunk_b]).
  apply Exists_cons_tl, Exists_cons_hd. reflexivity.
Defined.

(** ** The sink on the store, one document after the other *)

Lemma store_match_found (store : gmap (list N) PointStruct)
    (key k : str) (value : pyval) (p : PointStruct) :
  store !! k = Some p ->
  payload p !! key = Some value ->
  store_match store key value <> [].
Proof.
  intros Hk Hp Hnil. unfold store_match in Hnil.
  pose proof (filter_nil_not_elem_of
                (fun q => payload q !! key = Some value)
                (map snd (map_to_list store)) p Hnil Hp) as Hnot.
  apply Hnot. apply list_elem_of_In, in_map_iff.
  exists (k, p). split; [done|].
  by apply list_elem_of_In, elem_of_map_to_list.
Qed.

Lemma store_article_found (store : gmap (list N) PointStruct)
    (name k url : str) (p : PointStruct) :
  store !! k = Some p ->
  payload p !! lit "url" = Some (PyStr url) ->
  article_exists {| _client := store; _collection_name := name |} (PyStr url)
  = true.
Proof.
  intros Hk Hp. unfold article_exists. simpl.
  pose proof (store_match_found store (lit "url") k (PyStr url) p Hk Hp).
  by destruct (store_match store (lit "url") (PyStr url)).
Qed.

(** X3. On the store, two documents with the same URL written one
    after the other leave what the first write left: the second write
    finds the URL and upserts nothing, also when the two documents
    belong to different articles. *)
Theorem second_write_of_a_url_changes_nothing
    (sink : QdrantVectorSink (gmap (list N) PointStruct))
    (url : str) (doc1 doc2 : EmbeddedDocument.t) :
  EmbeddedDocument.metadata doc1 !! lit "url" = Some (PyStr url) ->
  EmbeddedDocument.metadata doc2 !! lit "url" = Some (PyStr url) ->
  exists sink1,
    write sink doc1 = Ok sink1
    /\ article_exists sink1 (PyStr url) = true
    /\ write sink1 doc2 = Ok sink1.
Proof.
  intros H1 H2. destruct sink as [store name].
  assert (Hskip : forall s : QdrantVectorSink (gmap (list N) PointStruct),
             article_exists s (PyStr url) = true ->
             forall doc, EmbeddedDocument.metadata doc !! lit "url"
                         = Some (PyStr url) ->
             write s doc = Ok s).
  { intros s Hs doc Hdoc. unfold write, write_batch. simpl.
    by rewrite Hdoc, Hs. }
  destruct (article_exists {| _client := store; _collection_name := name |}
              (PyStr url)) eqn:Hex.
  - exists {| _client := store; _collection_name := name |}.
    split; [by apply Hskip|]. split; [exact Hex|by apply Hskip].
  - exists {| _client := <[id (point_of doc1) := point_of doc1]> store;
              _collection_name := name |}.
    assert (Hfound :
              article_exists
                {| _client := <[id (point_of doc1) := point_of doc1]> store;
                   _collection_name := name |} (PyStr url) = true).
    { apply (store_article_found _ name (id (point_of doc1)) url
               (point_of doc1)); [apply lookup_insert_eq|exact H1]. }
    split; [|split; [exact Hfound|by apply Hskip]].
    unfold write, write_batch. simpl. by rewrite H1, Hex.
Qed.

Lemma second_write_of_a_url_changes_nothing_witness :
  exists sink1,
    write empty_sink chunk_a = Ok sink1
    /\ article_exists sink1 (PyStr news_url) = true
    /\ write sink1 chunk_b = Ok sink1.
Proof.
  apply (second_write_of_a_url_changes_nothing empty_sink news_url
           chunk_a chunk_b); vm_compute; reflexivity.
Defined.

(** ** De-duplication, again *)

Section RemoveDuplicatesMore.
Implicit Types (seen : gset (list N)) (articles : list CommonDocument.t).

Lemma remove_duplicates_from_urls seen articles (u : str) :
  u ∈ map CommonDocument.url (remove_duplicates_from seen [] articles)
  <-> u ∈ map CommonDocument.url articles /\ u ∉ seen.
Proof.
  revert seen. induction articles as [|a rest IH]; intros seen; simpl.
  - split; [intros Hu; by apply elem_of_nil in Hu|].
    intros [Hu _]. by apply elem_of_nil in Hu.
  - destruct (decide (CommonDocument.url a ∈ seen)) as [Hseen|Hnew].
    + rewrite IH. split.
      * intros [Hu Hs]. split; [by apply elem_of_cons; right|exact Hs].
      * intros [Hu Hs]. split; [|exact Hs].
        apply elem_of_cons in Hu. destruct Hu as [->|Hu]; [done|exact Hu].
    + rewrite remove_duplicates_from_app. simpl.
      rewrite elem_of_cons, IH, elem_of_cons. split.
      * intros [->|[Hu Hs]]; [by split; [left|]|].
        split; [by right|]. intros Hin. apply Hs, elem_of_union. by right.
      * intros [[->|Hu] Hs]; [by left|].
        destruct (decide (u = CommonDocument.url a)) as [->|Hne]; [by left|].
        right. split; [exact Hu|].
        intros Hin. apply elem_of_union in Hin.
        destruct Hin as [Hin|Hin]; [|done].
        by apply elem_of_singleton in Hin.
Qed.

Lemma remove_duplicates_from_fixed seen articles :
  NoDup (map CommonDocument.url articles) ->
  (forall u, u ∈ map CommonDocument.url articles -> u ∉ seen) ->
  remove_duplicates_from seen [] articles = articles.
Proof.
  revert seen. induction articles as [|a rest IH]; intros seen Hnd Hseen;
    [done|].
  simpl in *. apply NoDup_cons in Hnd. destruct Hnd as [Ha Hnd].
  destruct (decide (CommonDocument.url a ∈ seen)) as [Hin|_].
  - exfalso. apply (Hseen (CommonDocument.url a)); [by left|exact Hin].
  - rewrite remove_duplicates_from_app. simpl. f_equal.
    apply IH; [exact Hnd|].
    intros u Hu Hin. apply elem_of_union in Hin.
    destruct Hin as [Hin|Hin].
    + apply elem_of_singleton in Hin. by subst u.
    + apply (Hseen u); [by right|exact Hin].
Qed.

Lemma extend_all_sources (fetched : list (list CommonDocument.t))
    (all_articles : list CommonDocument.t) :
  fold_left (fun all_articles articles =>
               if negb (Nat.eqb (length articles) 0)
               then all_articles ++ articles
               else all_articles)
            fetched all_articles
  = all_articles ++ concat fetched.
Proof.
  revert all_articles.
  induction fetched as [|articles rest IH]; intros all_articles; simpl.
  - by rewrite app_nil_r.
  - rewrite IH. destruct articles as [|a articles]; simpl.
    + done.
    + by rewrite <- app_assoc.
Qed.

End RemoveDuplicatesMore.

(** X4. [_remove_duplicates] loses no URL and is idempotent: the URLs of
    the result are those of the input, and de-duplicating a second time
    changes nothing. *)
Theorem remove_duplicates_keeps_every_url (articles : list CommonDocument.t) :
  (forall u : str,
     u ∈ map CommonDocument.url (_remove_duplicates articles)
     <-> u ∈ map CommonDocument.url articles)
  /\ _remove_duplicates (_remove_duplicates articles)
     = _remove_duplicates articles.
Proof.
  unfold _remove_duplicates. split.
  - intros u. rewrite remove_duplicates_from_urls. split; [by intros [? _]|].
    intros Hu. split; [exact Hu|apply not_elem_of_empty].
  - apply remove_duplicates_from_fixed.
    + by destruct (remove_duplicates_from_spec ∅ articles) as (_ & Hnd & _).
    + intros u _. apply not_elem_of_empty.
Qed.

(** X5. [fetch_all_sources] over sources wrapped by [error_handler]: the
    result has one article per URL; every article returned by a source
    that did not raise has its URL in the result; every article of the
    result was returned by such a source. A source that raises adds
    nothing and does not keep the others from being read. *)
Theorem fetch_all_sources_merges_the_sources {W : Type}
    (sources : list (W -> result (list CommonDocument.t))) (world : W) :
  let result :=
    fetch_all_sources (map (fun fetch_func => error_handler fetch_func world)
                           sources) in
  NoDup (map CommonDocument.url result)
  /\ (forall fetch_func articles a,
        In fetch_func sources -> fetch_func world = Ok articles ->
        In a articles ->
        CommonDocument.url a ∈ map CommonDocument.url result)
  /\ (forall b,
        In b result ->
        exists fetch_func articles,
          In fetch_func sources /\ fetch_func world = Ok articles
          /\ In b articles).
Proof.
  intros result. subst result. unfold fetch_all_sources.
  rewrite extend_all_sources. simpl.
  destruct (remove_duplicates_from_spec ∅
              (concat (map (fun fetch_func => error_handler fetch_func world)
                           sources)))
    as (Hsub & Hnd & _).
  assert (Hin : forall b,
            In b (_remove_duplicates
                    (concat (map (fun fetch_func =>
                                    error_handler fetch_func world) sources)))
            -> In b (concat (map (fun fetch_func =>
                                    error_handler fetch_func world) sources))).
  { intros b Hb. apply list_elem_of_In.
    eapply elem_of_sublist; [|exact Hsub]. by apply list_elem_of_In. }
  split; [exact Hnd|]. split.
  - intros fetch_func articles a Hf Hok Ha.
    unfold _remove_duplicates. apply remove_duplicates_from_urls.
    split; [|apply not_elem_of_empty].
    apply list_elem_of_In, in_map, in_concat.
    exists articles. split; [|exact Ha].
    apply in_map_iff. exists fetch_func. split; [|exact Hf].
    unfold error_handler. by rewrite Hok.
  - intros b Hb. apply Hin, in_concat in Hb.
    destruct Hb as (articles & Harticles & Hb).
    apply in_map_iff in Harticles.
    destruct Harticles as (fetch_func & Heq & Hf).
    exists fetch_func, articles. split; [exact Hf|]. split; [|exact Hb].
    unfold error_handler in Heq.
    destruct (fetch_func world) as [l|e]; [by subst|].
    subst articles. destruct Hb.
Qed.

(** ** The cleaners, again *)

Section FilterFacts.

Lemma filter_satisfies (P : N -> Prop) `{forall c, Decision (P c)} (s : str) :
  Forall P (filter P s).
Proof.
  induction s as [|c rest IH]; [constructor|].
  destruct (decide (P c)) as [Hc|Hc].
  - rewrite filter_cons_True by done. by constructor.
  - by rewrite filter_cons_False.
Qed.

Lemma filter_keeps (P Q : N -> Prop) `{forall c, Decision (P c)} (s : str) :
  Forall Q s -> Forall Q (filter P s).
Proof.
  induction 1 as [|c rest Hc _ IH]; [constructor|].
  destruct (decide (P c)).
  - rewrite filter_cons_True by done. by constructor.
  - by rewrite filter_cons_False.
Qed.

End FilterFacts.

(** X6. Whatever the text, and whatever the character database says
    beyond ASCII, the result of [clean_full] is made of ASCII characters
    none of which is punctuation. *)
Theorem clean_full_is_ascii_without_punctuation `{UnicodeData} (text : str) :
  Forall (fun c => is_ascii c = true /\ plain c = true) (clean_full text).
Proof.
  unfold clean_full, remove_punctuation.
  set (t := clean_non_ascii_chars (replace_unicode_quotes (clean text))).
  assert (Hascii : Forall (fun c => is_ascii c = true) t).
  { subst t. unfold clean_non_ascii_chars. apply filter_satisfies. }
  pose proof (filter_keeps (fun c => category_P c = false)
                (fun c => is_ascii c = true) t Hascii) as Hkeep.
  pose proof (filter_satisfies (fun c => category_P c = false) t) as Hpunct.
  revert Hkeep Hpunct.
  generalize (filter (fun c => category_P c = false) t). intros s Hkeep.
  induction Hkeep as [|c rest Hc _ IH]; intros Hpunct; [constructor|].
  apply Forall_cons in Hpunct. destruct Hpunct as [Hp Hrest].
  constructor; [|by apply IH].
  split; [exact Hc|]. unfold plain. rewrite Hc. simpl.
  unfold category_P in Hp. rewrite Hc in Hp. by rewrite Hp.
Qed.

Section RemoveHtml.

Lemma remove_html_skip (a b : str) :
  remove_html_from (length a) (a ++ b) = remove_html_from O b.
Proof. induction a as [|c a IH]; [done|]. exact IH. Qed.

Lemma tag_end_some (s after : str) :
  tag_end s = Some after ->
  exists body, s = body ++ 62 :: after /\ Forall (fun c => c <> 62) body.
Proof.
  revert after. induction s as [|c rest IH]; intros after; simpl; [done|].
  destruct (N.eqb_spec c 62) as [->|Hc].
  - intros [= <-]. by exists [].
  - intros Hrest. destruct (IH after Hrest) as (body & -> & Hbody).
    exists (c :: body). split; [done|by constructor].
Qed.

Lemma tag_end_none (s : str) :
  tag_end s = None <-> Forall (fun c => c <> 62) s.
Proof.
  induction s as [|c rest IH]; simpl.
  - split; [constructor|done].
  - destruct (N.eqb_spec c 62) as [->|Hc].
    + split; [done|]. intros Hall. apply Forall_cons in Hall. by destruct Hall.
    + rewrite IH. split; [by constructor|].
      intros Hall. apply Forall_cons in Hall. by destruct Hall.
Qed.

Lemma tag_end_found (body after : str) :
  Forall (fun c => c <> 62) body ->
  tag_end (body ++ 62 :: after) = Some after.
Proof.
  induction 1 as [|c body Hc _ IH]; simpl; [done|].
  by destruct (N.eqb_spec c 62).
Qed.

Lemma remove_html_from_unfold (c d : N) (rest : str) :
  remove_html_from O (c :: d :: rest)
  = if (c =? 60) && negb (d =? 62) then
      match tag_end rest with
      | Some after =>
          remove_html_from (length (d :: rest) - length after) (d :: rest)
      | None => c :: remove_html_from O (d :: rest)
      end
    else c :: remove_html_from O (d :: rest).
Proof. reflexivity. Qed.

(** The text at a tag: the tag goes. *)
Lemma remove_html_at_tag (d : N) (rest after : str) :
  d <> 62 ->
  tag_end rest = Some after ->
  remove_html_from O (60 :: d :: rest) = remove_html_from O after.
Proof.
  intros Hd Hend. rewrite remove_html_from_unfold, Hend.
  apply N.eqb_neq in Hd. rewrite Hd. cbn [negb andb N.eqb Pos.eqb].
  destruct (tag_end_some rest after Hend) as (body & -> & _).
  replace (length (d :: body ++ 62%N :: after) - length after)%nat
    with (length (d :: body ++ [62])).
  - replace (d :: body ++ 62 :: after) with ((d :: body ++ [62]) ++ after).
    + apply remove_html_skip.
    + simpl. by rewrite <- app_assoc.
  - simpl. rewrite !length_app. simpl. lia.
Qed.

(** The text elsewhere: the character stays. *)
Lemma remove_html_no_tag (c : N) (rest : str) :
  match rest with
  | d :: rest' => c <> 60 \/ d = 62 \/ tag_end rest' = None
  | [] => True
  end ->
  remove_html_from O (c :: rest) = c :: remove_html_from O rest.
Proof.
  destruct rest as [|d rest']; [done|]. intros Hno.
  rewrite remove_html_from_unfold.
  destruct ((c =? 60) && negb (d =? 62)) eqn:Hcond; [|done].
  apply andb_true_iff in Hcond. destruct Hcond as [Hc Hd].
  apply N.eqb_eq in Hc. apply negb_true_iff, N.eqb_neq in Hd.
  destruct Hno as [Hno|[Hno|Hno]]; [done|done|]. by rewrite Hno.
Qed.

Lemma remove_html_cases (c : N) (rest : str) :
  (exists d rest' after,
     rest = d :: rest' /\ c = 60 /\ d <> 62 /\ tag_end rest' = Some after)
  \/ match rest with
     | d :: rest' => c <> 60 \/ d = 62 \/ tag_end rest' = None
     | [] => True
     end.
Proof.
  destruct rest as [|d rest']; [by right|].
  destruct (N.eqb_spec c 60) as [->|Hc]; [|by right; left].
  destruct (N.eqb_spec d 62) as [->|Hd]; [by right; right; left|].
  destruct (tag_end rest') as [after|] eqn:Hend; [|by right; right; right].
  left. by exists d, rest', after.
Qed.

Lemma remove_html_without_close (s : str) :
  Forall (fun c => c <> 62) s -> remove_html_from O s = s.
Proof.
  induction 1 as [|c rest Hc Hrest IH]; [done|].
  rewrite remove_html_no_tag; [by rewrite IH|].
  destruct rest as [|d rest']; [done|].
  right. right. apply tag_end_none.
  apply Forall_cons in Hrest. by destruct Hrest.
Qed.

Lemma remove_html_sublist_upto (n : nat) (s : str) :
  (length s <= n)%nat -> sublist (remove_html_from O s) s.
Proof.
  revert s. induction n as [|n IH]; intros s Hlen.
  - destruct s; [constructor|simpl in Hlen; lia].
  - destruct s as [|c rest]; [constructor|]. simpl in Hlen.
    destruct (remove_html_cases c rest)
      as [(d & rest' & after & -> & -> & Hd & Hend)|Hno].
    + rewrite (remove_html_at_tag d rest' after Hd Hend).
      destruct (tag_end_some rest' after Hend) as (body & -> & _).
      simpl in Hlen. rewrite length_app in Hlen. simpl in Hlen.
      transitivity after; [apply IH; lia|].
      apply sublist_cons, sublist_cons.
      change (62 :: after) with ([62] ++ after). rewrite app_assoc.
      apply sublist_inserts_l. done.
    + rewrite (remove_html_no_tag c rest Hno).
      apply sublist_skip, IH. lia.
Qed.

Lemma remove_html_idempotent_upto (n : nat) (s : str) :
  (length s <= n)%nat ->
  remove_html_from O (remove_html_from O s) = remove_html_from O s.
Proof.
  revert s. induction n as [|n IH]; intros s Hlen.
  - destruct s; [done|simpl in Hlen; lia].
  - destruct s as [|c rest]; [done|]. simpl in Hlen.
    destruct (remove_html_cases c rest)
      as [(d & rest' & after & -> & -> & Hd & Hend)|Hno].
    + rewrite (remove_html_at_tag d rest' after Hd Hend).
      destruct (tag_end_some rest' after Hend) as (body & -> & _).
      simpl in Hlen. rewrite length_app in Hlen. simpl in Hlen.
      apply IH. lia.
    + rewrite (remove_html_no_tag c rest Hno).
      destruct rest as [|d rest']; [done|].
      destruct Hno as [Hc|[->|Hnone]].
      * rewrite remove_html_no_tag.
        -- f_equal. apply IH. lia.
        -- destruct (remove_html_from O (d :: rest')); [done|by left].
      * rewrite (remove_html_no_tag 62 rest').
        -- rewrite (remove_html_no_tag c); [|by right; left].
           f_equal. rewrite <- (remove_html_no_tag 62 rest').
           ++ apply IH. lia.
           ++ destruct rest'; [done|by left].
        -- destruct rest'; [done|by left].
      * destruct (N.eqb_spec d 62) as [->|Hd].
        -- rewrite (remove_html_no_tag 62 rest').
           ++ rewrite (remove_html_no_tag c); [|by right; left].
              f_equal. rewrite <- (remove_html_no_tag 62 rest').
              ** apply IH. lia.
              ** destruct rest'; [done|by left].
           ++ destruct rest'; [done|by left].
        -- assert (Hrest : Forall (fun x => x <> 62) (d :: rest')).
           { constructor; [exact Hd|by apply tag_end_none]. }
           rewrite (remove_html_without_close _ Hrest).
           rewrite remove_html_no_tag; [by rewrite remove_html_without_close|].
           by right; right.
Qed.

End RemoveHtml.

(** X7. [remove_html_tags] only deletes: its result is a subsequence of
    the text. A text without the sign that opens a tag is returned as it
    is, and removing the tags a second time changes nothing. *)
Theorem remove_html_tags_only_deletes (text : str) :
  sublist (remove_html_tags text) text
  /\ remove_html_tags (remove_html_tags text) = remove_html_tags text.
Proof.
  unfold remove_html_tags. split.
  - by apply (remove_html_sublist_upto (length text)).
  - by apply (remove_html_idempotent_upto (length text)).
Qed.

(** X8. [remove_html_tags] deletes a tag where it stands: when the text
    before the tag has no opening sign, and the tag is an opening sign,
    one character or more none of which is the closing sign, and the
    closing sign, the result is the text before the tag followed by the
    rest of the text without its tags. *)
Theorem remove_html_tags_deletes_a_tag (before body after : str) (d : N) :
  Forall (fun c => c <> 60) before ->
  Forall (fun c => c <> 62) (d :: body) ->
  remove_html_tags (before ++ [60] ++ d :: body ++ [62] ++ after)
  = before ++ remove_html_tags after.
Proof.
  intros Hbefore Hbody. unfold remove_html_tags.
  apply Forall_cons in Hbody. destruct Hbody as [Hd Hbody].
  induction Hbefore as [|c before Hc _ IH].
  - simpl app. apply remove_html_at_tag; [exact Hd|].
    by apply tag_end_found.
  - change ((c :: before) ++ [60] ++ d :: body ++ [62] ++ after)
      with (c :: (before ++ [60] ++ d :: body ++ [62] ++ after)).
    rewrite remove_html_no_tag; [by rewrite IH|].
    destruct (before ++ [60] ++ d :: body ++ [62] ++ after); [done|by left].
Qed.

Lemma remove_html_tags_deletes_a_tag_witness :
  remove_html_tags (lit "see <a href=x>this</a> now")
  = lit "see " ++ remove_html_tags (lit "this</a> now")
  /\ remove_html_tags (lit "see <a href=x>this</a> now") = lit "see this now".
Proof.
  split; [|vm_compute; reflexivity].
  apply (remove_html_tags_deletes_a_tag
           (lit "see ") (lit " href=x") (lit "this</a> now") 97);
    repeat constructor; discriminate.
Defined.

Section SqueezeSpace.

Lemma squeeze_space_cons (c d : N) (rest : str) :
  squeeze_space (c :: d :: rest)
  = if isspace c
    then if isspace d then squeeze_space (d :: rest)
         else 32 :: squeeze_space (d :: rest)
    else c :: squeeze_space (d :: rest).
Proof. reflexivity. Qed.

Lemma squeezed_cons (c d : N) (rest : str) :
  squeezed (c :: d :: rest)
  = (negb (isspace c) || (c =? 32)) && negb (isspace c && isspace d)
    && squeezed (d :: rest).
Proof. reflexivity. Qed.

Lemma squeeze_space_head (c : N) (rest : str) :
  exists rest',
    squeeze_space (c :: rest) = (if isspace c then 32 else c) :: rest'.
Proof.
  revert c. induction rest as [|d rest IH]; intros c.
  - simpl. destruct (isspace c); by eexists.
  - rewrite squeeze_space_cons.
    destruct (isspace c) eqn:Hc; [|by eexists].
    destruct (isspace d) eqn:Hd; [|by eexists].
    destruct (IH d) as [rest' Hrest']. rewrite Hd in Hrest'. by eexists.
Qed.

Lemma squeeze_space_squeezed (s : str) : squeezed (squeeze_space s) = true.
Proof.
  induction s as [|c rest IH]; [done|].
  destruct rest as [|d rest].
  - simpl. by destruct (isspace c) eqn:Hc; simpl; rewrite ?Hc.
  - rewrite squeeze_space_cons.
    destruct (squeeze_space_head d rest) as [rest' Hrest'].
    destruct (isspace c) eqn:Hc.
    + destruct (isspace d) eqn:Hd; [exact IH|].
      rewrite Hrest' in *. rewrite squeezed_cons, Hd, IH. done.
    + rewrite Hrest' in *. rewrite squeezed_cons, Hc, IH. done.
Qed.

Lemma squeeze_space_fixed (s : str) :
  squeezed s = true -> squeeze_space s = s.
Proof.
  induction s as [|c rest IH]; [done|].
  destruct rest as [|d rest].
  - simpl. destruct (isspace c); [|done]. simpl.
    rewrite !andb_true_r. intros Hc. apply N.eqb_eq in Hc. by subst.
  - rewrite squeezed_cons, squeeze_space_cons. intros Hs.
    apply andb_true_iff in Hs. destruct Hs as [Hs Hrest].
    apply andb_true_iff in Hs. destruct Hs as [Hc Hcd].
    rewrite (IH Hrest).
    destruct (isspace c); [|done]. simpl in Hc, Hcd.
    apply N.eqb_eq in Hc. apply negb_true_iff in Hcd. by rewrite Hcd, Hc.
Qed.

Lemma squeezed_suffix (pre s : str) :
  squeezed (pre ++ s) = true -> squeezed s = true.
Proof.
  induction pre as [|c pre IH]; [done|].
  change ((c :: pre) ++ s) with (c :: (pre ++ s)).
  intros Hs. apply IH. revert Hs.
  destruct (pre ++ s) as [|d t]; [done|].
  rewrite squeezed_cons. intros Hs.
  apply andb_true_iff in Hs. apply Hs.
Qed.

Lemma squeezed_prefix (s post : str) :
  squeezed (s ++ post) = true -> squeezed s = true.
Proof.
  induction s as [|c s IH]; [done|].
  destruct s as [|d s].
  - simpl. destruct post as [|e post]; [done|].
    intros Hs. apply andb_true_iff in Hs. destruct Hs as [Hs _].
    apply andb_true_iff in Hs. destruct Hs as [Hc _].
    by rewrite Hc.
  - change ((c :: d :: s) ++ post) with (c :: d :: (s ++ post)).
    rewrite !squeezed_cons.
    intros Hs. apply andb_true_iff in Hs. destruct Hs as [Hcd Hs].
    rewrite Hcd. by apply IH.
Qed.

Lemma strip_squeezed (s : str) :
  squeezed s = true -> squeezed (strip s) = true.
Proof.
  intros Hs. unfold strip.
  destruct (lstrip_suffix s) as [pre Hpre].
  destruct (rstrip_prefix (lstrip s)) as [post Hpost].
  rewrite Hpre in Hs. apply squeezed_suffix in Hs.
  rewrite Hpost in Hs. by apply squeezed_prefix in Hs.
Qed.

End SqueezeSpace.

(** X9. [normalize_whitespace] is idempotent, and its result has no
    whitespace at either end, no whitespace character other than the
    space, and no two spaces in a row. *)
Theorem normalize_whitespace_is_idempotent (text : str) :
  normalize_whitespace (normalize_whitespace text) = normalize_whitespace text
  /\ strip (normalize_whitespace text) = normalize_whitespace text
  /\ squeezed (normalize_whitespace text) = true.
Proof.
  unfold normalize_whitespace.
  assert (Hsq : squeezed (strip (squeeze_space text)) = true).
  { apply strip_squeezed, squeeze_space_squeezed. }
  split; [|split; [apply strip_idempotent|exact Hsq]].
  rewrite (squeeze_space_fixed _ Hsq). apply strip_idempotent.
Qed.

(** X10. The URL validator never returns the empty string and never a
    string with whitespace at either end: a missing, empty or
    cleaned-away value gives the placeholder. *)
Theorem clean_url_fields_is_a_stripped_text (value : option str) :
  CommonDocument.clean_url_fields value <> []
  /\ strip (CommonDocument.clean_url_fields value)
     = CommonDocument.clean_url_fields value
  /\ (CommonDocument.clean_url_fields value = lit "N/A"
      \/ exists v, value = Some v
                   /\ CommonDocument.clean_url_fields value
                      = normalize_whitespace (remove_html_tags v)).
Proof.
  split; [apply clean_url_fields_nonempty|].
  unfold CommonDocument.clean_url_fields.
  destruct value as [v|]; [|split; [reflexivity|by left]].
  destruct (truthy v) eqn:Hv.
  - destruct (truthy (normalize_whitespace (remove_html_tags v))) eqn:Hn.
    + split; [|right; by exists v].
      unfold normalize_whitespace. apply strip_idempotent.
    + split; [reflexivity|by left].
  - rewrite Hv. split; [reflexivity|by left].
Qed.

(** ** From a provider's article to a refined document *)

Section Refining.

Lemma from_common_with_description (common : CommonDocument.t) (d : str) :
  CommonDocument.description common = Some d ->
  exists refined,
    RefinedDocument.from_common common = Ok refined
    /\ RefinedDocument.doc_id refined = CommonDocument.article_id common
    /\ RefinedDocument.full_text refined
       = CommonDocument.title common ++ [46] ++ d
    /\ RefinedDocument.metadata refined !! lit "url"
       = Some (PyStr (CommonDocument.url common))
    /\ RefinedDocument.metadata refined !! lit "title"
       = Some (PyStr (CommonDocument.title common))
    /\ RefinedDocument.metadata refined !! lit "published_at"
       = Some (PyStr (CommonDocument.published_at common))
    /\ RefinedDocument.metadata refined !! lit "image_url"
       = Some (RefinedDocument.opt_val (CommonDocument.image_url common)).
Proof.
  intros Hd. unfold RefinedDocument.from_common. rewrite Hd. simpl.
  eexists. split; [reflexivity|]. simpl.
  split; [reflexivity|]. split; [reflexivity|].
  repeat split;
    repeat (first [ apply lookup_insert_eq
                  | rewrite lookup_insert_ne by (vm_compute; discriminate) ]).
Qed.

Lemma from_common_ok (common : CommonDocument.t)
    (refined : RefinedDocument.t) :
  RefinedDocument.from_common common = Ok refined ->
  exists d, CommonDocument.description common = Some d.
Proof.
  unfold RefinedDocument.from_common.
  destruct (CommonDocument.description common) as [d|]; [by eexists|done].
Qed.

End Refining.

(** X11. An article that either provider model converts with
    [to_common] can always be refined: its URL is not empty and its
    description is a string, so [from_common] does not raise, and the
    refined document carries the article's identifier and, in its
    metadata, the article's URL. The NewsAPI article takes the drawn
    identifier, the NewsData article keeps the provider's. *)
Theorem converted_articles_can_be_refined `{UnicodeData} `{DateParser}
    (load_time : datetime) (uuid : str) (common : CommonDocument.t) :
  (forall self,
     NewsAPIModel.to_common load_time uuid self = Ok common ->
     CommonDocument.article_id common = uuid
     /\ CommonDocument.url common <> []
     /\ exists refined,
          RefinedDocument.from_common common = Ok refined
          /\ RefinedDocument.doc_id refined = uuid
          /\ RefinedDocument.metadata refined !! lit "url"
             = Some (PyStr (CommonDocument.url common)))
  /\ (forall self,
        NewsDataIOModel.to_common load_time uuid self = Ok common ->
        CommonDocument.article_id common = NewsDataIOModel.article_id self
        /\ CommonDocument.url common <> []
        /\ exists refined,
             RefinedDocument.from_common common = Ok refined
             /\ RefinedDocument.doc_id refined
                = NewsDataIOModel.article_id self
             /\ RefinedDocument.metadata refined !! lit "url"
                = Some (PyStr (CommonDocument.url common))).
Proof.
  split; intros self Hto;
    unfold NewsAPIModel.to_common, NewsDataIOModel.to_common,
      CommonDocument.init in Hto; simpl in Hto;
    destruct (CommonDocument.clean_date_field _ _) as [published|e];
    simpl in Hto; try discriminate;
    injection Hto as <-;
    (split; [reflexivity|]);
    (split; [apply clean_url_fields_nonempty|]);
    unfold RefinedDocument.from_common; simpl;
    eexists; (split; [reflexivity|]); (split; [reflexivity|]); simpl;
    rewrite lookup_insert_ne by (vm_compute; discriminate);
    apply lookup_insert_eq.
Qed.

Lemma converted_articles_can_be_refined_witness :
  let common :=
    {| CommonDocument.article_id := sample_uuid4 0;
       CommonDocument.title := lit "breaking news";
       CommonDocument.url := news_url;
       CommonDocument.published_at := lit "2024-03-03 00:00:00";
       CommonDocument.source_name := lit "wire";
       CommonDocument.image_url := Some (lit "N/A");
       CommonDocument.description := Some (lit "today");
       CommonDocument.content := Some (lit "N/A") |} in
  @NewsAPIModel.to_common ascii_only sample_parser march_3
    (sample_uuid4 0) sample_newsapi_model = Ok common
  /\ CommonDocument.article_id common = sample_uuid4 0
  /\ CommonDocument.url common <> []
  /\ exists refined,
       RefinedDocument.from_common common = Ok refined
       /\ RefinedDocument.doc_id refined = sample_uuid4 0
       /\ RefinedDocument.metadata refined !! lit "url"
          = Some (PyStr (CommonDocument.url common)).
Proof.
  intros common.
  assert (Hto : @NewsAPIModel.to_common ascii_only sample_parser march_3
                  (sample_uuid4 0) sample_newsapi_model = Ok common).
  { vm_compute. reflexivity. }
  split; [exact Hto|].
  destruct (@converted_articles_can_be_refined ascii_only sample_parser
              march_3 (sample_uuid4 0) common) as [Hapi _].
  exact (Hapi sample_newsapi_model Hto).
Defined.

(** X12. A document built from a payload that leaves the description
    out keeps the declared default, None, because the validators run on
    given values only; [from_common] then raises [TypeError] when it
    joins the title and the description. *)
Theorem missing_description_cannot_be_refined `{UnicodeData} `{DateParser}
    (load_time : datetime) (uuid : str) (data : CommonDocument.kwargs)
    (common : CommonDocument.t) :
  CommonDocument.kw_description data = CommonDocument.Omitted ->
  CommonDocument.from_json load_time uuid data = Ok common ->
  CommonDocument.description common = None
  /\ RefinedDocument.from_common common = Raise TypeError.
Proof.
  intros Hout Hjson.
  unfold CommonDocument.from_json, CommonDocument.init in Hjson.
  rewrite Hout in Hjson.
  destruct (match CommonDocument.kw_published_at data with
            | CommonDocument.Omitted => _
            | CommonDocument.Given v => _
            end) as [published|e]; simpl in Hjson; [|discriminate].
  injection Hjson as <-. split; reflexivity.
Qed.

Lemma missing_description_cannot_be_refined_witness :
  exists common,
    @CommonDocument.from_json ascii_only sample_parser march_3
      (sample_uuid4 0) bare_kwargs = Ok common
    /\ CommonDocument.description common = None
    /\ RefinedDocument.from_common common = Raise TypeError.
Proof.
  eexists. split; [vm_compute; reflexivity|].
  eapply (@missing_description_cannot_be_refined ascii_only sample_parser
            march_3 (sample_uuid4 0) bare_kwargs); reflexivity.
Defined.

(** X13. The chunks of a refined document carry its identifier and its
    metadata, and the identifier of a chunk is the digest of the chunk's
    text alone: two refined documents with the same full text, whatever
    their identifiers, get chunks with the same chunk identifiers. *)
Theorem chunk_ids_depend_on_the_text_only
    `{RecursiveCharacterTextSplitter} `{Hashlib}
    (model : TextEmbedder) (doc1 doc2 : RefinedDocument.t)
    (chunks1 : list ChunkedDocument.t) :
  RefinedDocument.full_text doc1 = RefinedDocument.full_text doc2 ->
  ChunkedDocument.from_refined doc1 model = Ok chunks1 ->
  Forall (fun c => ChunkedDocument.doc_id c = RefinedDocument.doc_id doc1
                   /\ ChunkedDocument.metadata c
                      = RefinedDocument.metadata doc1
                   /\ ChunkedDocument.chunk_id c
                      = md5_hexdigest (ChunkedDocument.text c)) chunks1
  /\ exists chunks2,
       ChunkedDocument.from_refined doc2 model = Ok chunks2
       /\ map ChunkedDocument.chunk_id chunks2
          = map ChunkedDocument.chunk_id chunks1
       /\ Forall (fun c => ChunkedDocument.doc_id c
                           = RefinedDocument.doc_id doc2) chunks2.
Proof.
  intros Htext H1. unfold ChunkedDocument.from_refined in *.
  rewrite <- Htext.
  destruct (ChunkedDocument.chunk_text (RefinedDocument.full_text doc1) model)
    as [chunks|e]; simpl in *; [|discriminate].
  injection H1 as <-. split.
  - apply List.Forall_map. apply Forall_forall. by intros c _.
  - eexists. split; [reflexivity|]. split.
    + rewrite !map_map. reflexivity.
    + apply List.Forall_map. apply Forall_forall. by intros c _.
Qed.

Lemma chunk_ids_depend_on_the_text_only_witness :
  exists chunks1 chunks2,
    @ChunkedDocument.from_refined whole_text_splitter sample_hashlib
      sample_refined sample_embedder = Ok chunks1
    /\ @ChunkedDocument.from_refined whole_text_splitter sample_hashlib
         other_refined sample_embedder = Ok chunks2
    /\ map ChunkedDocument.chunk_id chunks2
       = map ChunkedDocument.chunk_id chunks1
    /\ map ChunkedDocument.doc_id chunks1 = [lit "article-1"]
    /\ map ChunkedDocument.doc_id chunks2 = [lit "article-2"].
Proof.
  destruct (@chunk_ids_depend_on_the_text_only whole_text_splitter
              sample_hashlib sample_embedder sample_refined other_refined
              [{| ChunkedDocument.doc_id := lit "article-1";
                  ChunkedDocument.chunk_id :=
                    @md5_hexdigest sample_hashlib (lit "breaking news.today");
                  ChunkedDocument.full_raw_text := lit "breaking news.today";
                  ChunkedDocument.text := lit "breaking news.today";
                  ChunkedDocument.metadata := sample_metadata |}])
    as (_ & chunks2 & H2 & Hids & _); [reflexivity|reflexivity|].
  eexists. exists chunks2.
  split; [reflexivity|]. split; [exact H2|]. split; [exact Hids|].
  split; [reflexivity|].
  vm_compute in H2. injection H2 as <-. reflexivity.
Defined.

(** ** The flow, from articles to the sink *)

Section FlowFacts.
Context `{RecursiveCharacterTextSplitter} `{Hashlib}.

Lemma refine_each (inp : list CommonDocument.t)
    (stream : list RefinedDocument.t) :
  refine inp = Ok stream ->
  Forall (fun refined =>
            exists common,
              In common inp
              /\ RefinedDocument.from_common common = Ok refined) stream.
Proof.
  revert stream. induction inp as [|common rest IH]; intros stream; simpl.
  - intros [= <-]. constructor.
  - destruct (RefinedDocument.from_common common) as [doc|e] eqn:Hdoc;
      simpl; [|done].
    destruct (refine rest) as [docs|e]; simpl; [|done].
    intros [= <-]. constructor.
    + exists common. by split; [left|].
    + eapply Forall_impl; [apply IH; reflexivity|].
      intros refined (c & Hc & Hr). exists c. by split; [right|].
Qed.

Lemma chunkenize_each (model : TextEmbedder)
    (stream : list RefinedDocument.t) (chunks : list ChunkedDocument.t) :
  chunkenize model stream = Ok chunks ->
  Forall (fun chunk =>
            exists refined,
              In refined stream
              /\ ChunkedDocument.doc_id chunk
                 = RefinedDocument.doc_id refined
              /\ ChunkedDocument.metadata chunk
                 = RefinedDocument.metadata refined) chunks.
Proof.
  revert chunks. induction stream as [|refined rest IH]; intros chunks; simpl.
  - intros [= <-]. constructor.
  - unfold ChunkedDocument.from_refined.
    destruct (ChunkedDocument.chunk_text _ model) as [texts|e]; simpl;
      [|done].
    destruct (chunkenize model rest) as [more|e]; simpl; [|done].
    intros [= <-]. apply Forall_app. split.
    + apply List.Forall_map, Forall_forall. intros text _.
      exists refined. by split; [left|].
    + eapply Forall_impl; [apply IH; reflexivity|].
      intros chunk (r & Hr & Hrest). exists r. by split; [right|].
Qed.

End FlowFacts.

(** X14. Once a batch of articles has been refined and chunked, the
    rest of the flow cannot fail: every document that the embed step
    hands to the sink carries the identifier of one of the articles and,
    in its metadata, that article's URL as a string, so [write_batch]
    finds the key and returns normally. *)
Theorem flow_documents_reach_the_sink_with_a_url
    `{RecursiveCharacterTextSplitter} `{Hashlib}
    {C : Type} `{QdrantClient C}
    (model : TextEmbedder) (sink : QdrantVectorSink C)
    (inp : list CommonDocument.t) (stream : list RefinedDocument.t)
    (chunks : list ChunkedDocument.t) :
  refine inp = Ok stream ->
  chunkenize model stream = Ok chunks ->
  Forall (fun doc =>
            exists common,
              In common inp
              /\ EmbeddedDocument.doc_id doc = CommonDocument.article_id common
              /\ EmbeddedDocument.metadata doc !! lit "url"
                 = Some (PyStr (CommonDocument.url common)))
         (embed model chunks)
  /\ exists sink',
       output sink (embed model chunks) = Ok sink'
       /\ run_batch model sink inp = Ok sink'.
Proof.
  intros Hrefine Hchunks.
  assert (Hdocs :
    Forall (fun doc =>
              exists common,
                In common inp
                /\ EmbeddedDocument.doc_id doc
                   = CommonDocument.article_id common
                /\ EmbeddedDocument.metadata doc !! lit "url"
                   = Some (PyStr (CommonDocument.url common)))
           (embed model chunks)).
  { unfold embed. apply List.Forall_map.
    eapply Forall_impl; [apply (chunkenize_each model stream chunks Hchunks)|].
    intros chunk (refined & Hin & Hid & Hmeta). simpl.
    pose proof (refine_each inp stream Hrefine) as Hall.
    rewrite Forall_forall in Hall.
    destruct (Hall refined) as (common & Hcommon & Hfrom);
      [by apply list_elem_of_In|].
    destruct (from_common_ok common refined Hfrom) as [d Hd].
    destruct (from_common_with_description common d Hd)
      as (refined' & Hfrom' & Hid' & _ & Hurl' & _).
    assert (refined' = refined) as -> by congruence.
    exists common. split; [exact Hcommon|].
    split; [congruence|]. by rewrite Hmeta. }
  split; [exact Hdocs|].
  assert (Hurls :
    Forall (fun doc => is_Some (EmbeddedDocument.metadata doc !! lit "url"))
           (embed model chunks)).
  { eapply Forall_impl; [exact Hdocs|].
    intros doc (common & _ & _ & Hurl). by eexists. }
  destruct (write_batch_ok sink (embed model chunks) _
              (stage_with_urls sink (embed model chunks) [] Hurls))
    as [sink' Hsink].
  exists sink'. split; [exact Hsink|].
  unfold run_batch. rewrite Hrefine. simpl. rewrite Hchunks. simpl.
  exact Hsink.
Qed.

Lemma flow_documents_reach_the_sink_with_a_url_witness :
  exists sink',
    @run_batch whole_text_splitter sample_hashlib _ _
      sample_embedder empty_sink [sample_article] = Ok sink'.
Proof.
  destruct (@flow_documents_reach_the_sink_with_a_url
              whole_text_splitter sample_hashlib _ _
              sample_embedder empty_sink [sample_article]
              [{| RefinedDocument.doc_id := lit "article-1";
                  RefinedDocument.full_text := lit "breaking news.today";
                  RefinedDocument.metadata :=
                    <[lit "title" := PyStr (lit "breaking news")]>
                    (<[lit "url" := PyStr news_url]>
                    (<[lit "published_at" :=
                         PyStr (lit "2024-03-03 00:00:00")]>
                    (<[lit "source_name" := PyStr (lit "wire")]>
                    (<[lit "image_url" := PyStr (lit "N/A")]> ∅)))) |}]
              [{| ChunkedDocument.doc_id := lit "article-1";
                  ChunkedDocument.chunk_id :=
                    @md5_hexdigest sample_hashlib (lit "breaking news.today");
                  ChunkedDocument.full_raw_text := lit "breaking news.today";
                  ChunkedDocument.text := lit "breaking news.today";
                  ChunkedDocument.metadata :=
                    <[lit "title" := PyStr (lit "breaking news")]>
                    (<[lit "url" := PyStr news_url]>
                    (<[lit "published_at" :=
                         PyStr (lit "2024-03-03 00:00:00")]>
                    (<[lit "source_name" := PyStr (lit "wire")]>
                    (<[lit "image_url" := PyStr (lit "N/A")]> ∅)))) |}])
    as (_ & sink' & _ & Hrun); [reflexivity|reflexivity|].
  by exists sink'.
Defined.

(** X15. A partition can be built for every part that [list_parts]
    names; it starts from the resume state when there is one and from
    the time of construction when there is none; and a partition rebuilt
    from its own snapshot, after any polls, is the partition it was. *)
Theorem partitions_resume_from_their_snapshot
    (self : NewsStreamInput.t) (for_part : str)
    (resume_state : option timestamp) (now : timestamp) :
  In for_part (NewsStreamInput.list_parts self) ->
  exists part,
    NewsStreamInput.build_part self for_part resume_state now = Ok part
    /\ NewsStreamSource.snapshot part
       = match resume_state with
         | Some state => state
         | None => now
         end
    /\ forall (instants : list timestamp) (later : timestamp),
         NewsStreamInput.build_part self for_part
           (Some (NewsStreamSource.snapshot
                    (NewsStreamSource.poll_all part instants))) later
         = Ok part.
Proof.
  intros Hpart. unfold NewsStreamInput.list_parts in Hpart.
  apply in_map_iff in Hpart. destruct Hpart as (source & Hname & Hsource).
  unfold NewsStreamInput.build_part.
  destruct (find (fun s => bool_decide (fst s = for_part))
                 (NewsStreamInput.sources self)) as [found|] eqn:Hfind.
  - eexists. split; [reflexivity|]. split; [reflexivity|].
    intros instants later. by rewrite poll_all_keeps_partition.
  - exfalso. apply (find_none _ _ Hfind source) in Hsource.
    by apply bool_decide_eq_false in Hsource.
Qed.

Lemma partitions_resume_from_their_snapshot_witness :
  let self :=
    {| NewsStreamInput.sources :=
         [(lit "fetch_from_newsapi", fun _ : timestamp => [sample_article]);
          (lit "fetch_from_newsdataapi", fun _ : timestamp => [])] |} in
  exists part,
    NewsStreamInput.build_part self (lit "fetch_from_newsdataapi") None 1000
    = Ok part
    /\ NewsStreamSource.snapshot part = 1000%Z
    /\ forall (instants : list timestamp) (later : timestamp),
         NewsStreamInput.build_part self (lit "fetch_from_newsdataapi")
           (Some (NewsStreamSource.snapshot
                    (NewsStreamSource.poll_all part instants))) later
         = Ok part.
Proof.
  intros self.
  apply (partitions_resume_from_their_snapshot self
           (lit "fetch_from_newsdataapi") None 1000).
  right. left. reflexivity.
Defined.

(** ** The embedder *)

(** X16. A vector returned by the embedder that is not empty is what
    the encoder returned for the tokens of a text that is not empty,
    tokenized with the embedder's maximum input length; on the empty
    text, on a tokenizer that raises and on an encoder that raises the
    embedder returns the empty list and raises nothing. *)
Theorem call_returns_the_encoder_output (self : TextEmbedder)
    (input_text : str) :
  call self input_text <> [] ->
  input_text <> []
  /\ exists tokenized_text,
       encode (_tokenizer self) input_text (max_input_length self)
       = Ok tokenized_text
       /\ forward (_model self) tokenized_text = Ok (call self input_text).
Proof.
  unfold call, max_input_length.
  destruct input_text as [|c rest]; simpl; [done|].
  destruct (encode (_tokenizer self) (c :: rest) (_max_input_length self))
    as [tokenized_text|e]; [|done].
  destruct (forward (_model self) tokenized_text) as [embeddings|e] eqn:Hf;
    [|done].
  intros _. split; [done|]. by exists tokenized_text.
Qed.

Lemma call_returns_the_encoder_output_witness :
  call sample_embedder (lit "breaking news") = [1 # 2; 1 # 4]
  /\ exists tokenized_text,
       encode (_tokenizer sample_embedder) (lit "breaking news")
         (max_input_length sample_embedder) = Ok tokenized_text
       /\ forward (_model sample_embedder) tokenized_text
          = Ok (call sample_embedder (lit "breaking news")).
Proof.
  split; [reflexivity|].
  apply (call_returns_the_encoder_output sample_embedder (lit "breaking news")).
  discriminate.
Defined.

(** X17. The singleton registry, one caller at a time: once a class has
    been constructed, every later construction of that class returns the
    same instance, whatever the arguments and whatever the constructor
    would do, and leaves the registry alone; the other classes are not
    touched. A construction that raises registers nothing. *)
Theorem singleton_returns_the_first_instance {I A : Type}
    (_instances _instances' : gmap (list N) I) (cls : str)
    (construct : A -> result I) (args : A) (instance : I) :
  Singleton.call _instances cls construct args = (Ok instance, _instances') ->
  _instances' !! cls = Some instance
  /\ (forall (construct' : A -> result I) (args' : A),
        Singleton.call _instances' cls construct' args'
        = (Ok instance, _instances'))
  /\ (forall other, other <> cls -> _instances' !! other = _instances !! other)
  /\ (forall (construct' : A -> result I) (args' : A) (e : exception)
             (registry : gmap (list N) I),
        Singleton.call _instances cls construct' args' = (Raise e, registry) ->
        registry = _instances /\ _instances !! cls = None).
Proof.
  intros Hcall. unfold Singleton.call in Hcall.
  assert (Hreg : _instances' !! cls = Some instance
                 /\ forall other, other <> cls ->
                                  _instances' !! other = _instances !! other).
  { destruct (_instances !! cls) as [existing|] eqn:Hcls.
    - injection Hcall as <- <-. by split.
    - destruct (construct args) as [made|e]; [|done].
      injection Hcall as <- <-. split; [apply lookup_insert_eq|].
      intros other Hother. by apply lookup_insert_ne. }
  destruct Hreg as [Hcls Hothers].
  split; [exact Hcls|]. split; [|split; [exact Hothers|]].
  - intros construct' args'. unfold Singleton.call. by rewrite Hcls.
  - intros construct' args' e registry. unfold Singleton.call.
    destruct (_instances !! cls) as [existing|]; [done|].
    destruct (construct' args') as [made|e']; [done|].
    by intros [= _ <-].
Qed.

Lemma singleton_returns_the_first_instance_witness :
  let first := Singleton.call (∅ : gmap (list N) nat) (lit "TextEmbedder")
                 (fun token_limit : nat => Ok token_limit) 256%nat in
  first = (Ok 256%nat, {[ lit "TextEmbedder" := 256%nat ]})
  /\ Singleton.call (snd first) (lit "TextEmbedder")
       (fun _ : nat => Raise RuntimeError) 512%nat
     = (Ok 256%nat, snd first).
Proof.
  intros first. split; [reflexivity|].
  destruct (singleton_returns_the_first_instance
              (∅ : gmap (list N) nat) (snd first) (lit "TextEmbedder")
              (fun token_limit : nat => Ok token_limit) 256%nat 256%nat)
    as (_ & Hagain & _); [reflexivity|].
  apply Hagain.
Defined.

(** ** Settings *)

Section Upper.

Lemma ascii_upper_ascii (key : str) :
  forallb is_ascii key = true ->
  forallb is_ascii (map Settings.ascii_upper key) = true
  /\ map Settings.ascii_upper (map Settings.ascii_upper key)
     = map Settings.ascii_upper key
  /\ map Settings.ascii_upper (map ascii_lower key)
     = map Settings.ascii_upper key
  /\ forallb is_ascii (map ascii_lower key) = true.
Proof.
  induction key as [|c rest IH]; [done|]. simpl.
  intros Hkey. apply andb_true_iff in Hkey. destruct Hkey as [Hc Hrest].
  destruct (IH Hrest) as (IH1 & IH2 & IH3 & IH4).
  rewrite IH1, IH2, IH3, IH4.
  assert (Hchar : is_ascii (Settings.ascii_upper c) = true
                  /\ Settings.ascii_upper (Settings.ascii_upper c)
                     = Settings.ascii_upper c
                  /\ Settings.ascii_upper (ascii_lower c)
                     = Settings.ascii_upper c
                  /\ is_ascii (ascii_lower c) = true).
  { clear -Hc. unfold is_ascii, Settings.ascii_upper, ascii_lower in *.
    destruct ((97 <=? c) && (c <=? 122)) eqn:Hlow;
      destruct ((65 <=? c) && (c <=? 90)) eqn:Hup; unbool;
      repeat split;
      repeat match goal with
             | |- context [if ?b then _ else _] =>
                 let E := fresh "E" in destruct b eqn:E; unbool
             end; try lia. }
  destruct Hchar as (H1 & H2 & H3 & H4). by rewrite H1, H2, H3, H4.
Qed.

End Upper.

(** X18. [AppConfig.get] reads the environment first, under the key in
    upper case: when the variable is set, its value is returned as a
    string, also when it is the empty string, whatever the file has
    under the key and whatever the default; an ASCII key in lower case,
    in upper case or as written reads the same variable. *)
Theorem settings_get_prefers_the_environment `{Settings.UnicodeUpper}
    (environ : gmap (list N) (list N)) (self : Settings.AppConfig)
    (key v : str) (default : option Settings.value) :
  forallb is_ascii key = true ->
  environ !! map Settings.ascii_upper key = Some v ->
  Settings.get environ self key default = Some (Settings.Str v)
  /\ Settings.get environ self (map Settings.ascii_upper key) default
     = Some (Settings.Str v)
  /\ Settings.get environ self (map ascii_lower key) default
     = Some (Settings.Str v).
Proof.
  intros Hkey Henv.
  destruct (ascii_upper_ascii key Hkey) as (Hup & Hidem & Hlow & Hlower).
  unfold Settings.get, Settings.upper.
  rewrite Hkey, Hup, Hlower, Hidem, Hlow, Henv. done.
Qed.

Lemma settings_get_prefers_the_environment_witness :
  @Settings.get Settings.ascii_upper_only blank_url_environ file_config
    (lit "qdrant_url") None = Some (Settings.Str [])
  /\ @Settings.get Settings.ascii_upper_only blank_url_environ file_config
       (lit "QDRANT_URL") None = Some (Settings.Str []).
Proof.
  destruct (@settings_get_prefers_the_environment Settings.ascii_upper_only
              blank_url_environ file_config (lit "qdrant_url") [] None)
    as (Hkey & Hupper & _); [reflexivity|reflexivity|].
  split; [exact Hkey|exact Hupper].
Defined.

(** X19. [build_qdrant_client] builds a client exactly when the URL and
    the API key both resolve, through [AppConfig.get], to a value that
    is not empty, and raises [KeyError] otherwise; the extra lookup in
    the environment changes nothing. In particular an environment
    variable set to the empty string masks the value of the file and
    makes the build fail. *)
Theorem build_qdrant_client_needs_url_and_key `{Settings.UnicodeUpper}
    (environ : gmap (list N) (list N)) (config : Settings.AppConfig) :
  Output.build_qdrant_client environ config
  = match Settings.get environ config (lit "QDRANT_URL") None,
          Settings.get environ config (lit "QDRANT_API_KEY") None with
    | Some url, Some api_key =>
        if Settings.value_truthy url && Settings.value_truthy api_key
        then Ok (url, api_key)
        else Raise KeyError
    | _, _ => Raise KeyError
    end
  /\ (environ !! lit "QDRANT_URL" = Some []
      \/ environ !! lit "QDRANT_API_KEY" = Some [] ->
      Output.build_qdrant_client environ config = Raise KeyError).
Proof.
  assert (Hsame : forall name,
            forallb is_ascii name = true ->
            map Settings.ascii_upper name = name ->
            Settings.getenv environ name (Settings.get environ config name None)
            = Settings.get environ config name None).
  { intros name Hascii Hupper.
    unfold Settings.getenv, Settings.get, Settings.upper.
    rewrite Hascii, Hupper. by destruct (environ !! name). }
  assert (Heq : Output.build_qdrant_client environ config
    = match Settings.get environ config (lit "QDRANT_URL") None,
            Settings.get environ config (lit "QDRANT_API_KEY") None with
      | Some url, Some api_key =>
          if Settings.value_truthy url && Settings.value_truthy api_key
          then Ok (url, api_key)
          else Raise KeyError
      | _, _ => Raise KeyError
      end).
  { unfold Output.build_qdrant_client.
    rewrite (Hsame (lit "QDRANT_URL")) by reflexivity.
    rewrite (Hsame (lit "QDRANT_API_KEY")) by reflexivity.
    destruct (Settings.get environ config (lit "QDRANT_URL") None) as [u|];
      [|done].
    destruct (Settings.get environ config (lit "QDRANT_API_KEY") None)
      as [k|]; [|done].
    by destruct (Settings.value_truthy u), (Settings.value_truthy k). }
  split; [exact Heq|].
  intros Hblank. rewrite Heq. unfold Settings.get, Settings.upper.
  change (forallb is_ascii (lit "QDRANT_URL")) with true.
  change (forallb is_ascii (lit "QDRANT_API_KEY")) with true.
  cbv iota.
  change (map Settings.ascii_upper (lit "QDRANT_URL")) with (lit "QDRANT_URL").
  change (map Settings.ascii_upper (lit "QDRANT_API_KEY"))
    with (lit "QDRANT_API_KEY").
  destruct Hblank as [Hurl|Hkey].
  - rewrite Hurl. simpl.
    by destruct (environ !! lit "QDRANT_API_KEY");
      [|destruct (Settings.config config !! lit "QDRANT_API_KEY")].
  - rewrite Hkey.
    destruct (environ !! lit "QDRANT_URL");
      [|destruct (Settings.config config !! lit "QDRANT_URL")]; simpl;
      rewrite ?andb_false_r; done.
Qed.

Lemma build_qdrant_client_needs_url_and_key_witness :
  @Output.build_qdrant_client Settings.ascii_upper_only ∅ file_config
  = Ok (Settings.Str (lit "https://db.example"), Settings.Str (lit "secret"))
  /\ @Output.build_qdrant_client Settings.ascii_upper_only
       blank_url_environ file_config = Raise KeyError.
Proof.
  destruct (@build_qdrant_client_needs_url_and_key Settings.ascii_upper_only
              blank_url_environ file_config) as [_ Hblank].
  split; [vm_compute; reflexivity|].
  apply Hblank. left. reflexivity.
Defined.

(** ** The two fetchers *)

Section ConvertAll.
Context {R : Type} (convert : nat -> R -> result CommonDocument.t).

Lemma convert_all_length (n : nat) (items : list R)
    (docs : list CommonDocument.t) :
  Fetchers.convert_all convert n items = Ok docs ->
  length docs = length items.
Proof.
  revert n docs. induction items as [|item rest IH]; intros n docs; simpl.
  - by intros [= <-].
  - destruct (convert n item) as [doc|e]; simpl; [|done].
    destruct (Fetchers.convert_all convert (S n) rest) as [more|e] eqn:Hrest;
      simpl; [|done].
    intros [= <-]. simpl. f_equal. by apply (IH (S n)).
Qed.

Lemma convert_all_stops (n : nat) (items : list R) (item : R) :
  In item items ->
  (forall k, exists e, convert k item = Raise e) ->
  exists e, Fetchers.convert_all convert n items = Raise e.
Proof.
  intros Hin Hbad. revert n.
  induction items as [|first rest IH]; intros n; [destruct Hin|]. simpl.
  destruct Hin as [->|Hin].
  - destruct (Hbad n) as [e ->]. by exists e.
  - destruct (convert n first) as [doc|e]; simpl; [|by exists e].
    destruct (IH Hin (S n)) as [e ->]. by exists e.
Qed.

End ConvertAll.

(** X20. Each fetcher is all or nothing: it returns one document per
    article of the response, in order, or no document at all. One
    article that fails validation (a required field left out or null)
    empties the whole batch, and so does a response that raises. *)
Theorem fetchers_are_all_or_nothing `{UnicodeData} `{DateParser}
    (load_time : datetime) (uuid4 : nat -> str) :
  (forall (articles : list Fetchers.newsapi_item),
     let docs := Fetchers.fetch_from_newsapi load_time uuid4
                   (Ok (Some articles)) in
     (docs = [] \/ length docs = length articles)
     /\ forall item e,
          In item articles -> Fetchers.validate_newsapi item = Raise e ->
          docs = [])
  /\ (forall (articles : list Fetchers.newsdata_item),
        let docs := Fetchers.fetch_from_newsdataapi load_time uuid4
                      (Ok (Some articles)) in
        (docs = [] \/ length docs = length articles)
        /\ forall item e,
             In item articles -> Fetchers.validate_newsdata item = Raise e ->
             docs = [])
  /\ (forall e, Fetchers.fetch_from_newsapi load_time uuid4 (Raise e) = []
                /\ Fetchers.fetch_from_newsdataapi load_time uuid4 (Raise e)
                   = []).
Proof.
  split; [|split].
  - intros articles docs. subst docs. unfold Fetchers.fetch_from_newsapi.
    split.
    + destruct (Fetchers.convert_all _ 0 articles) as [docs|e] eqn:Hall;
        [|by left].
      right. by apply convert_all_length in Hall.
    + intros item e Hin Hbad.
      destruct (convert_all_stops
                  (fun n item =>
                     let! model := Fetchers.validate_newsapi item in
                     NewsAPIModel.to_common load_time (uuid4 n) model)
                  0 articles item Hin) as [e' ->]; [|done].
      intros k. exists e. by rewrite Hbad.
  - intros articles docs. subst docs. unfold Fetchers.fetch_from_newsdataapi.
    split.
    + destruct (Fetchers.convert_all _ 0 articles) as [docs|e] eqn:Hall;
        [|by left].
      right. by apply convert_all_length in Hall.
    + intros item e Hin Hbad.
      destruct (convert_all_stops
                  (fun n item =>
                     let! model := Fetchers.validate_newsdata item in
                     NewsDataIOModel.to_common load_time (uuid4 n) model)
                  0 articles item Hin) as [e' ->]; [|done].
      intros k. exists e. by rewrite Hbad.
  - intros e. by split.
Qed.

Lemma fetchers_are_all_or_nothing_witness :
  length (@Fetchers.fetch_from_newsapi ascii_only sample_parser march_3
            sample_uuid4 (Ok (Some [sample_newsapi_item; sample_newsapi_item])))
  = 2%nat
  /\ @Fetchers.fetch_from_newsapi ascii_only sample_parser march_3
       sample_uuid4
       (Ok (Some [sample_newsapi_item; untitled_newsapi_item;
                  sample_newsapi_item])) = [].
Proof.
  destruct (@fetchers_are_all_or_nothing ascii_only sample_parser march_3
              sample_uuid4) as (Hapi & _ & _).
  split; [vm_compute; reflexivity|].
  apply (Hapi [sample_newsapi_item; untitled_newsapi_item;
               sample_newsapi_item]) with (item := untitled_newsapi_item)
                                          (e := ValidationError).
  - right. left. reflexivity.
  - reflexivity.
Defined.

(** ** The search side *)

(** X21. What the flow writes is what the search shows: when the hits
    of the search carry the metadata of refined articles as payload,
    [query_index] returns one entry per hit, in order, with the score of
    the hit and the title, the URL and the publication date of the
    article as strings, the date being read from the payload key
    published_at. *)
Theorem query_index_shows_the_refined_articles
    {C : Type} `{Frontend.SearchClient C}
    (self : Frontend.QdrantSearchClass C) (query_text : str)
    (embedder : TextEmbedder) (top_k : nat)
    (hits : list Frontend.ScoredPoint) (articles : list CommonDocument.t) :
  Frontend.search (Frontend.client self) (Frontend.collection_name self)
    (call embedder query_text) top_k = Ok hits ->
  Forall2 (fun hit article =>
             exists refined,
               RefinedDocument.from_common article = Ok refined
               /\ Frontend.payload hit = RefinedDocument.metadata refined)
          hits articles ->
  exists entries,
    Frontend.query_index self query_text embedder top_k = Ok entries
    /\ map Frontend.e_score entries = map Frontend.score hits
    /\ Forall2 (fun entry article =>
                  Frontend.e_title entry
                  = PyStr (CommonDocument.title article)
                  /\ Frontend.e_url entry
                     = PyStr (CommonDocument.url article)
                  /\ Frontend.e_date entry
                     = PyStr (CommonDocument.published_at article)
                  /\ Frontend.e_image_url entry
                     = RefinedDocument.opt_val
                         (CommonDocument.image_url article))
               entries articles.
Proof.
  intros Hsearch Hhits. unfold Frontend.query_index. rewrite Hsearch. simpl.
  eexists. split; [reflexivity|]. split.
  - by rewrite map_map.
  - clear Hsearch. induction Hhits as [|hit article hits articles Hhit _ IH];
      [constructor|].
    simpl. constructor; [|exact IH].
    destruct Hhit as (refined & Hfrom & Hpayload).
    destruct (from_common_ok article refined Hfrom) as [d Hd].
    destruct (from_common_with_description article d Hd)
      as (refined' & Hfrom' & _ & _ & Hurl & Htitle & Hdate & Himage).
    assert (refined' = refined) as -> by congruence.
    unfold Frontend.entry_of, Frontend.payload_get. simpl.
    by rewrite Hpayload, Htitle, Hurl, Hdate, Himage.
Qed.

Lemma query_index_shows_the_refined_articles_witness :
  exists entries,
    Frontend.query_index sample_search (lit "news") sample_embedder 10
    = Ok entries
    /\ map Frontend.e_score entries = [9 # 10]
    /\ Forall2 (fun entry article =>
                  Frontend.e_title entry
                  = PyStr (CommonDocument.title article)
                  /\ Frontend.e_url entry
                     = PyStr (CommonDocument.url article)
                  /\ Frontend.e_date entry
                     = PyStr (CommonDocument.published_at article)
                  /\ Frontend.e_image_url entry
                     = RefinedDocument.opt_val
                         (CommonDocument.image_url article))
               entries [sample_article].
Proof.
  apply (query_index_shows_the_refined_articles sample_search (lit "news")
           sample_embedder 10 [sample_hit] [sample_article]).
  - reflexivity.
  - constructor; [|constructor].
    eexists. split; reflexivity.
Defined.

(** ** The grid of article cards *)

Section Grid.
Context {A : Type} (articles : list A) (columns : nat).

Lemma display_row_cards (row m j : nat) :
  Frontend.display_row articles columns row (seq j m)
  = imap (fun i article => (row, (j + i)%nat, article))
         (take m (drop (row * columns + j) articles)).
Proof.
  revert j. induction m as [|m IH]; intros j; [done|].
  cbn [seq Frontend.display_row].
  destruct (articles !! (row * columns + j)%nat) as [article|] eqn:Hidx.
  - rewrite (drop_S _ _ _ Hidx). cbn [take]. rewrite imap_cons.
    rewrite Nat.add_0_r. f_equal.
    rewrite IH, Nat.add_succ_r. apply imap_ext.
    intros i x _. simpl. by rewrite Nat.add_succ_r.
  - apply lookup_ge_None in Hidx. by rewrite (drop_ge _ _ Hidx).
Qed.

Lemma display_rows_cards (rows : nat) :
  (0 < columns)%nat ->
  flat_map (fun row =>
              Frontend.display_row articles columns row (seq 0 columns))
           (seq 0 rows)
  = imap (fun i article => ((i / columns)%nat, (i mod columns)%nat, article))
         (take (rows * columns) articles).
Proof.
  intros Hcolumns. induction rows as [|rows IH]; [done|].
  rewrite seq_S, flat_map_app, IH. simpl flat_map.
  rewrite app_nil_r, display_row_cards, Nat.add_0_r.
  replace (S rows * columns)%nat with (rows * columns + columns)%nat by lia.
  rewrite <- take_take_drop, imap_app. f_equal.
  apply imap_ext. intros i x Hi.
  assert (Hlt : (i < columns)%nat).
  { apply lookup_lt_Some in Hi. rewrite length_take in Hi. lia. }
  assert (Hfull : length (take (rows * columns) articles)
                  = (rows * columns)%nat).
  { rewrite length_take.
    destruct (Nat.le_gt_cases (length articles) (rows * columns)) as [Hle|Hgt];
      [|lia].
    rewrite (drop_ge _ _ Hle), take_nil in Hi. done. }
  rewrite Hfull. simpl.
  rewrite <- (Nat.div_unique (rows * columns + i) columns rows i) by lia.
  rewrite <- (Nat.mod_unique (rows * columns + i) columns rows i) by lia.
  done.
Qed.

Lemma rows_cover_the_articles :
  (0 < columns)%nat ->
  (length articles
   <= (length articles + columns - 1) / columns * columns)%nat.
Proof.
  intros Hcolumns.
  pose proof (Nat.div_mod_eq (length articles + columns - 1) columns) as Hdiv.
  pose proof (Nat.mod_upper_bound (length articles + columns - 1) columns)
    as Hmod.
  nia.
Qed.

End Grid.

Lemma display_rows_positive {A : Type} (articles : list A)
    (columns : positive) (rows : list nat) :
  Frontend.display_rows articles (Z.pos columns) rows
  = Frontend.Rendered
      (flat_map (fun row =>
                   Frontend.display_row articles (Pos.to_nat columns) row
                     (seq 0 (Pos.to_nat columns)))
                rows).
Proof.
  induction rows as [|row rest IH]; [done|].
  cbn [Frontend.display_rows flat_map]. rewrite IH.
  unfold Frontend.st_columns. simpl Z.ltb. cbv iota.
  by rewrite Z2Nat.inj_pos.
Qed.

Lemma display_articles_layout {A : Type} (articles : list A)
    (columns : positive) :
  Frontend.display_articles articles (Z.pos columns)
  = Frontend.Rendered
      (imap (fun i article =>
               ((i / Pos.to_nat columns)%nat, (i mod Pos.to_nat columns)%nat,
                article))
            articles).
Proof.
  unfold Frontend.display_articles, Frontend.range. simpl Z.eqb. cbv iota.
  rewrite display_rows_positive.
  pose proof (Pos2Nat.is_pos columns) as Hpos.
  assert (Hrows :
    Z.to_nat ((Z.of_nat (length articles) + Z.pos columns - 1) / Z.pos columns)
    = ((length articles + Pos.to_nat columns - 1) / Pos.to_nat columns)%nat).
  { replace (Z.of_nat (length articles) + Z.pos columns - 1)%Z
      with (Z.of_nat (length articles + Pos.to_nat columns - 1)).
    - rewrite <- (positive_nat_Z columns), <- Nat2Z.inj_div.
      apply Nat2Z.id.
    - rewrite Nat2Z.inj_sub, Nat2Z.inj_add, positive_nat_Z by lia. done. }
  rewrite Hrows.
  rewrite (display_rows_cards articles (Pos.to_nat columns)) by exact Hpos.
  rewrite take_ge; [done|].
  by apply (rows_cover_the_articles articles (Pos.to_nat columns)).
Qed.

(** With a negative number of columns, the number of rows is positive
    exactly when there is at most one article. *)
Lemma negative_columns_rows (n : nat) (columns : positive) :
  Z.to_nat ((Z.of_nat n + Z.neg columns - 1) / Z.neg columns)
  = match n with
    | O => if (columns =? 1)%positive then 2%nat else 1%nat
    | S O => 1%nat
    | S (S _) => 0%nat
    end.
Proof.
  change (Z.neg columns) with (- Z.pos columns)%Z.
  replace (Z.of_nat n + - Z.pos columns - 1)%Z
    with (- (Z.pos columns + 1 - Z.of_nat n))%Z by lia.
  rewrite Z.div_opp_opp by lia.
  pose proof (Pos2Z.is_pos columns) as Hpos.
  destruct n as [|[|n]].
  - destruct (Pos.eqb_spec columns 1) as [->|Hne]; [reflexivity|].
    assert (Hc : (2 <= Z.pos columns)%Z) by lia.
    replace ((Z.pos columns + 1 - Z.of_nat 0) / Z.pos columns)%Z with 1%Z;
      [reflexivity|].
    apply (Z.div_unique _ _ 1 1); lia.
  - replace ((Z.pos columns + 1 - Z.of_nat 1) / Z.pos columns)%Z with 1%Z;
      [reflexivity|].
    apply (Z.div_unique _ _ 1 0); lia.
  - apply Z2Nat.nonpos.
    assert (Hlt : (Z.pos columns + 1 - Z.of_nat (S (S n)) < Z.pos columns)%Z)
      by lia.
    pose proof (Z.div_lt_upper_bound _ (Z.pos columns) 1 Hpos
                  ltac:(rewrite Z.mul_1_r; exact Hlt)).
    lia.
Qed.

(** X22. With a positive number of columns, [display_articles] renders
    every article exactly once, in order, filling the rows from left to
    right: article number i goes to row i div columns and column i mod
    columns. With no column at all the division by zero is raised,
    whatever the articles. With a negative number of columns no article
    is rendered: two articles or more give no row at all, and with at
    most one article the one row asks for a negative number of
    containers, which is refused. *)
Theorem display_articles_fills_the_grid {A : Type}
    (articles : list A) (columns : positive) :
  Frontend.display_articles articles 0 = Frontend.ZeroDivisionError
  /\ Frontend.display_articles articles (Z.pos columns)
     = Frontend.Rendered
         (imap (fun i article =>
                  ((i / Pos.to_nat columns)%nat,
                   (i mod Pos.to_nat columns)%nat, article))
               articles)
  /\ Frontend.display_articles articles (Z.neg columns)
     = match articles with
       | [] | [_] => Frontend.StreamlitAPIException
       | _ :: _ :: _ => Frontend.Rendered []
       end.
Proof.
  split; [reflexivity|]. split; [apply display_articles_layout|].
  unfold Frontend.display_articles, Frontend.range. simpl Z.eqb. cbv iota.
  rewrite negative_columns_rows.
  destruct articles as [|a [|b rest]]; simpl length; cbv iota.
  - by destruct (columns =? 1)%positive.
  - reflexivity.
  - reflexivity.
Qed.

Lemma display_articles_fills_the_grid_witness :
  Frontend.display_articles [10; 20; 30; 40; 50] 2
  = Frontend.Rendered
      [(0%nat, 0%nat, 10); (0%nat, 1%nat, 20); (1%nat, 0%nat, 30);
       (1%nat, 1%nat, 40); (2%nat, 0%nat, 50)]
  /\ Frontend.display_articles [10; 20; 30; 40; 50] (-2)
     = Frontend.Rendered [].
Proof.
  destruct (display_articles_fills_the_grid [10; 20; 30; 40; 50] 2)
    as (_ & Hpositive & Hnegative).
  split; [exact Hpositive|exact Hnegative].
Defined.

(** X23. The search handler does nothing without a question. With one,
    it searches with the embedding of the cleaned question and lays the
    entries of the hits out on two columns, in the order of the hits;
    what the search raises leaves the handler. A question that cleaning
    empties, such as one made of punctuation, is still searched, with
    the empty vector. *)
Theorem on_search_embeds_the_cleaned_question
    `{UnicodeData} {C : Type} `{Frontend.SearchClient C}
    (qdrant_search : Frontend.QdrantSearchClass C) (question : str)
    (embedder : TextEmbedder) :
  question <> [] ->
  Frontend._on_search qdrant_search (Some question) (Ok embedder)
  = Some match Frontend.search (Frontend.client qdrant_search)
                 (Frontend.collection_name qdrant_search)
                 (call embedder (clean_full question)) 10 with
         | Ok hits =>
             Ok (Frontend.Rendered
                   (imap (fun i entry => ((i / 2)%nat, (i mod 2)%nat, entry))
                         (map Frontend.entry_of hits)))
         | Raise e => Raise e
         end
  /\ (clean_full question = [] -> call embedder (clean_full question) = [])
  /\ Frontend._on_search qdrant_search None (Ok embedder) = None
  /\ Frontend._on_search qdrant_search (Some []) (Ok embedder) = None.
Proof.
  intros Hq. split; [|split; [by intros ->|by split]].
  unfold Frontend._on_search, Frontend.query_index.
  destruct question as [|c rest]; [done|]. simpl truthy. cbv iota. cbn [bind].
  destruct (Frontend.search _ _ _ _) as [hits|e]; [|done].
  cbn [bind]. do 2 f_equal.
  apply (display_articles_layout (map Frontend.entry_of hits) 2).
Qed.

Lemma on_search_embeds_the_cleaned_question_witness :
  @Frontend._on_search ascii_only _ _ sample_search (Some (lit "?!"))
    (Ok sample_embedder)
  = Some (Ok (Frontend.Rendered
                [(0%nat, 0%nat, Frontend.entry_of sample_hit)]))
  /\ call sample_embedder (@clean_full ascii_only (lit "?!")) = [].
Proof.
  destruct (@on_search_embeds_the_cleaned_question ascii_only _ _
              sample_search (lit "?!") sample_embedder)
    as (Hsearch & Hempty & _); [discriminate|].
  split; [exact Hsearch|]. apply Hempty. vm_compute. reflexivity.
Defined.

(** ** The output and its collection *)

(** X24. On the collections of the store, the constructor of the output
    with a client given always succeeds and leaves the collection in
    place: a collection that is already there is kept as it is, whatever
    vector size was asked for, and the client is unchanged; a collection
    that is missing is created with the cosine distance and the resolved
    vector size, the other collections being untouched. A vector size
    that is given and not zero is the resolved size. *)
Theorem output_creates_only_a_missing_collection `{Settings.UnicodeUpper}
    (environ : gmap (list N) (list N)) (config : Settings.AppConfig)
    (vector_size : option Z) (collection_name : option str)
    (store : Output.collections) :
  exists out,
    Output.init environ config vector_size collection_name (Some store)
    = Ok out
    /\ is_Some (Output.by_name (Output.client out)
                !! Output._collection_name out)
    /\ (forall params,
          Output.by_name store !! Output._collection_name out = Some params ->
          Output.client out = store)
    /\ (Output.by_name store !! Output._collection_name out = None ->
        Output.by_name (Output.client out)
        = <[Output._collection_name out :=
              {| Output.size := Output._vector_size out;
                 Output.distance := Output.COSINE |}]>
          (Output.by_name store))
    /\ (forall n, vector_size = Some n -> n <> 0%Z ->
          Output._vector_size out = Some (Settings.Int n)).
Proof.
  unfold Output.init. cbn [bind].
  set (size := match vector_size with Some n => _ | None => _ end).
  set (name := match collection_name with Some n => _ | None => _ end).
  assert (Hsize : forall n, vector_size = Some n -> n <> 0%Z ->
                            size = Some (Settings.Int n)).
  { intros n -> Hn. subst size. by destruct (Z.eqb_spec n 0). }
  cbn [Output.get_collection Output.collections_admin].
  destruct (Output.by_name store !! name) as [params|] eqn:Hname.
  - eexists. split; [reflexivity|]. cbn.
    split; [by rewrite Hname|]. split; [done|].
    split; [by rewrite Hname|exact Hsize].
  - eexists. split; [reflexivity|]. cbn.
    split; [by rewrite lookup_insert_eq|].
    split; [by rewrite Hname|]. split; [done|exact Hsize].
Qed.

(** X25. The output that the flow builds asks for a collection whose
    vector size is the embedder's maximum input length, when that is
    not zero. With a collection name that resolves to a string that is
    not empty and with credentials that resolve, a fresh store gets the
    collection of that name, with that size and the cosine distance;
    without the credentials [KeyError] leaves [_build_output] and
    nothing is built. *)
Theorem build_output_sizes_the_collection_by_input_length
    `{Settings.UnicodeUpper}
    (environ : gmap (list N) (list N)) (config : Settings.AppConfig)
    (model : TextEmbedder) :
  (forall credentials (name : str),
     Settings.get environ config (lit "VECTOR_DB_OUTPUT_COLLECTION_NAME") None
     = Some (Settings.Str name) ->
     name <> [] ->
     Output.build_qdrant_client environ config = Ok credentials ->
     max_input_length model <> O ->
     exists out : Output.QdrantVectorOutput Output.collections,
       Output._build_output environ config model = Ok out
       /\ Output._collection_name out = Some (Settings.Str name)
       /\ Output._vector_size out
          = Some (Settings.Int (Z.of_nat (max_input_length model)))
       /\ Output.by_name (Output.client out) !! Some (Settings.Str name)
          = Some {| Output.size :=
                      Some (Settings.Int (Z.of_nat (max_input_length model)));
                    Output.distance := Output.COSINE |})
  /\ (Output.build_qdrant_client environ config = Raise KeyError ->
      @Output._build_output _ Output.collections _ environ config model
      = Raise KeyError).
Proof.
  split.
  - intros credentials name Hname _ Hcred Hlen.
    unfold Output._build_output, Output.init. rewrite Hcred, Hname.
    cbn [bind].
    destruct (Z.eqb_spec (Z.of_nat (max_input_length model)) 0) as [Hz|_];
      [lia|].
    cbn. rewrite lookup_empty. cbn.
    eexists. split; [reflexivity|]. cbn.
    split; [reflexivity|]. split; [reflexivity|]. by rewrite lookup_insert_eq.
  - intros Hcred. unfold Output._build_output, Output.init.
    by rewrite Hcred.
Qed.

Lemma build_output_sizes_the_collection_by_input_length_witness :
  (exists out : Output.QdrantVectorOutput Output.collections,
     @Output._build_output Settings.ascii_upper_only _ _ ∅ named_config
       sample_embedder = Ok out
     /\ Output._collection_name out = Some (Settings.Str (lit "news"))
     /\ Output._vector_size out = Some (Settings.Int 384)
     /\ Output.by_name (Output.client out) !! Some (Settings.Str (lit "news"))
        = Some {| Output.size := Some (Settings.Int 384);
                  Output.distance := Output.COSINE |})
  /\ @Output._build_output Settings.ascii_upper_only Output.collections _
       blank_url_environ named_config sample_embedder
     = Raise KeyError.
Proof.
  split.
  - destruct (@build_output_sizes_the_collection_by_input_length
                Settings.ascii_upper_only ∅ named_config sample_embedder)
      as [Hbuilt _].
    apply (Hbuilt (Settings.Str (lit "https://db.example"),
                   Settings.Str (lit "secret")) (lit "news")).
    + vm_compute. reflexivity.
    + discriminate.
    + vm_compute. reflexivity.
    + discriminate.
  - destruct (@build_output_sizes_the_collection_by_input_length
                Settings.ascii_upper_only blank_url_environ named_config
                sample_embedder)
      as [_ Hmissing].
    apply Hmissing. vm_compute. reflexivity.
Defined.
